(** * Alertmanager configuration lifecycle of Grafana's unified alerting

    A shallow embedding of two Go files of the repository:

    - the multi-org Alertmanager orchestrator (package [notifier]):
      [SaveAndApplyDefaultConfig], [GetAlertmanagerConfiguration],
      [SaveAndApplyAlertmanagerConfiguration], [SaveAndApplyExtraConfiguration],
      [assignReceiverConfigsUIDs], [mergeProvenance], [cleanPermissions] and
      [extractReceiverNames];
    - the notification policy service (package [provisioning]):
      [GetManagedRoute], [DeleteManagedRoute], [UpdateManagedRoute] and
      [checkOptimisticConcurrency];
    - the other methods of the two: [ActivateHistoricalConfiguration] and
      [GetAppliedAlertmanagerConfigurations] of the orchestrator,
      [GetManagedRoutes], [CreateManagedRoute], [GetPolicyTree],
      [UpdatePolicyTree] and [ResetPolicyTree] of the policy service.

    Go's [error] results are values of one inductive type, [nil] being [None];
    [int64] organisation ids are [Z]; [sets.Set[string]] is [gset string];
    Go maps keyed by strings are [gmap string _].  Receivers are reached
    through pointers in Go; a decoded request holds each of them once, and the
    model passes them by value and returns them as the call leaves them.

    The collaborators that the two files know through interfaces only (the
    stores, the crypto service, the permission service, the live
    Alertmanagers) are type classes over an abstract world [W]; a method body
    is a function from states to a result and a state, the state being the
    world, the number of identifiers generated so far and the log of the
    calls made to collaborators, so that "this call was not made" can be
    stated.  Locks are left out.

    The file has three parts: the embedding; the properties, one section per
    function; examples on small concrete worlds. *)

From Stdlib Require Import ZArith.
From stdpp Require Import gmap strings list fin_maps sets pretty.

Set Warnings "-register-all,-clear-no-such-hyp".

Open Scope Z_scope.
Open Scope string_scope.
Open Scope list_scope.

(** ** Errors *)

(** The error values the two files build, compare or receive.  [fmt_Errorf]
    is [fmt.Errorf] with a message and a [%w] verb and keeps the wrapped
    error; [Errorf] and the [errutil] bases keep the format and its
    arguments; [ErrOpaque] stands for an error raised by a collaborator and
    [Panic] for a run-time panic, which the model returns like an error. *)
Inductive error : Type :=
  | errors_New (msg : string)
  | Errorf (format : string) (args : list string)
  | fmt_Errorf (msg : string) (wrapped : error)
  | joinError (errs : list error)
  | ErrOpaque (code : string)
  | ErrNoAlertmanagerConfiguration
  | ErrorReceiverDoesNotExist (Reference : string)
  | ErrorTimeIntervalDoesNotExist (Reference : string)
  | AlertmanagerConfigRejectedError (Inner : error)
  | ErrAlertmanagerReceiverInUse (Receiver : string) (Err : error)
  | ErrAlertmanagerTimeIntervalInUse (Interval : string) (Err : error)
  | ErrAlertmanagerMultipleExtraConfigsUnsupported (Identifier : string)
  | UnmarshalTypeError (Value : string) (Field : string)
  | SyntaxError
  | ErrRouteNotFound (format : string) (args : list string)
  | ErrRouteInvalidFormat (Err : error)
  | ErrVersionConflict (format : string) (args : list string)
  | Panic (msg : string).

(** [errors.Is]: the target is looked for along the [Unwrap] chain.  Only
    [fmt.Errorf] with [%w] and a joined error unwrap; the error structs of the
    [notifier] package declare no [Unwrap] method. *)
Fixpoint errors_Is_NoAlertmanagerConfiguration (e : error) : bool :=
  match e with
  | ErrNoAlertmanagerConfiguration => true
  | fmt_Errorf _ w => errors_Is_NoAlertmanagerConfiguration w
  | joinError es =>
      (fix any (l : list error) : bool :=
         match l with
         | [] => false
         | x :: l' => errors_Is_NoAlertmanagerConfiguration x || any l'
         end) es
  | _ => false
  end.

(** [errors.As] for the two reference errors of the live Alertmanager; the
    result is the [Reference] field of the first match. *)
Fixpoint errors_As_ReceiverDoesNotExist (e : error) : option string :=
  match e with
  | ErrorReceiverDoesNotExist r => Some r
  | fmt_Errorf _ w => errors_As_ReceiverDoesNotExist w
  | joinError es =>
      (fix first (l : list error) : option string :=
         match l with
         | [] => None
         | x :: l' =>
             match errors_As_ReceiverDoesNotExist x with
             | Some r => Some r
             | None => first l'
             end
         end) es
  | _ => None
  end.

Fixpoint errors_As_TimeIntervalDoesNotExist (e : error) : option string :=
  match e with
  | ErrorTimeIntervalDoesNotExist r => Some r
  | fmt_Errorf _ w => errors_As_TimeIntervalDoesNotExist w
  | joinError es =>
      (fix first (l : list error) : option string :=
         match l with
         | [] => None
         | x :: l' =>
             match errors_As_TimeIntervalDoesNotExist x with
             | Some r => Some r
             | None => first l'
             end
         end) es
  | _ => None
  end.

(** [errors.Join(errs...)]: [nil] when there is nothing to join. *)
Definition errors_Join (errs : list error) : option error :=
  match errs with
  | [] => None
  | _ => Some (joinError errs)
  end.

(** A Go result pair [(T, error)]. *)
Inductive result (A : Type) : Type :=
  | Ok (a : A)
  | Err (e : error).
Arguments Ok {A} a.
Arguments Err {A} e.

(** ** JSON documents and the slim decoder of [extractReceiverNames] *)

(** A syntactically valid JSON text.  Object members keep their order and
    their duplicates, as the decoder visits them one by one. *)
Inductive json : Type :=
  | JNull
  | JBool (b : bool)
  | JNumber (literal : string)
  | JString (s : string)
  | JArray (items : list json)
  | JObject (members : list (string * json)).

(** The JSON kind named in an [UnmarshalTypeError]. *)
Definition json_kind (v : json) : string :=
  match v with
  | JNull => "null"
  | JBool _ => "bool"
  | JNumber _ => "number"
  | JString _ => "string"
  | JArray _ => "array"
  | JObject _ => "object"
  end.

(** A step on the way from the root of a document to one of its values:
    into the member that is decoded into the struct field of JSON name
    [name], or into the element [i] of an array. *)
Inductive path_step : Type :=
  | Member (name : string)
  | Index (i : nat).


(** ** Data of the [definitions] and [models] packages *)

(** [models.Provenance] and [definitions.Provenance] are both [string]. *)
Definition Provenance : Type := string.
Definition ProvenanceNone : Provenance := "".
Definition ProvenanceFile : Provenance := "file".

Record AlertConfiguration : Type := {
  ac_ID : Z;
  ac_AlertmanagerConfiguration : string;
  ac_OrgID : Z;
  ac_LastApplied : Z
}.

Record PostableGrafanaReceiver : Type := {
  pgr_UID : string;
  pgr_Name : string;
  pgr_Type : string;
  pgr_DisableResolveMessage : bool;
  pgr_Settings : string;
  pgr_SecureSettings : gmap string string
}.

(** [gr.UID = gen] *)
Definition pgr_set_UID (uid : string) (gr : PostableGrafanaReceiver) : PostableGrafanaReceiver :=
  {| pgr_UID := uid;
     pgr_Name := pgr_Name gr;
     pgr_Type := pgr_Type gr;
     pgr_DisableResolveMessage := pgr_DisableResolveMessage gr;
     pgr_Settings := pgr_Settings gr;
     pgr_SecureSettings := pgr_SecureSettings gr |}.

(** A receiver of the posted configuration: the embedded upstream receiver
    (its name, and its own integrations kept as text) and the
    Grafana-managed integrations. *)
Record PostableApiReceiver : Type := {
  par_Name : string;
  par_Receiver : string;
  par_GrafanaManagedReceivers : list PostableGrafanaReceiver
}.

Definition par_set_GrafanaManagedReceivers (grs : list PostableGrafanaReceiver)
    (r : PostableApiReceiver) : PostableApiReceiver :=
  {| par_Name := par_Name r;
     par_Receiver := par_Receiver r;
     par_GrafanaManagedReceivers := grs |}.

Inductive ReceiverType : Type :=
  | GrafanaReceiverType
  | AlertmanagerReceiverType
  | EmptyReceiverType.

Record Route : Type := {
  route_Receiver : string;
  route_Spec : string;
  route_Provenance : Provenance
}.

Definition route_set_Provenance (p : Provenance) (r : Route) : Route :=
  {| route_Receiver := route_Receiver r; route_Spec := route_Spec r; route_Provenance := p |}.

Record InhibitRule : Type := { inhibit_Spec : string }.

(** The embedded upstream [Config]: the route, the inhibition rules, and
    the sections this development never looks into. *)
Record Config : Type := {
  cfg_Route : option Route;
  cfg_InhibitRules : list InhibitRule;
  cfg_Rest : string
}.

Definition cfg_set_Route (r : option Route) (c : Config) : Config :=
  {| cfg_Route := r; cfg_InhibitRules := cfg_InhibitRules c; cfg_Rest := cfg_Rest c |}.

Record PostableApiAlertingConfig : Type := {
  paac_Config : Config;
  paac_Receivers : list PostableApiReceiver
}.

Record ExtraConfiguration : Type := {
  Identifier : string;
  ec_Spec : string
}.

Record PostableUserConfig : Type := {
  puc_TemplateFiles : gmap string string;
  puc_AlertmanagerConfig : PostableApiAlertingConfig;
  puc_ExtraConfigs : list ExtraConfiguration
}.

Definition puc_set_Receivers (rs : list PostableApiReceiver) (c : PostableUserConfig)
    : PostableUserConfig :=
  {| puc_TemplateFiles := puc_TemplateFiles c;
     puc_AlertmanagerConfig :=
       {| paac_Config := paac_Config (puc_AlertmanagerConfig c); paac_Receivers := rs |};
     puc_ExtraConfigs := puc_ExtraConfigs c |}.

Definition puc_set_ExtraConfigs (ecs : list ExtraConfiguration) (c : PostableUserConfig)
    : PostableUserConfig :=
  {| puc_TemplateFiles := puc_TemplateFiles c;
     puc_AlertmanagerConfig := puc_AlertmanagerConfig c;
     puc_ExtraConfigs := ecs |}.

Record GettableGrafanaReceiver : Type := {
  ggr_UID : string;
  ggr_Name : string;
  ggr_Type : string;
  ggr_DisableResolveMessage : bool;
  ggr_Settings : string;
  ggr_SecureFields : gmap string bool;
  ggr_Provenance : Provenance
}.

Definition ggr_set_Provenance (p : Provenance) (gr : GettableGrafanaReceiver)
    : GettableGrafanaReceiver :=
  {| ggr_UID := ggr_UID gr;
     ggr_Name := ggr_Name gr;
     ggr_Type := ggr_Type gr;
     ggr_DisableResolveMessage := ggr_DisableResolveMessage gr;
     ggr_Settings := ggr_Settings gr;
     ggr_SecureFields := ggr_SecureFields gr;
     ggr_Provenance := p |}.

Record GettableApiReceiver : Type := {
  gar_Name : string;
  gar_GrafanaManagedReceivers : list GettableGrafanaReceiver
}.

Record GettableApiAlertingConfig : Type := {
  gaac_Config : Config;
  gaac_MuteTimeProvenances : gmap string Provenance;
  gaac_Receivers : list GettableApiReceiver
}.

Record GettableUserConfig : Type := {
  guc_TemplateFiles : gmap string string;
  guc_TemplateFileProvenances : gmap string Provenance;
  guc_AlertmanagerConfig : GettableApiAlertingConfig;
  guc_ExtraConfigs : list ExtraConfiguration
}.

(** [definitions.GettableUserConfig{}] *)
Definition GettableUserConfig_zero : GettableUserConfig :=
  {| guc_TemplateFiles := ∅;
     guc_TemplateFileProvenances := ∅;
     guc_AlertmanagerConfig :=
       {| gaac_Config := {| cfg_Route := None; cfg_InhibitRules := []; cfg_Rest := "" |};
          gaac_MuteTimeProvenances := ∅;
          gaac_Receivers := [] |};
     guc_ExtraConfigs := [] |}.

(** A [models.Provisionable] is used through its two methods only. *)
Record Provisionable : Type := {
  ResourceType : string;
  ResourceID : string
}.

(** ** Collaborators *)

(** The functions of Go's library and of other Grafana packages that the
    two files call and that do not touch any store: the JSON scanner and the
    key folding of [encoding/json] and the text that it puts in the [Field]
    of an [UnmarshalTypeError] for the path from the root struct to the
    value, [Load], the [Type] method of a posted
    receiver, [legacy_storage.NameToUid], the [ResourceType] and
    [ResourceID] methods, [EncryptReceiverConfigSettings], the order in
    which a [range] loop visits the members of a set, which Go leaves open,
    and the generator behind [util.GenerateShortUID], given as the sequence
    of the identifiers it hands out. *)
Class External : Type := {
  json_parse : string → option json;
  foldName : string → string;
  UnmarshalTypeError_Field : list path_step → string;
  Load : string → result PostableUserConfig;
  receiver_Type : PostableApiReceiver → ReceiverType;
  NameToUid : string → string;
  range_set : gset string → list string;
  range_set_elements : ∀ X, range_set X ≡ₚ elements X;
  short_uid : nat → string;
  EncryptReceiverConfigSettings :
    list PostableApiReceiver → (string → result string) → result (list PostableApiReceiver);
  Route_Provisionable : Route → Provisionable;
  EmbeddedContactPoint_ResourceType : string;
  NotificationTemplate_ResourceType : string;
  MuteTimeInterval_ResourceType : string
}.

(** [configurationStore] *)
Class ConfigurationStore (W : Type) : Type := {
  GetLatestAlertmanagerConfiguration : Z → W → result AlertConfiguration
}.

(** [provisioningStore] *)
Class ProvisioningStore (W : Type) : Type := {
  GetProvenance : Provisionable → Z → W → result Provenance;
  GetProvenances : Z → string → W → result (gmap string Provenance);
  SetProvenance : Provisionable → Z → Provenance → W → option error * W;
  DeleteProvenance : Provisionable → Z → W → option error * W
}.

(** [moa.Crypto] *)
Class Crypto (W : Type) : Type := {
  ProcessSecureSettings : Z → list PostableApiReceiver → W → result (list PostableApiReceiver);
  DecryptExtraConfigs : PostableUserConfig → W → result PostableUserConfig;
  Encrypt : string → W → result string;
  getDecryptedSecret : PostableGrafanaReceiver → string → W → result string
}.

(** [moa.receiverResourcePermissions] *)
Class ReceiverPermissions (W : Type) : Type := {
  DeleteResourcePermissions : Z → string → W → option error * W;
  SetDefaultPermissions : Z → string → W → W
}.

(** What [AlertmanagerFor] answers: the organisation's Alertmanager, the
    same with [ErrAlertmanagerNotReady], or another error. *)
Inductive AlertmanagerLookup (AM : Type) : Type :=
  | AlertmanagerReady (am : AM)
  | AlertmanagerNotReady (am : AM)
  | AlertmanagerMissing (err : error).
Arguments AlertmanagerReady {AM} am.
Arguments AlertmanagerNotReady {AM} am.
Arguments AlertmanagerMissing {AM} err.

(** The per-organisation Alertmanagers and the three calls made on one. *)
Class Alertmanagers (W : Type) : Type := {
  Alertmanager : Type;
  alertmanagerForOrg : Z → W → result Alertmanager;
  AlertmanagerFor : Z → W → AlertmanagerLookup Alertmanager;
  am_SaveAndApplyConfig : Alertmanager → PostableUserConfig → W → option error * W;
  am_SaveAndApplyDefaultConfig : Alertmanager → W → option error * W;
  AddAutogenConfig : Z → GettableApiAlertingConfig → W → result GettableApiAlertingConfig
}.

(** ** State and call log *)

Inductive Call : Type :=
  | CallGetLatestAlertmanagerConfiguration (org : Z)
  | CallProcessSecureSettings (org : Z)
  | CallGenerateShortUID (uid : string)
  | CallAlertmanagerFor (org : Z)
  | CallSaveAndApplyConfig (cfg : PostableUserConfig) (accepted : bool)
  | CallSaveAndApplyDefaultConfig (accepted : bool)
  | CallDeleteResourcePermissions (org : Z) (uid : string) (deleted : bool)
  | CallSetDefaultPermissions (org : Z) (uid : string)
  | CallCrypto
  | CallGetProvenance (org : Z) (o : Provisionable)
  | CallGetProvenances (org : Z) (resourceType : string)
  | CallSetProvenance (org : Z) (o : Provisionable) (p : Provenance)
  | CallDeleteProvenance (org : Z) (o : Provisionable)
  | CallAddAutogenConfig (org : Z)
  | CallConfigStoreGet (org : Z)
  | CallConfigStoreSave (org : Z)
  | LogError (msg : string) (err : option error)
  | LogInfo (msg : string)
  | LogDebug (msg : string).

Record St (W : Type) : Type := {
  world : W;
  uid_draws : nat;
  calls : list Call
}.
Arguments world {W} _.
Arguments uid_draws {W} _.
Arguments calls {W} _.

Definition set_world {W} (w : W) (s : St W) : St W :=
  {| world := w; uid_draws := uid_draws s; calls := calls s |}.

Definition log {W} (c : Call) (s : St W) : St W :=
  {| world := world s; uid_draws := uid_draws s; calls := calls s ++ [c] |}.

(** A Go method body: it reads and writes the state and returns a value. *)
Definition M (W A : Type) : Type := St W → A * St W.

#[global] Instance M_ret {W} : MRet (M W) := λ A a s, (a, s).
#[global] Instance M_bind {W} : MBind (M W) :=
  λ A B f m s, let '(a, s') := m s in f a s'.

(** A call that only reads the world. *)
Definition reading {W A} (c : Call) (f : W → A) : M W A :=
  λ s, (f (world s), log c s).

(** [for _, x := range l { acc = body(acc, x) }] *)
Fixpoint for_range {W A B} (l : list A) (body : B → A → M W B) (acc : B) : M W B :=
  match l with
  | [] => mret acc
  | x :: l' => acc' ← body acc x; for_range l' body acc'
  end.

(** The calls made from state [s] to state [s']. *)
Definition calls_since {W} (s s' : St W) : list Call :=
  drop (length (calls s)) (calls s').

(** ** Package [notifier]: the multi-org Alertmanager orchestrator *)

Module notifier.
Section Orchestrator.
Context {W : Type}.
Context `{!External, !ConfigurationStore W, !ProvisioningStore W, !Crypto W,
          !ReceiverPermissions W, !Alertmanagers W}.

(** *** [extractReceiverNames]

    [json.Unmarshal] first scans the whole text and fails with a syntax
    error on anything that is not one JSON value ([json_parse]); it then
    decodes that value into the slim struct
    [{AlertmanagerConfig {Receivers []{Name string}}}]. *)

(** A member key selects a struct field when it is the field's name, or
    folds to the same name. *)
Definition key_matches (field key : string) : bool :=
  bool_decide (key = field) || bool_decide (foldName key = foldName field).

(** The decoder keeps the first type error and goes on. *)
Definition saveError (saved : option error) (e : error) : option error :=
  match saved with
  | Some e0 => Some e0
  | None => Some e
  end.

(** Decoding one object into a struct with the single field [field]: every
    member whose key selects the field is decoded into the field's current
    value, in order; the other members are skipped whatever they hold. *)
Definition decode_members {A : Type} (field : string)
    (decode_field : json → A * option error → A * option error)
    (members : list (string * json)) (st : A * option error) : A * option error :=
  foldl (λ st m, if key_matches field m.1 then decode_field m.2 st else st) st members.

(** A value of the wrong kind for the field at the end of [path]. *)
Definition typeError (v : json) (path : list path_step) : error :=
  UnmarshalTypeError (json_kind v) (UnmarshalTypeError_Field path).

(** [Name string `json:"name"`], the value being at [path]. *)
Definition decode_name (path : list path_step) (v : json) (st : string * option error)
    : string * option error :=
  match v with
  | JString s => (s, st.2)
  | JNull => st
  | _ => (st.1, saveError st.2 (typeError v path))
  end.

(** One element of [Receivers], at [path]. *)
Definition decode_receiver (path : list path_step) (v : json) (st : string * option error)
    : string * option error :=
  match v with
  | JObject ms => decode_members "name" (decode_name (path ++ [Member "name"])) ms st
  | JNull => st
  | _ => (st.1, saveError st.2 (typeError v path))
  end.

(** The elements of a JSON array, from the element [i] on, decoded over
    [old], what the backing array of the slice holds from the index [i] on:
    each element is decoded into the struct that is there, and into a zero
    struct past the end of [old]. *)
Fixpoint decode_items (path : list path_step) (i : nat) (items : list json)
    (old : list string) (saved : option error) : list string * option error :=
  match items with
  | [] => ([], saved)
  | v :: items' =>
      let cur := decode_receiver (path ++ [Index i]) v (hd "" old, saved) in
      let rest := decode_items path (S i) items' (tl old) cur.2 in
      (cur.1 :: rest.1, rest.2)
  end.

(** The slice [Receivers]: its elements, and the elements that its backing
    array still holds past its length since an earlier, longer array was
    decoded into it.  Growing the slice adds zero structs after those. *)
Record receivers_slice : Type := {
  sl_elems : list string;
  sl_stale : list string
}.

(** [Receivers []struct{...} `json:"receivers,omitempty"`], at [path].  An
    array is decoded element by element over the backing array, and the
    slice ends up with the length of the array; an empty array leaves a new
    empty slice, and [null] the nil slice. *)
Definition decode_receivers (path : list path_step) (v : json)
    (st : receivers_slice * option error) : receivers_slice * option error :=
  match v with
  | JArray items =>
      let backing := sl_elems st.1 ++ sl_stale st.1 in
      let decoded := decode_items path 0 items backing st.2 in
      ({| sl_elems := decoded.1;
          sl_stale := match items with
                      | [] => []
                      | _ => drop (length items) backing
                      end |},
       decoded.2)
  | JNull => ({| sl_elems := []; sl_stale := [] |}, st.2)
  | _ => (st.1, saveError st.2 (typeError v path))
  end.

(** [AlertmanagerConfig struct {...} `json:"alertmanager_config"`], at
    [path]. *)
Definition decode_alertmanager_config (path : list path_step) (v : json)
    (st : receivers_slice * option error) : receivers_slice * option error :=
  match v with
  | JObject ms =>
      decode_members "receivers" (decode_receivers (path ++ [Member "receivers"])) ms st
  | JNull => st
  | _ => (st.1, saveError st.2 (typeError v path))
  end.

(** The whole document decoded into a zero [receiverUserConfig]. *)
Definition decode_receiverUserConfig (v : json) : receivers_slice * option error :=
  match v with
  | JObject ms =>
      decode_members "alertmanager_config"
        (decode_alertmanager_config [Member "alertmanager_config"]) ms
        ({| sl_elems := []; sl_stale := [] |}, None)
  | JNull => ({| sl_elems := []; sl_stale := [] |}, None)
  | _ => ({| sl_elems := []; sl_stale := [] |}, Some (typeError v []))
  end.

(** [json.Unmarshal([]byte(rawConfig), cfg)] for a fresh [cfg]; the result is
    the list of the [Name]s of [cfg.AlertmanagerConfig.Receivers]. *)
Definition json_Unmarshal (rawConfig : string) : result (list string) :=
  match json_parse rawConfig with
  | None => Err SyntaxError
  | Some v =>
      match decode_receiverUserConfig v with
      | (Receivers, None) => Ok (sl_elems Receivers)
      | (_, Some err) => Err err
      end
  end.

Definition extractReceiverNames (rawConfig : string) : result (gset string) :=
  match json_Unmarshal rawConfig with
  | Err err => Err (fmt_Errorf "unable to parse Alertmanager configuration" err)
  | Ok Receivers =>
      Ok (foldl (λ (receiverNames : gset string) Name, {[Name]} ∪ receiverNames) ∅ Receivers)
  end.

(** *** [cleanPermissions] *)

Definition call_DeleteResourcePermissions (orgID : Z) (uid : string) : M W (option error) :=
  λ s, let '(err, w) := DeleteResourcePermissions orgID uid (world s) in
       (err, log (CallDeleteResourcePermissions orgID uid (bool_decide (err = None)))
                 (set_world w s)).

Definition call_SetDefaultPermissions (orgID : Z) (uid : string) : M W unit :=
  λ s, (tt, log (CallSetDefaultPermissions orgID uid)
                (set_world (SetDefaultPermissions orgID uid (world s)) s)).

(** The body of the loop over the deleted receivers. *)
Definition delete_permissions (orgID : Z) (errs : list error) (receiverName : string)
    : M W (list error) :=
  err ← call_DeleteResourcePermissions orgID (NameToUid receiverName);
  match err with
  | Some err =>
      mret (errs ++ [fmt_Errorf ("failed to delete permissions for receiver " +:+ receiverName) err])
  | None => mret errs
  end.

(** The body of the loop over the added receivers. *)
Definition install_permissions (orgID : Z) (_ : unit) (receiverName : string) : M W unit :=
  call_SetDefaultPermissions orgID (NameToUid receiverName).

(** The two loops range over Go sets, in the order [range_set]. *)
Definition cleanPermissions (orgID : Z) (previousConfig : AlertConfiguration)
    (newReceiverNames : gset string) : M W (option error) :=
  match extractReceiverNames (ac_AlertmanagerConfiguration previousConfig) with
  | Err err =>
      mret (Some (fmt_Errorf "failed to extract receiver names from previous configuration" err))
  | Ok previousReceiverNames =>
      errs ← for_range (range_set (previousReceiverNames ∖ newReceiverNames))
                (delete_permissions orgID) [];
      _ ← for_range (range_set (newReceiverNames ∖ previousReceiverNames))
             (install_permissions orgID) tt;
      mret (errors_Join errs)
  end.

(** *** [assignReceiverConfigsUIDs] *)

Definition GenerateShortUID : M W string :=
  λ s, let gen := short_uid (uid_draws s) in
       (gen, {| world := world s;
                uid_draws := S (uid_draws s);
                calls := calls s ++ [CallGenerateShortUID gen] |}).

(** [for i := 0; i < retries; i++ { ... }] with [retries - i] rounds left;
    the result is [gr.UID] after the loop, which was empty before it. *)
Fixpoint retry_GenerateShortUID (rounds : nat) (seenUIDs : gset string) : M W string :=
  match rounds with
  | O => mret ""
  | S rounds' =>
      gen ← GenerateShortUID;
      if bool_decide (gen ∈ seenUIDs)
      then retry_GenerateShortUID rounds' seenUIDs
      else mret gen
  end.

Definition errUIDRetriesExhausted : error :=
  Errorf "all %d attempts to generate UID for receiver have failed; please retry" ["5"].

(** The body of the inner loop for one Grafana-managed receiver [gr]: the
    error to return if any, [gr] as the body leaves it, and [seenUIDs]. *)
Definition assign_one (gr : PostableGrafanaReceiver) (seenUIDs : gset string)
    : M W (option error * PostableGrafanaReceiver * gset string) :=
  if bool_decide (pgr_UID gr = "") then
    uid ← retry_GenerateShortUID 5 seenUIDs;
    let gr := pgr_set_UID uid gr in
    if bool_decide (pgr_UID gr = "")
    then mret (Some errUIDRetriesExhausted, gr, seenUIDs)
    else mret (None, gr, {[pgr_UID gr]} ∪ seenUIDs)
  else mret (None, gr, {[pgr_UID gr]} ∪ seenUIDs).

(** [for _, gr := range r.GrafanaManagedReceivers { ... }]; an error leaves
    the receivers after the failing one as they were. *)
Fixpoint assign_managed (grs : list PostableGrafanaReceiver) (seenUIDs : gset string)
    : M W (option error * list PostableGrafanaReceiver * gset string) :=
  match grs with
  | [] => mret (None, [], seenUIDs)
  | gr :: grs' =>
      '(err, gr', seenUIDs) ← assign_one gr seenUIDs;
      match err with
      | Some err => mret (Some err, gr' :: grs', seenUIDs)
      | None =>
          '(err, grs'', seenUIDs) ← assign_managed grs' seenUIDs;
          mret (err, gr' :: grs'', seenUIDs)
      end
  end.

(** [for _, r := range c { switch r.Type() { ... } }] *)
Fixpoint assign_receivers (c : list PostableApiReceiver) (seenUIDs : gset string)
    : M W (option error * list PostableApiReceiver * gset string) :=
  match c with
  | [] => mret (None, [], seenUIDs)
  | r :: c' =>
      match receiver_Type r with
      | GrafanaReceiverType =>
          '(err, grs, seenUIDs) ← assign_managed (par_GrafanaManagedReceivers r) seenUIDs;
          let r := par_set_GrafanaManagedReceivers grs r in
          match err with
          | Some err => mret (Some err, r :: c', seenUIDs)
          | None =>
              '(err, c'', seenUIDs) ← assign_receivers c' seenUIDs;
              mret (err, r :: c'', seenUIDs)
          end
      | _ =>
          '(err, c'', seenUIDs) ← assign_receivers c' seenUIDs;
          mret (err, r :: c'', seenUIDs)
      end
  end.

(** The receivers are reached through pointers and updated in place: the
    result carries the error and the receivers as the call leaves them. *)
Definition assignReceiverConfigsUIDs (c : list PostableApiReceiver)
    : M W (option error * list PostableApiReceiver) :=
  '(err, c', _) ← assign_receivers c ∅;
  mret (err, c').

(** *** The write paths *)

Definition is_nil (err : option error) : bool :=
  match err with
  | None => true
  | Some _ => false
  end.

Definition call_SaveAndApplyConfig (am : Alertmanager) (cfg : PostableUserConfig)
    : M W (option error) :=
  λ s, let '(err, w) := am_SaveAndApplyConfig am cfg (world s) in
       (err, log (CallSaveAndApplyConfig cfg (is_nil err)) (set_world w s)).

Definition call_SaveAndApplyDefaultConfig (am : Alertmanager) : M W (option error) :=
  λ s, let '(err, w) := am_SaveAndApplyDefaultConfig am (world s) in
       (err, log (CallSaveAndApplyDefaultConfig (is_nil err)) (set_world w s)).

Definition call_GetLatestAlertmanagerConfiguration (org : Z) : M W (result AlertConfiguration) :=
  reading (CallGetLatestAlertmanagerConfiguration org) (GetLatestAlertmanagerConfiguration org).

Definition logger_Error (msg : string) (err : option error) : M W unit :=
  λ s, (tt, log (LogError msg err) s).

Definition logger_Info (msg : string) : M W unit :=
  λ s, (tt, log (LogInfo msg) s).

(** The tail shared by the write paths: report a failed clean-up in the log
    and return [nil]. *)
Definition report_cleanPermissions (cleanPermissionsErr : option error) : M W (option error) :=
  match cleanPermissionsErr with
  | Some err =>
      _ ← logger_Error "Failed to clean permissions for receivers" (Some err);
      mret None
  | None => mret None
  end.

Definition SaveAndApplyDefaultConfig (orgId : Z) : M W (option error) :=
  orgAM ← reading (CallAlertmanagerFor orgId) (alertmanagerForOrg orgId);
  match orgAM with
  | Err err => mret (Some err)
  | Ok orgAM =>
      previous ← call_GetLatestAlertmanagerConfiguration orgId;
      err ← call_SaveAndApplyDefaultConfig orgAM;
      match err with
      | Some err => mret (Some err)
      | None =>
          cleanPermissionsErr ←
            match previous with
            | Err cleanPermissionsErr => mret (Some cleanPermissionsErr)
            | Ok previousConfig =>
                defaulted ← call_GetLatestAlertmanagerConfiguration orgId;
                match defaulted with
                | Err err => mret (Some err)
                | Ok defaultedConfig =>
                    match extractReceiverNames (ac_AlertmanagerConfiguration defaultedConfig) with
                    | Err err => mret (Some err)
                    | Ok newReceiverNames =>
                        cleanPermissions orgId previousConfig newReceiverNames
                    end
                end
            end;
          report_cleanPermissions cleanPermissionsErr
      end
  end.

(** What [SaveAndApplyAlertmanagerConfiguration] returns when
    [am.SaveAndApplyConfig] fails with [err]. *)
Definition rejected (err : error) : error :=
  match errors_As_ReceiverDoesNotExist err with
  | Some Reference => ErrAlertmanagerReceiverInUse Reference err
  | None =>
      match errors_As_TimeIntervalDoesNotExist err with
      | Some Reference => ErrAlertmanagerTimeIntervalInUse Reference err
      | None => AlertmanagerConfigRejectedError err
      end
  end.

Definition SaveAndApplyAlertmanagerConfiguration (org : Z) (config : PostableUserConfig)
    : M W (option error) :=
  if bool_decide (0 < length (cfg_InhibitRules (paac_Config (puc_AlertmanagerConfig config))))%nat
  then mret (Some (errors_New "inhibition rules are not supported"))
  else
    previous ← call_GetLatestAlertmanagerConfiguration org;
    let failed :=
      match previous with
      | Err err =>
          if negb (errors_Is_NoAlertmanagerConfiguration err)
          then Some (fmt_Errorf "failed to get latest configuration" err)
          else None
      | Ok _ => None
      end in
    match failed with
    | Some err => mret (Some err)
    | None =>
        processed ← reading (CallProcessSecureSettings org)
          (ProcessSecureSettings org (paac_Receivers (puc_AlertmanagerConfig config)));
        match processed with
        | Err err => mret (Some (fmt_Errorf "failed to post process Alertmanager configuration" err))
        | Ok Receivers =>
            '(err, Receivers) ← assignReceiverConfigsUIDs Receivers;
            let config := puc_set_Receivers Receivers config in
            match err with
            | Some err => mret (Some (fmt_Errorf "failed to assign missing uids" err))
            | None =>
                found ← reading (CallAlertmanagerFor org) (AlertmanagerFor org);
                match found with
                | AlertmanagerMissing err => mret (Some err)
                | AlertmanagerReady am | AlertmanagerNotReady am =>
                    err ← call_SaveAndApplyConfig am config;
                    match err with
                    | Some err =>
                        _ ← logger_Error "Unable to save and apply alertmanager configuration" (Some err);
                        mret (Some (rejected err))
                    | None =>
                        cleanPermissionsErr ←
                          match previous with
                          | Err cleanPermissionsErr => mret (Some cleanPermissionsErr)
                          | Ok previousConfig =>
                              let newReceiverNames :=
                                foldl (λ (names : gset string) r, {[par_Name r]} ∪ names) ∅
                                      (paac_Receivers (puc_AlertmanagerConfig config)) in
                              cleanPermissions org previousConfig newReceiverNames
                          end;
                        report_cleanPermissions cleanPermissionsErr
                    end
                end
            end
        end
    end.

(** *** Extra configurations *)

Definition modifyAndApplyExtraConfiguration (org : Z)
    (modifyFn : list ExtraConfiguration → result (list ExtraConfiguration))
    : M W (option error) :=
  currentCfg ← call_GetLatestAlertmanagerConfiguration org;
  match currentCfg with
  | Err err => mret (Some (fmt_Errorf "failed to get current configuration" err))
  | Ok currentCfg =>
      match Load (ac_AlertmanagerConfiguration currentCfg) with
      | Err err =>
          mret (Some (fmt_Errorf "failed to unmarshal current alertmanager configuration" err))
      | Ok cfg =>
          match modifyFn (puc_ExtraConfigs cfg) with
          | Err err => mret (Some (fmt_Errorf "failed to apply extra configuration" err))
          | Ok ExtraConfigs =>
              let cfg := puc_set_ExtraConfigs ExtraConfigs cfg in
              found ← reading (CallAlertmanagerFor org) (AlertmanagerFor org);
              match found with
              | AlertmanagerMissing err => mret (Some err)
              | AlertmanagerReady am | AlertmanagerNotReady am =>
                  err ← call_SaveAndApplyConfig am cfg;
                  match err with
                  | Some err =>
                      _ ← logger_Error
                            "Unable to save and apply alertmanager configuration with extra config"
                            (Some err);
                      mret (Some (AlertmanagerConfigRejectedError err))
                  | None =>
                      _ ← logger_Info "Applied alertmanager configuration with extra config";
                      mret None
                  end
              end
          end
      end
  end.

(** The [modifyFunc] closure of [SaveAndApplyExtraConfiguration]. *)
Fixpoint SaveAndApplyExtraConfiguration_modifyFunc (extraConfig : ExtraConfiguration)
    (configs : list ExtraConfiguration) : result (list ExtraConfiguration) :=
  match configs with
  | [] => Ok [extraConfig]
  | c :: configs' =>
      if bool_decide (Identifier c ≠ Identifier extraConfig)
      then Err (ErrAlertmanagerMultipleExtraConfigsUnsupported (Identifier c))
      else SaveAndApplyExtraConfiguration_modifyFunc extraConfig configs'
  end.

Definition SaveAndApplyExtraConfiguration (org : Z) (extraConfig : ExtraConfiguration)
    : M W (option error) :=
  err ← modifyAndApplyExtraConfiguration org
          (SaveAndApplyExtraConfiguration_modifyFunc extraConfig);
  match err with
  | Some err => mret (Some err)
  | None =>
      _ ← logger_Info "Applied alertmanager configuration with extra config";
      mret None
  end.

Definition DeleteExtraConfiguration (org : Z) (identifier : string) : M W (option error) :=
  modifyAndApplyExtraConfiguration org
    (λ configs, Ok (filter (λ ec, Identifier ec ≠ identifier) configs)).

(** *** The read path *)

Definition call_GetProvenances (org : Z) (resourceType : string)
    : M W (result (gmap string Provenance)) :=
  reading (CallGetProvenances org resourceType) (GetProvenances org resourceType).

Definition guc_set_Route (r : Route) (config : GettableUserConfig) : GettableUserConfig :=
  {| guc_TemplateFiles := guc_TemplateFiles config;
     guc_TemplateFileProvenances := guc_TemplateFileProvenances config;
     guc_AlertmanagerConfig :=
       {| gaac_Config := cfg_set_Route (Some r) (gaac_Config (guc_AlertmanagerConfig config));
          gaac_MuteTimeProvenances := gaac_MuteTimeProvenances (guc_AlertmanagerConfig config);
          gaac_Receivers := gaac_Receivers (guc_AlertmanagerConfig config) |};
     guc_ExtraConfigs := guc_ExtraConfigs config |}.

Definition guc_set_Receivers (rs : list GettableApiReceiver) (config : GettableUserConfig)
    : GettableUserConfig :=
  {| guc_TemplateFiles := guc_TemplateFiles config;
     guc_TemplateFileProvenances := guc_TemplateFileProvenances config;
     guc_AlertmanagerConfig :=
       {| gaac_Config := gaac_Config (guc_AlertmanagerConfig config);
          gaac_MuteTimeProvenances := gaac_MuteTimeProvenances (guc_AlertmanagerConfig config);
          gaac_Receivers := rs |};
     guc_ExtraConfigs := guc_ExtraConfigs config |}.

Definition guc_set_TemplateFileProvenances (ps : gmap string Provenance)
    (config : GettableUserConfig) : GettableUserConfig :=
  {| guc_TemplateFiles := guc_TemplateFiles config;
     guc_TemplateFileProvenances := ps;
     guc_AlertmanagerConfig := guc_AlertmanagerConfig config;
     guc_ExtraConfigs := guc_ExtraConfigs config |}.

Definition guc_set_MuteTimeProvenances (ps : gmap string Provenance)
    (config : GettableUserConfig) : GettableUserConfig :=
  {| guc_TemplateFiles := guc_TemplateFiles config;
     guc_TemplateFileProvenances := guc_TemplateFileProvenances config;
     guc_AlertmanagerConfig :=
       {| gaac_Config := gaac_Config (guc_AlertmanagerConfig config);
          gaac_MuteTimeProvenances := ps;
          gaac_Receivers := gaac_Receivers (guc_AlertmanagerConfig config) |};
     guc_ExtraConfigs := guc_ExtraConfigs config |}.

Definition guc_set_AlertmanagerConfig (c : GettableApiAlertingConfig)
    (config : GettableUserConfig) : GettableUserConfig :=
  {| guc_TemplateFiles := guc_TemplateFiles config;
     guc_TemplateFileProvenances := guc_TemplateFileProvenances config;
     guc_AlertmanagerConfig := c;
     guc_ExtraConfigs := guc_ExtraConfigs config |}.

(** The loop of [mergeProvenance] over the contact points of every receiver. *)
Definition merge_contactPoints (cpProvs : gmap string Provenance)
    (Receivers : list GettableApiReceiver) : list GettableApiReceiver :=
  (λ receiver,
     {| gar_Name := gar_Name receiver;
        gar_GrafanaManagedReceivers :=
          (λ contactPoint,
             match cpProvs !! ggr_UID contactPoint with
             | Some provenance => ggr_set_Provenance provenance contactPoint
             | None => contactPoint
             end) <$> gar_GrafanaManagedReceivers receiver |}) <$> Receivers.

Definition mergeProvenance (config : GettableUserConfig) (org : Z)
    : M W (result GettableUserConfig) :=
  routed ←
    match cfg_Route (gaac_Config (guc_AlertmanagerConfig config)) with
    | Some route =>
        provenance ← reading (CallGetProvenance org (Route_Provisionable route))
                       (GetProvenance (Route_Provisionable route) org);
        match provenance with
        | Err err => mret (Err err)
        | Ok provenance => mret (Ok (guc_set_Route (route_set_Provenance provenance route) config))
        end
    | None => mret (Ok config)
    end;
  match routed with
  | Err err => mret (Err err)
  | Ok config =>
      cpProvs ← call_GetProvenances org EmbeddedContactPoint_ResourceType;
      match cpProvs with
      | Err err => mret (Err err)
      | Ok cpProvs =>
          let config :=
            guc_set_Receivers
              (merge_contactPoints cpProvs (gaac_Receivers (guc_AlertmanagerConfig config)))
              config in
          tmplProvs ← call_GetProvenances org NotificationTemplate_ResourceType;
          match tmplProvs with
          | Err _ => mret (Ok GettableUserConfig_zero)
          | Ok tmplProvs =>
              let config := guc_set_TemplateFileProvenances tmplProvs config in
              mtProvs ← call_GetProvenances org MuteTimeInterval_ResourceType;
              match mtProvs with
              | Err _ => mret (Ok GettableUserConfig_zero)
              | Ok mtProvs => mret (Ok (guc_set_MuteTimeProvenances mtProvs config))
              end
          end
      end
  end.

(** [for k := range pr.SecureSettings]: the keys whose stored secret
    decrypts to a non-empty value; the first failing decryption ends it. *)
Fixpoint secureFields_of (pr : PostableGrafanaReceiver) (keys : list string)
    (secureFields : gmap string bool) (w : W) : result (gmap string bool) :=
  match keys with
  | [] => Ok secureFields
  | k :: keys' =>
      match getDecryptedSecret pr k w with
      | Err err => Err (fmt_Errorf "failed to decrypt stored secure setting" err)
      | Ok decryptedValue =>
          if bool_decide (decryptedValue = "")
          then secureFields_of pr keys' secureFields w
          else secureFields_of pr keys' (<[k := true]> secureFields) w
      end
  end.

(** [for _, pr := range recv.GrafanaManagedReceivers] *)
Fixpoint gettable_managed (prs : list PostableGrafanaReceiver) (w : W)
    : result (list GettableGrafanaReceiver) :=
  match prs with
  | [] => Ok []
  | pr :: prs' =>
      match secureFields_of pr (map_to_list (pgr_SecureSettings pr)).*1 ∅ w with
      | Err err => Err err
      | Ok secureFields =>
          let gr := {| ggr_UID := pgr_UID pr;
                       ggr_Name := pgr_Name pr;
                       ggr_Type := pgr_Type pr;
                       ggr_DisableResolveMessage := pgr_DisableResolveMessage pr;
                       ggr_Settings := pgr_Settings pr;
                       ggr_SecureFields := secureFields;
                       ggr_Provenance := ProvenanceNone |} in
          match gettable_managed prs' w with
          | Err err => Err err
          | Ok receivers => Ok (gr :: receivers)
          end
      end
  end.

(** [for _, recv := range cfg.AlertmanagerConfig.Receivers] *)
Fixpoint gettable_receivers (recvs : list PostableApiReceiver) (w : W)
    : result (list GettableApiReceiver) :=
  match recvs with
  | [] => Ok []
  | recv :: recvs' =>
      match gettable_managed (par_GrafanaManagedReceivers recv) w with
      | Err err => Err err
      | Ok receivers =>
          match gettable_receivers recvs' w with
          | Err err => Err err
          | Ok rest =>
              Ok ({| gar_Name := par_Name recv; gar_GrafanaManagedReceivers := receivers |} :: rest)
          end
      end
  end.

Definition gettableUserConfigFromAMConfigString (orgID : Z) (config : string)
    : M W (result GettableUserConfig) :=
  match Load config with
  | Err err => mret (Err (fmt_Errorf "failed to unmarshal alertmanager configuration" err))
  | Ok cfg =>
      decrypted ← reading CallCrypto (DecryptExtraConfigs cfg);
      match decrypted with
      | Err err => mret (Err (fmt_Errorf "failed to decrypt external configurations" err))
      | Ok cfg =>
          let result :=
            {| guc_TemplateFiles := puc_TemplateFiles cfg;
               guc_TemplateFileProvenances := ∅;
               guc_AlertmanagerConfig :=
                 {| gaac_Config := paac_Config (puc_AlertmanagerConfig cfg);
                    gaac_MuteTimeProvenances := ∅;
                    gaac_Receivers := [] |};
               guc_ExtraConfigs := puc_ExtraConfigs cfg |} in
          encrypted ← reading CallCrypto
            (λ w, EncryptReceiverConfigSettings (paac_Receivers (puc_AlertmanagerConfig cfg))
                    (λ payload, Encrypt payload w));
          match encrypted with
          | Err err => mret (Err (fmt_Errorf "failed to encrypt receivers" err))
          | Ok Receivers =>
              converted ← reading CallCrypto (gettable_receivers Receivers);
              match converted with
              | Err err => mret (Err err)
              | Ok Receivers => mergeProvenance (guc_set_Receivers Receivers result) orgID
              end
          end
      end
  end.

Definition GetAlertmanagerConfiguration (org : Z) (withAutogen : bool)
    : M W (result GettableUserConfig) :=
  amConfig ← call_GetLatestAlertmanagerConfiguration org;
  match amConfig with
  | Err err => mret (Err (fmt_Errorf "failed to get latest configuration" err))
  | Ok amConfig =>
      cfg ← gettableUserConfigFromAMConfigString org (ac_AlertmanagerConfiguration amConfig);
      match cfg with
      | Err err => mret (Err err)
      | Ok cfg =>
          if withAutogen then
            autogen ← reading (CallAddAutogenConfig org)
                        (AddAutogenConfig org (guc_AlertmanagerConfig cfg));
            match autogen with
            | Err err => mret (Err err)
            | Ok AlertmanagerConfig => mret (Ok (guc_set_AlertmanagerConfig AlertmanagerConfig cfg))
            end
          else mret (Ok cfg)
      end
  end.

End Orchestrator.
End notifier.

(** ** Package [legacy_storage]: what the policy service uses of it *)

Module legacy_storage.

(** Modelled from the spec: the constant [UserDefinedRoutingTreeName], the
    well-known "user-defined" name of the default routing tree. *)
Definition UserDefinedRoutingTreeName : string := "user-defined".

Record ManagedRoute : Type := {
  mr_Name : string;
  mr_Version : string;
  mr_Route : Route;
  mr_Provenance : Provenance
}.

Definition mr_set_Provenance (p : Provenance) (r : ManagedRoute) : ManagedRoute :=
  {| mr_Name := mr_Name r; mr_Version := mr_Version r; mr_Route := mr_Route r;
     mr_Provenance := p |}.

(** The methods of a [ConfigRevision] and the functions of the package that
    the policy service calls.  [UpdateNamedRoute] and [DeleteManagedRoute]
    change the revision in place: they return the revision they leave. *)
Class ConfigRevisions (Rev : Type) : Type := {
  GetManagedRoute : string → Rev → option ManagedRoute;
  UpdateNamedRoute : string → Route → Rev → result ManagedRoute * Rev;
  DeleteManagedRoute : string → Rev → Rev;
  GetMergedAlertmanagerConfig : Rev → option error;
  DeserializeAlertmanagerConfig : string → result PostableUserConfig;
  ManagedRoute_Provisionable : ManagedRoute → Provisionable
}.

End legacy_storage.

(** ** Package [provisioning]: the notification policy service *)

Module provisioning.

(** [alertmanagerConfigStore] *)
Class alertmanagerConfigStore (W Rev : Type) : Type := {
  Get : Z → W → result Rev;
  Save : Rev → Z → W → option error * W
}.

(** [TransactionManager] *)
Class TransactionManager (W : Type) : Type := {
  InTransaction : M W (option error) → M W (option error)
}.

(** The fields [settings] and [validator] of the service, and the
    [Validate] method of a route. *)
Class PolicySettings : Type := {
  DefaultConfiguration : string;
  validator : Provenance → Provenance → option error;
  Route_Validate : Route → option error
}.

Section NotificationPolicyService.
Context {W Rev : Type}.
Context `{!legacy_storage.ConfigRevisions Rev, !alertmanagerConfigStore W Rev,
          !ProvisioningStore W, !TransactionManager W, !PolicySettings}.

Definition configStore_Get (orgID : Z) : M W (result Rev) :=
  reading (CallConfigStoreGet orgID) (Get orgID).

Definition configStore_Save (revision : Rev) (orgID : Z) : M W (option error) :=
  λ s, let '(err, w) := Save revision orgID (world s) in
       (err, log (CallConfigStoreSave orgID) (set_world w s)).

Definition provenanceStore_GetProvenance (o : Provisionable) (orgID : Z)
    : M W (result Provenance) :=
  reading (CallGetProvenance orgID o) (GetProvenance o orgID).

Definition provenanceStore_SetProvenance (o : Provisionable) (orgID : Z) (p : Provenance)
    : M W (option error) :=
  λ s, let '(err, w) := SetProvenance o orgID p (world s) in
       (err, log (CallSetProvenance orgID o p) (set_world w s)).

Definition provenanceStore_DeleteProvenance (o : Provisionable) (orgID : Z)
    : M W (option error) :=
  λ s, let '(err, w) := DeleteProvenance o orgID (world s) in
       (err, log (CallDeleteProvenance orgID o) (set_world w s)).

(** [if name == "" { name = legacy_storage.UserDefinedRoutingTreeName }] *)
Definition default_name (name : string) : string :=
  if bool_decide (name = "") then legacy_storage.UserDefinedRoutingTreeName else name.

Definition GetManagedRoute (orgID : Z) (name : string)
    : M W (result legacy_storage.ManagedRoute) :=
  let name := default_name name in
  rev ← configStore_Get orgID;
  match rev with
  | Err err => mret (Err err)
  | Ok rev =>
      match legacy_storage.GetManagedRoute name rev with
      | None => mret (Err (ErrRouteNotFound "route %q not found" [name]))
      | Some route =>
          provenance ← provenanceStore_GetProvenance
                         (legacy_storage.ManagedRoute_Provisionable route) orgID;
          match provenance with
          | Err err => mret (Err err)
          | Ok provenance => mret (Ok (legacy_storage.mr_set_Provenance provenance route))
          end
      end
  end.

Definition checkOptimisticConcurrency (current : legacy_storage.ManagedRoute)
    (provenance : Provenance) (desiredVersion : string) (action : string)
    : M W (option error) :=
  if bool_decide (desiredVersion = "") then
    if bool_decide (provenance ≠ ProvenanceFile) then
      λ s, (None, log (LogDebug "ignoring optimistic concurrency check because version was not provided") s)
    else mret None
  else if bool_decide (legacy_storage.mr_Version current ≠ desiredVersion) then
    mret (Some (ErrVersionConflict
                  "provided version %s of routing tree does not match current version %s"
                  [desiredVersion; legacy_storage.mr_Version current]))
  else mret None.

Definition DeleteManagedRoute (orgID : Z) (name : string) (p : Provenance) (version : string)
    : M W (option error) :=
  let name := default_name name in
  revision ← configStore_Get orgID;
  match revision with
  | Err err => mret (Some err)
  | Ok revision =>
      match legacy_storage.GetManagedRoute name revision with
      | None => mret (Some (ErrRouteNotFound "" []))
      | Some existing =>
          err ← checkOptimisticConcurrency existing p version "delete";
          match err with
          | Some err => mret (Some err)
          | None =>
              storedProvenance ← provenanceStore_GetProvenance
                                   (legacy_storage.ManagedRoute_Provisionable existing) orgID;
              match storedProvenance with
              | Err err => mret (Some err)
              | Ok storedProvenance =>
                  match validator storedProvenance p with
                  | Some err => mret (Some err)
                  | None =>
                      changed ←
                        (if bool_decide (name = legacy_storage.UserDefinedRoutingTreeName) then
                           match legacy_storage.DeserializeAlertmanagerConfig DefaultConfiguration with
                           | Err err =>
                               λ s, (Err (fmt_Errorf "failed to parse default alertmanager config" err),
                                     log (LogError "Failed to parse default alertmanager config: %w" (Some err)) s)
                           | Ok defaultCfg =>
                               match cfg_Route (paac_Config (puc_AlertmanagerConfig defaultCfg)) with
                               | None => mret (Err (Panic "invalid memory address or nil pointer dereference"))
                               | Some Route =>
                                   match legacy_storage.UpdateNamedRoute
                                           legacy_storage.UserDefinedRoutingTreeName Route revision with
                                   | (Err err, _) => mret (Err err)
                                   | (Ok _, revision) => mret (Ok revision)
                                   end
                               end
                           end
                         else mret (Ok (legacy_storage.DeleteManagedRoute name revision)));
                      match changed with
                      | Err err => mret (Some err)
                      | Ok revision =>
                          match legacy_storage.GetMergedAlertmanagerConfig revision with
                          | Some err =>
                              mret (Some (fmt_Errorf "new routing tree is not compatible with extra configuration" err))
                          | None =>
                              InTransaction
                                (err ← configStore_Save revision orgID;
                                 match err with
                                 | Some err => mret (Some err)
                                 | None =>
                                     provenanceStore_DeleteProvenance
                                       (legacy_storage.ManagedRoute_Provisionable existing) orgID
                                 end)
                          end
                      end
                  end
              end
          end
      end
  end.

Definition UpdateManagedRoute (orgID : Z) (name : string) (subtree : Route) (p : Provenance)
    (version : string) : M W (result legacy_storage.ManagedRoute) :=
  let name := default_name name in
  match Route_Validate subtree with
  | Some err => mret (Err (ErrRouteInvalidFormat err))
  | None =>
      revision ← configStore_Get orgID;
      match revision with
      | Err err => mret (Err err)
      | Ok revision =>
          match legacy_storage.GetManagedRoute name revision with
          | None => mret (Err (Errorf "failed to get existing named route %q: %w" [name]))
          | Some existing =>
              err ← checkOptimisticConcurrency existing p version "update";
              match err with
              | Some err => mret (Err err)
              | None =>
                  storedProvenance ← provenanceStore_GetProvenance
                                       (legacy_storage.ManagedRoute_Provisionable existing) orgID;
                  match storedProvenance with
                  | Err err => mret (Err err)
                  | Ok storedProvenance =>
                      match validator storedProvenance p with
                      | Some err => mret (Err err)
                      | None =>
                          match legacy_storage.UpdateNamedRoute name subtree revision with
                          | (Err err, _) => mret (Err err)
                          | (Ok updated, revision) =>
                              let updated := legacy_storage.mr_set_Provenance storedProvenance updated in
                              match legacy_storage.GetMergedAlertmanagerConfig revision with
                              | Some err =>
                                  mret (Err (fmt_Errorf "new routing tree is not compatible with extra configuration" err))
                              | None =>
                                  err ← InTransaction
                                    (err ← configStore_Save revision orgID;
                                     match err with
                                     | Some err => mret (Some err)
                                     | None =>
                                         provenanceStore_SetProvenance
                                           (legacy_storage.ManagedRoute_Provisionable updated) orgID p
                                     end);
                                  match err with
                                  | Some err => mret (Err err)
                                  | None => mret (Ok updated)
                                  end
                              end
                          end
                      end
                  end
              end
          end
      end
  end.

End NotificationPolicyService.
End provisioning.

(** ** The stores behind the policy service *)

Module store_model.

(** What the model leaves open: how a version token is derived from a
    routing tree, and when a set of routing trees fails to merge with the
    extra configuration. *)
Class Parameters : Type := {
  route_version : Route → string;
  merge_error : gmap string Route → option error;
  deserialize : string → result PostableUserConfig
}.

Section Model.
Context `{!Parameters}.

(** Modelled from the spec: a [ConfigRevision] of [legacy_storage], of which
    only callers are in the sources, as the finite map from the names of the
    routing trees to the trees. *)
Definition ConfigRevision : Type := gmap string Route.

Definition managed (name : string) (r : Route) : legacy_storage.ManagedRoute :=
  {| legacy_storage.mr_Name := name;
     legacy_storage.mr_Version := route_version r;
     legacy_storage.mr_Route := r;
     legacy_storage.mr_Provenance := ProvenanceNone |}.

(** Modelled from the spec: [ConfigRevision.GetManagedRoute], the named
    routing subtree with its version token, absent when no tree has the name. *)
Definition GetManagedRoute (name : string) (rev : gmap string Route)
    : option legacy_storage.ManagedRoute :=
  managed name <$> rev !! name.

(** Modelled from the spec: [ConfigRevision.UpdateNamedRoute], which sets the
    named tree to the given subtree. *)
Definition UpdateNamedRoute (name : string) (subtree : Route) (rev : gmap string Route)
    : result legacy_storage.ManagedRoute * gmap string Route :=
  (Ok (managed name subtree), <[name := subtree]> rev).

(** Modelled from the spec: [ConfigRevision.DeleteManagedRoute], which
    removes the named tree outright. *)
Definition DeleteManagedRoute (name : string) (rev : gmap string Route) : gmap string Route :=
  delete name rev.

#[export] Instance revisions : legacy_storage.ConfigRevisions (gmap string Route) := {
  legacy_storage.GetManagedRoute := GetManagedRoute;
  legacy_storage.UpdateNamedRoute := UpdateNamedRoute;
  legacy_storage.DeleteManagedRoute := DeleteManagedRoute;
  legacy_storage.GetMergedAlertmanagerConfig := merge_error;
  legacy_storage.DeserializeAlertmanagerConfig := deserialize;
  legacy_storage.ManagedRoute_Provisionable :=
    λ r, {| ResourceType := "route"; ResourceID := legacy_storage.mr_Name r |}
}.

(** Modelled from the spec: the configuration store, which keeps the latest
    revision of every organisation, and the provenance store, which keeps a
    tag per organisation, resource type and resource id, [none] when the
    resource is untracked. *)
Record World : Type := {
  revisions_of : gmap Z (gmap string Route);
  provenances_of : gmap (Z * string) (gmap string Provenance)
}.

Definition provenances (org : Z) (resourceType : string) (w : World) : gmap string Provenance :=
  default ∅ (provenances_of w !! (org, resourceType)).

Definition set_provenances (org : Z) (resourceType : string) (ps : gmap string Provenance)
    (w : World) : World :=
  {| revisions_of := revisions_of w;
     provenances_of := <[(org, resourceType) := ps]> (provenances_of w) |}.

#[export] Instance configStore : provisioning.alertmanagerConfigStore World (gmap string Route) := {
  provisioning.Get := λ org w,
    match revisions_of w !! org with
    | Some rev => Ok rev
    | None => Err ErrNoAlertmanagerConfiguration
    end;
  provisioning.Save := λ rev org w,
    (None, {| revisions_of := <[org := rev]> (revisions_of w);
              provenances_of := provenances_of w |})
}.

#[export] Instance provenanceStore : ProvisioningStore World := {
  GetProvenance := λ o org w,
    Ok (default ProvenanceNone (provenances org (ResourceType o) w !! ResourceID o));
  GetProvenances := λ org resourceType w, Ok (provenances org resourceType w);
  SetProvenance := λ o org p w,
    (None, set_provenances org (ResourceType o)
             (<[ResourceID o := p]> (provenances org (ResourceType o) w)) w);
  DeleteProvenance := λ o org w,
    (None, set_provenances org (ResourceType o)
             (delete (ResourceID o) (provenances org (ResourceType o) w)) w)
}.

(** Modelled from the spec: the transaction manager; the writes of a body
    that fails are not kept, the calls it made stay in the log. *)
#[export] Instance xact : provisioning.TransactionManager World := {
  provisioning.InTransaction := λ body s,
    let '(err, s') := body s in
    match err with
    | None => (None, s')
    | Some _ => (err, set_world (world s) s')
    end
}.

End Model.
End store_model.

(** ** Package [notifier]: the other methods of the orchestrator *)

(** [definitions.GettableHistoricUserConfig]; [LastApplied] points to the
    instant [time.Unix(config.LastApplied, 0).UTC()], kept here as its
    seconds since the epoch. *)
Record GettableHistoricUserConfig : Type := {
  ghuc_ID : Z;
  ghuc_TemplateFiles : gmap string string;
  ghuc_TemplateFileProvenances : gmap string Provenance;
  ghuc_AlertmanagerConfig : GettableApiAlertingConfig;
  ghuc_LastApplied : option Z
}.

(** The two other methods of [moa.configStore] that the file calls; the
    [limit] of the second is an [int]. *)
Class ConfigurationHistory (W : Type) : Type := {
  GetHistoricalConfiguration : Z → Z → W → result AlertConfiguration;
  GetAppliedConfigurations : Z → Z → W → result (list AlertConfiguration)
}.

Module MultiOrgAlertmanager.
Section Methods.
Context {W : Type}.
Context `{!External, !ConfigurationStore W, !ProvisioningStore W, !Crypto W,
          !ReceiverPermissions W, !Alertmanagers W, !ConfigurationHistory W}.

(** The call log has no entry for the two reads below and keeps no
    warning. *)
Definition call_GetHistoricalConfiguration (orgId id : Z) : M W (result AlertConfiguration) :=
  λ s, (GetHistoricalConfiguration orgId id (world s), s).

Definition call_GetAppliedConfigurations (org limit : Z) : M W (result (list AlertConfiguration)) :=
  λ s, (GetAppliedConfigurations org limit (world s), s).

Definition logger_Warn (msg : string) : M W unit := mret tt.

Definition ActivateHistoricalConfiguration (orgId id : Z) : M W (option error) :=
  config ← call_GetHistoricalConfiguration orgId id;
  match config with
  | Err err =>
      mret (Some (fmt_Errorf "failed to get historical alertmanager configuration" err))
  | Ok config =>
      match Load (ac_AlertmanagerConfiguration config) with
      | Err err =>
          mret (Some (fmt_Errorf "failed to unmarshal historical alertmanager configuration" err))
      | Ok cfg =>
          found ← reading (CallAlertmanagerFor orgId) (AlertmanagerFor orgId);
          match found with
          | AlertmanagerMissing err => mret (Some err)
          | AlertmanagerReady am | AlertmanagerNotReady am =>
              previous ← notifier.call_GetLatestAlertmanagerConfiguration orgId;
              err ← notifier.call_SaveAndApplyConfig am cfg;
              match err with
              | Some err =>
                  _ ← notifier.logger_Error
                        "Unable to save and apply historical alertmanager configuration"
                        (Some err);
                  mret (Some (AlertmanagerConfigRejectedError err))
              | None =>
                  _ ← notifier.logger_Info "Applied historical alertmanager configuration";
                  cleanPermissionsErr ←
                    match previous with
                    | Err cleanPermissionsErr => mret (Some cleanPermissionsErr)
                    | Ok previousConfig =>
                        match notifier.extractReceiverNames
                                (ac_AlertmanagerConfiguration config) with
                        | Err err => mret (Some err)
                        | Ok newReceiverNames =>
                            notifier.cleanPermissions orgId previousConfig newReceiverNames
                        end
                    end;
                  notifier.report_cleanPermissions cleanPermissionsErr
              end
          end
      end
  end.

(** The body of the loop of [GetAppliedAlertmanagerConfigurations]: a record
    that does not convert is skipped with a warning. *)
Definition applied_configuration (org : Z) (gettableHistoricConfigs : list GettableHistoricUserConfig)
    (config : AlertConfiguration) : M W (list GettableHistoricUserConfig) :=
  let appliedAt := ac_LastApplied config in
  gettableConfig ← notifier.gettableUserConfigFromAMConfigString org
                     (ac_AlertmanagerConfiguration config);
  match gettableConfig with
  | Err _ =>
      _ ← logger_Warn "Invalid configuration found in alert configuration history table";
      mret gettableHistoricConfigs
  | Ok gettableConfig =>
      mret (gettableHistoricConfigs ++
              [{| ghuc_ID := ac_ID config;
                  ghuc_TemplateFiles := guc_TemplateFiles gettableConfig;
                  ghuc_TemplateFileProvenances := guc_TemplateFileProvenances gettableConfig;
                  ghuc_AlertmanagerConfig := guc_AlertmanagerConfig gettableConfig;
                  ghuc_LastApplied := Some appliedAt |}])
  end.

Definition GetAppliedAlertmanagerConfigurations (org limit : Z)
    : M W (result (list GettableHistoricUserConfig)) :=
  configs ← call_GetAppliedConfigurations org limit;
  match configs with
  | Err err => mret (Err (fmt_Errorf "failed to get applied configurations" err))
  | Ok configs =>
      gettableHistoricConfigs ← for_range configs (applied_configuration org) [];
      mret (Ok gettableHistoricConfigs)
  end.

End Methods.
End MultiOrgAlertmanager.

(** ** Package [provisioning]: the other methods of the policy service *)

Module revision.

(** The other methods of a [ConfigRevision], of a [ManagedRoute] and of
    [ManagedRoutes] that the policy service calls.  [CreateManagedRoute]
    changes the revision in place and returns the revision it leaves;
    [Sort] reorders the routes it is given. *)
Class ManagedRoutes (Rev : Type) : Type := {
  CreateManagedRoute : string → Route → Rev → result legacy_storage.ManagedRoute * Rev;
  GetManagedRoutes : Rev → list legacy_storage.ManagedRoute;
  Sort : list legacy_storage.ManagedRoute → list legacy_storage.ManagedRoute;
  Sort_Permutation : ∀ routes, Sort routes ≡ₚ routes;
  AsAMRoute : legacy_storage.ManagedRoute → Route
}.

(** [legacy_storage.ManagedRoute{}] *)
Definition ManagedRoute_zero : legacy_storage.ManagedRoute :=
  {| legacy_storage.mr_Name := "";
     legacy_storage.mr_Version := "";
     legacy_storage.mr_Route := {| route_Receiver := ""; route_Spec := ""; route_Provenance := "" |};
     legacy_storage.mr_Provenance := "" |}.

End revision.

Module NotificationPolicyService.
Section Methods.
Context {W Rev : Type}.
Context `{!legacy_storage.ConfigRevisions Rev, !revision.ManagedRoutes Rev,
          !provisioning.alertmanagerConfigStore W Rev, !ProvisioningStore W,
          !provisioning.TransactionManager W, !provisioning.PolicySettings}.

Definition provenanceStore_GetProvenances (orgID : Z) (resourceType : string)
    : M W (result (gmap string Provenance)) :=
  reading (CallGetProvenances orgID resourceType) (GetProvenances orgID resourceType).

(** The loop of [GetManagedRoutes] over the routes of the revision. *)
Definition with_provenance (provenances : gmap string Provenance)
    (mr : legacy_storage.ManagedRoute) : legacy_storage.ManagedRoute :=
  let provenance :=
    match provenances !! ResourceID (legacy_storage.ManagedRoute_Provisionable mr) with
    | Some provenance => provenance
    | None => ProvenanceNone
    end in
  legacy_storage.mr_set_Provenance provenance mr.

Definition GetManagedRoutes (orgID : Z) : M W (result (list legacy_storage.ManagedRoute)) :=
  rev ← provisioning.configStore_Get orgID;
  match rev with
  | Err err => mret (Err err)
  | Ok rev =>
      provenances ← provenanceStore_GetProvenances orgID
                      (ResourceType (legacy_storage.ManagedRoute_Provisionable
                                       revision.ManagedRoute_zero));
      match provenances with
      | Err err => mret (Err err)
      | Ok provenances =>
          let managedRoutes := with_provenance provenances <$> revision.GetManagedRoutes rev in
          mret (Ok (revision.Sort managedRoutes))
      end
  end.

Definition CreateManagedRoute (orgID : Z) (name : string) (subtree : Route) (p : Provenance)
    : M W (result legacy_storage.ManagedRoute) :=
  match provisioning.Route_Validate subtree with
  | Some err => mret (Err (ErrRouteInvalidFormat err))
  | None =>
      revision ← provisioning.configStore_Get orgID;
      match revision with
      | Err err => mret (Err err)
      | Ok revision =>
          match revision.CreateManagedRoute name subtree revision with
          | (Err err, _) => mret (Err err)
          | (Ok created, revision) =>
              match legacy_storage.GetMergedAlertmanagerConfig revision with
              | Some err =>
                  mret (Err (fmt_Errorf "new routing tree is not compatible with extra configuration" err))
              | None =>
                  err ← provisioning.InTransaction
                    (err ← provisioning.configStore_Save revision orgID;
                     match err with
                     | Some err => mret (Some err)
                     | None =>
                         provisioning.provenanceStore_SetProvenance
                           (legacy_storage.ManagedRoute_Provisionable created) orgID p
                     end);
                  match err with
                  | Some err => mret (Err err)
                  | None => mret (Ok created)
                  end
              end
          end
      end
  end.

Definition GetPolicyTree (orgID : Z) : M W (result (Route * string)) :=
  r ← provisioning.GetManagedRoute orgID legacy_storage.UserDefinedRoutingTreeName;
  match r with
  | Err err => mret (Err err)
  | Ok r => mret (Ok (revision.AsAMRoute r, legacy_storage.mr_Version r))
  end.

Definition UpdatePolicyTree (orgID : Z) (tree : Route) (p : Provenance) (version : string)
    : M W (result (Route * string)) :=
  r ← provisioning.UpdateManagedRoute orgID legacy_storage.UserDefinedRoutingTreeName
        tree p version;
  match r with
  | Err err => mret (Err err)
  | Ok r => mret (Ok (revision.AsAMRoute r, legacy_storage.mr_Version r))
  end.

Definition ResetPolicyTree (orgID : Z) (provenance : Provenance) : M W (result Route) :=
  err ← provisioning.DeleteManagedRoute orgID legacy_storage.UserDefinedRoutingTreeName
          provenance "";
  match err with
  | Some err => mret (Err err)
  | None =>
      match legacy_storage.DeserializeAlertmanagerConfig provisioning.DefaultConfiguration with
      | Err err =>
          λ s, (Err (fmt_Errorf "failed to parse default alertmanager config" err),
                log (LogError "Failed to parse default alertmanager config: %w" (Some err)) s)
      | Ok defaultCfg =>
          match cfg_Route (paac_Config (puc_AlertmanagerConfig defaultCfg)) with
          | None => mret (Err (Panic "invalid memory address or nil pointer dereference"))
          | Some route => mret (Ok route)
          end
      end
  end.

End Methods.
End NotificationPolicyService.

(** ** Observations on the call log *)

Definition deletion (c : Call) : option (Z * string) :=
  match c with
  | CallDeleteResourcePermissions org uid _ => Some (org, uid)
  | _ => None
  end.

Definition default_install (c : Call) : option (Z * string) :=
  match c with
  | CallSetDefaultPermissions org uid => Some (org, uid)
  | _ => None
  end.

(** The permission deletions and the default installs of a log, in order. *)
Definition deletions (cs : list Call) : list (Z * string) := omap deletion cs.
Definition default_installs (cs : list Call) : list (Z * string) := omap default_install cs.

Definition is_permission_call (c : Call) : Prop :=
  is_Some (deletion c) ∨ is_Some (default_install c).

(** The call reports that the live Alertmanager took the configuration. *)
Definition applied (c : Call) : bool :=
  match c with
  | CallSaveAndApplyConfig _ accepted => accepted
  | CallSaveAndApplyDefaultConfig accepted => accepted
  | _ => false
  end.

(** The call reports a permission deletion that failed. *)
Definition failed_deletion (c : Call) : bool :=
  match c with
  | CallDeleteResourcePermissions _ _ deleted => negb deleted
  | _ => false
  end.

(** From [s] to [s'] the log only grew, and by no accepted application and
    no failed deletion. *)
Definition quiet_step {W} (s s' : St W) : Prop :=
  ∃ made, calls s' = calls s ++ made ∧
          Forall (λ c, applied c || failed_deletion c = false) made.

(** The log entry of the write paths for a failed clean-up. *)
Definition cleanPermissions_reported (c : Call) : Prop :=
  ∃ err, c = LogError "Failed to clean permissions for receivers" (Some err).

(** How often [x] occurs in [l]. *)
Definition occurrences {A} `{EqDecision A} (x : A) (l : list A) : nat :=
  length (filter (λ y, y = x) l).

(* ================================================================== *)
(** * Properties *)
(* ================================================================== *)

(** ** [extractReceiverNames] *)

Section ExtractReceiverNames.
Context `{!External}.

(** [v] is the value of the only member of [ms] that selects [field]. *)
Definition sole_member (field : string) (ms : list (string * json)) (v : json) : Prop :=
  ∃ pre k post,
    ms = pre ++ (k, v) :: post ∧ notifier.key_matches field k = true ∧
    Forall (λ m, notifier.key_matches field m.1 = false) (pre ++ post).

Definition receiver_named (r : json) (name : string) : Prop :=
  ∃ ms, r = JObject ms ∧ sole_member "name" ms (JString name).

(** The document has an [alertmanager_config] object with a [receivers]
    array of objects that each carry a string [name]; nothing is asked of
    any other member at any level. *)
Definition receiver_names_at (doc : json) (names : list string) : Prop :=
  ∃ top am rs,
    doc = JObject top ∧
    sole_member "alertmanager_config" top (JObject am) ∧
    sole_member "receivers" am (JArray rs) ∧
    Forall2 receiver_named rs names.

Lemma decode_members_skip {A} field
    (dec : json → A * option error → A * option error) ms st :
  Forall (λ m, notifier.key_matches field m.1 = false) ms →
  notifier.decode_members field dec ms st = st.
Proof.
  unfold notifier.decode_members. revert st.
  induction ms as [|m ms IH]; intros st Hall; [done|].
  inversion Hall as [|? ? Hm Hms]; subst. cbn. rewrite Hm. by apply IH.
Qed.

Lemma decode_members_sole {A} field
    (dec : json → A * option error → A * option error) ms v st :
  sole_member field ms v →
  notifier.decode_members field dec ms st = dec v st.
Proof.
  intros (pre & k & post & -> & Hk & Hrest).
  apply Forall_app in Hrest as [Hpre Hpost].
  unfold notifier.decode_members. rewrite foldl_app. cbn. rewrite Hk.
  fold (notifier.decode_members field dec pre st).
  rewrite (decode_members_skip _ _ pre st Hpre).
  fold (notifier.decode_members field dec post (dec v st)).
  by apply decode_members_skip.
Qed.

Lemma decode_items_named path i rs names old :
  Forall2 receiver_named rs names →
  notifier.decode_items path i rs old None = (names, None).
Proof.
  intros Hnamed. revert i old.
  induction Hnamed as [|r n rs names (ms & -> & Hsole) _ IH]; intros i old; [done|].
  cbn. rewrite (decode_members_sole _ _ _ _ _ Hsole). cbn.
  by rewrite IH.
Qed.

Lemma foldl_insert_names {A} (f : A → string) (l : list A) (acc : gset string) :
  foldl (λ (s : gset string) x, {[f x]} ∪ s) acc l = list_to_set (f <$> l) ∪ acc.
Proof.
  revert acc. induction l as [|x l IH]; intros acc; cbn.
  - set_solver.
  - rewrite IH. set_solver.
Qed.

(** C3. A raw document that is one JSON value and whose
    [alertmanager_config.receivers[].name] entries are well-formed yields the
    set of those names and no error, whatever the other members of the
    document, of [alertmanager_config] and of each receiver hold. *)
Theorem extractReceiverNames_resilient (rawConfig : string) (doc : json) (names : list string) :
  json_parse rawConfig = Some doc →
  receiver_names_at doc names →
  notifier.extractReceiverNames rawConfig = Ok (list_to_set names).
Proof.
  intros Hparse (top & am & rs & -> & Htop & Ham & Hrs).
  unfold notifier.extractReceiverNames, notifier.json_Unmarshal.
  rewrite Hparse. cbn.
  rewrite (decode_members_sole _ _ _ _ _ Htop). cbn.
  rewrite (decode_members_sole _ _ _ _ _ Ham). cbn.
  rewrite (decode_items_named _ _ _ _ _ Hrs). cbn.
  f_equal. rewrite (foldl_insert_names id). rewrite list_fmap_id. set_solver.
Qed.

End ExtractReceiverNames.

(** ** [cleanPermissions] *)

Section CleanPermissions.
Context {W : Type} `{!External, !ReceiverPermissions W}.

Lemma calls_since_app (s s' : St W) (made : list Call) :
  calls s' = calls s ++ made → calls_since s s' = made.
Proof. intros Heq. unfold calls_since. rewrite Heq. by rewrite drop_app_length. Qed.

Lemma delete_loop_calls (orgID : Z) (l : list string) (errs : list error) (s : St W) :
  ∃ made,
    calls (for_range l (notifier.delete_permissions orgID) errs s).2 = calls s ++ made ∧
    deletions made = (λ n, (orgID, NameToUid n)) <$> l ∧
    default_installs made = [] ∧
    Forall is_permission_call made.
Proof.
  revert errs s. induction l as [|n l IH]; intros errs s.
  - exists []. cbn. by rewrite app_nil_r.
  - cbn. unfold mbind, M_bind at 1.
    unfold notifier.delete_permissions at 1. unfold mbind, M_bind at 1.
    unfold notifier.call_DeleteResourcePermissions at 1.
    destruct (DeleteResourcePermissions orgID (NameToUid n) (world s)) as [err w] eqn:Hdel.
    set (s1 := log _ (set_world w s)).
    assert (Hs1 : calls s1 = calls s ++ [CallDeleteResourcePermissions orgID (NameToUid n)
                                           (bool_decide (err = None))]) by done.
    destruct err as [err|]; cbn.
    + destruct (IH (errs ++ [fmt_Errorf ("failed to delete permissions for receiver " +:+ n) err]) s1)
        as (made & Hcalls & Hdels & Hdefs & Hperm).
      exists (CallDeleteResourcePermissions orgID (NameToUid n) false :: made).
      rewrite Hcalls, Hs1. rewrite <- app_assoc.
      unfold deletions, default_installs in *. cbn.
      repeat split; [by f_equal|done|].
      constructor; [left; by eexists|done].
    + destruct (IH errs s1) as (made & Hcalls & Hdels & Hdefs & Hperm).
      exists (CallDeleteResourcePermissions orgID (NameToUid n) true :: made).
      rewrite Hcalls, Hs1. rewrite <- app_assoc.
      unfold deletions, default_installs in *. cbn.
      repeat split; [by f_equal|done|].
      constructor; [left; by eexists|done].
Qed.

Lemma install_loop_calls (orgID : Z) (l : list string) (s : St W) :
  ∃ made,
    calls (for_range l (notifier.install_permissions orgID) tt s).2 = calls s ++ made ∧
    deletions made = [] ∧
    default_installs made = (λ n, (orgID, NameToUid n)) <$> l ∧
    Forall is_permission_call made.
Proof.
  revert s. induction l as [|n l IH]; intros s.
  - exists []. cbn. by rewrite app_nil_r.
  - cbn. unfold mbind, M_bind at 1.
    unfold notifier.install_permissions at 1, notifier.call_SetDefaultPermissions at 1.
    set (s1 := log _ (set_world _ s)).
    assert (Hs1 : calls s1 = calls s ++ [CallSetDefaultPermissions orgID (NameToUid n)]) by done.
    destruct (IH s1) as (made & Hcalls & Hdels & Hdefs & Hperm).
    exists (CallSetDefaultPermissions orgID (NameToUid n) :: made).
    rewrite Hcalls, Hs1. rewrite <- app_assoc.
    unfold deletions, default_installs in *. cbn.
    repeat split; [done|by f_equal|].
    constructor; [right; by eexists|done].
Qed.

Lemma occurrences_fmap_NoDup {A B} `{EqDecision A, EqDecision B} (f : A → B) (l : list A) (x : A) :
  Inj (=) (=) f → NoDup l →
  occurrences (f x) (f <$> l) = length (filter (λ y, y = x) l).
Proof.
  intros Hinj Hnd. unfold occurrences.
  induction l as [|a l IH]; [done|].
  inversion Hnd as [|? ? Hnotin Hnd']; subst.
  rewrite fmap_cons, !filter_cons. destruct (decide (f a = f x)) as [Heq|Hne].
  - apply Hinj in Heq. subst a. rewrite decide_True by done. cbn. by rewrite IH.
  - rewrite decide_False by (intros ->; done). by apply IH.
Qed.

Lemma occurrences_NoDup {A} `{EqDecision A} (l : list A) (x : A) :
  NoDup l → length (filter (λ y, y = x) l) = if bool_decide (x ∈ l) then 1%nat else 0%nat.
Proof.
  intros Hnd. induction l as [|a l IH]; [done|].
  inversion Hnd as [|? ? Hnotin Hnd']; subst.
  rewrite filter_cons. destruct (decide (a = x)) as [->|Hne].
  - cbn. rewrite IH by done. rewrite bool_decide_eq_false_2 by done.
    by rewrite bool_decide_eq_true_2 by set_solver.
  - rewrite IH by done.
    rewrite (bool_decide_ext (x ∈ a :: l) (x ∈ l)); [done|set_solver].
Qed.

Lemma occurrences_elements (f : string → Z * string) (X : gset string) (made : list (Z * string))
    (n : string) :
  Inj (=) (=) f →
  made ≡ₚ f <$> elements X →
  occurrences (f n) made = if bool_decide (n ∈ X) then 1%nat else 0%nat.
Proof.
  intros Hinj Hperm. unfold occurrences. rewrite Hperm.
  fold (occurrences (f n) (f <$> elements X)).
  rewrite occurrences_fmap_NoDup by (done || apply NoDup_elements).
  rewrite occurrences_NoDup by apply NoDup_elements.
  by rewrite (bool_decide_ext (n ∈ elements X) (n ∈ X)) by apply elem_of_elements.
Qed.

(** C1. When the previous configuration yields the name set
    [previousReceiverNames], the permission calls of [cleanPermissions] are,
    up to their order, one deletion for each name of the previous set that
    is not in the new set and one default install for each name of the new
    set that is not in the previous set, and it makes no other call; so, a
    receiver name standing for one resource uid, each name sees exactly one
    deletion if it was removed, exactly one install if it was added, and
    nothing if it is in both sets or in neither. *)
Theorem cleanPermissions_reconciles (orgID : Z) (previousConfig : AlertConfiguration)
    (previousReceiverNames newReceiverNames : gset string) (s : St W) :
  notifier.extractReceiverNames (ac_AlertmanagerConfiguration previousConfig)
    = Ok previousReceiverNames →
  let made :=
    calls_since s (notifier.cleanPermissions orgID previousConfig newReceiverNames s).2 in
  let uid_of := λ receiverName, (orgID, NameToUid receiverName) in
  deletions made ≡ₚ uid_of <$> elements (previousReceiverNames ∖ newReceiverNames) ∧
  default_installs made ≡ₚ uid_of <$> elements (newReceiverNames ∖ previousReceiverNames) ∧
  Forall is_permission_call made ∧
  (Inj (=) (=) NameToUid → ∀ receiverName,
     occurrences (uid_of receiverName) (deletions made)
       = (if bool_decide (receiverName ∈ previousReceiverNames ∖ newReceiverNames)
          then 1%nat else 0%nat) ∧
     occurrences (uid_of receiverName) (default_installs made)
       = (if bool_decide (receiverName ∈ newReceiverNames ∖ previousReceiverNames)
          then 1%nat else 0%nat)).
Proof.
  intros Hprev made uid_of.
  assert (Hmade : deletions made = uid_of <$> range_set (previousReceiverNames ∖ newReceiverNames) ∧
                  default_installs made = uid_of <$> range_set (newReceiverNames ∖ previousReceiverNames) ∧
                  Forall is_permission_call made).
  { subst made. unfold notifier.cleanPermissions. rewrite Hprev.
    unfold mbind, M_bind.
    destruct (delete_loop_calls orgID (range_set (previousReceiverNames ∖ newReceiverNames)) [] s)
      as (made1 & Hcalls1 & Hdel1 & Hdef1 & Hperm1).
    destruct (for_range (range_set (previousReceiverNames ∖ newReceiverNames)) _ [] s)
      as [errs s1] eqn:Hloop1. cbn in Hcalls1.
    destruct (install_loop_calls orgID (range_set (newReceiverNames ∖ previousReceiverNames)) s1)
      as (made2 & Hcalls2 & Hdel2 & Hdef2 & Hperm2).
    destruct (for_range (range_set (newReceiverNames ∖ previousReceiverNames)) _ tt s1)
      as [u s2] eqn:Hloop2. cbn in Hcalls2. cbn.
    rewrite (calls_since_app s s2 (made1 ++ made2))
      by (by rewrite Hcalls2, Hcalls1, app_assoc).
    unfold deletions, default_installs in *. rewrite !omap_app.
    rewrite Hdel1, Hdel2, Hdef1, Hdef2, app_nil_r. cbn.
    repeat split; [done..|]. by apply Forall_app. }
  destruct Hmade as (Hdel' & Hdef' & Hperm).
  assert (Hdel : deletions made
                   ≡ₚ uid_of <$> elements (previousReceiverNames ∖ newReceiverNames))
    by (rewrite Hdel'; by rewrite range_set_elements).
  assert (Hdef : default_installs made
                   ≡ₚ uid_of <$> elements (newReceiverNames ∖ previousReceiverNames))
    by (rewrite Hdef'; by rewrite range_set_elements).
  split; [done|]. split; [done|]. split; [done|].
  intros Hinj receiverName.
  assert (Hinj' : Inj (=) (=) uid_of).
  { intros a b Hab. unfold uid_of in Hab. apply Hinj. congruence. }
  split; by apply occurrences_elements.
Qed.

Lemma delete_loop_reports (orgID : Z) (l : list string) (errs errs' : list error)
    (s s' : St W) :
  for_range l (notifier.delete_permissions orgID) errs s = (errs', s') →
  ∃ made,
    calls s' = calls s ++ made ∧
    ((∃ c, c ∈ made ∧ failed_deletion c = true) → errs' ≠ []) ∧
    (errs ≠ [] → errs' ≠ []).
Proof.
  revert errs s. induction l as [|n l IH]; intros errs s.
  - intros [= <- <-]. exists []. rewrite app_nil_r. split; [done|]. split; [|done].
    intros (c & Hin & _). by apply elem_of_nil in Hin.
  - cbn. unfold mbind, M_bind at 1.
    unfold notifier.delete_permissions at 1. unfold mbind, M_bind at 1.
    unfold notifier.call_DeleteResourcePermissions at 1.
    destruct (DeleteResourcePermissions orgID (NameToUid n) (world s)) as [err w].
    set (s1 := log _ (set_world w s)).
    assert (Hs1 : calls s1 = calls s ++ [CallDeleteResourcePermissions orgID (NameToUid n)
                                           (bool_decide (err = None))]) by done.
    destruct err as [err|]; cbn; intros Hrun.
    + destruct (IH _ _ Hrun) as (made & Hcalls & _ & Hkeep).
      exists (CallDeleteResourcePermissions orgID (NameToUid n) false :: made).
      rewrite Hcalls, Hs1, <- app_assoc. split; [done|].
      assert (Hne : errs ++ [fmt_Errorf ("failed to delete permissions for receiver " +:+ n) err] ≠ [])
        by (by destruct errs).
      split; intros _; by apply Hkeep.
    + destruct (IH _ _ Hrun) as (made & Hcalls & Hfailed & Hkeep).
      exists (CallDeleteResourcePermissions orgID (NameToUid n) true :: made).
      rewrite Hcalls, Hs1, <- app_assoc. split; [done|]. split; [|done].
      intros (c & Hin & Hc). apply elem_of_cons in Hin as [->|Hin]; [done|].
      apply Hfailed. by exists c.
Qed.

(** A failed deletion makes [cleanPermissions] return an error. *)
Lemma cleanPermissions_reports (orgID : Z) (previousConfig : AlertConfiguration)
    (newReceiverNames : gset string) (s : St W) :
  ∃ made,
    calls (notifier.cleanPermissions orgID previousConfig newReceiverNames s).2
      = calls s ++ made ∧
    ((∃ c, c ∈ made ∧ failed_deletion c = true) →
       (notifier.cleanPermissions orgID previousConfig newReceiverNames s).1 ≠ None).
Proof.
  unfold notifier.cleanPermissions.
  destruct (notifier.extractReceiverNames _) as [previousReceiverNames|err].
  2:{ exists []. cbn. rewrite app_nil_r. split; [done|].
      intros (c & Hin & _). by apply elem_of_nil in Hin. }
  unfold mbind, M_bind.
  destruct (for_range (range_set (previousReceiverNames ∖ newReceiverNames)) _ [] s)
    as [errs s1] eqn:Hloop1.
  destruct (delete_loop_reports _ _ _ _ _ _ Hloop1) as (made1 & Hcalls1 & Hfailed1 & _).
  destruct (install_loop_calls orgID (range_set (newReceiverNames ∖ previousReceiverNames)) s1)
    as (made2 & Hcalls2 & Hdel2 & _ & _).
  destruct (for_range (range_set (newReceiverNames ∖ previousReceiverNames)) _ tt s1)
    as [u s2]. unfold mret, M_ret. cbn [fst snd] in *.
  exists (made1 ++ made2). split; [by rewrite Hcalls2, Hcalls1, app_assoc|].
  intros (c & Hin & Hc). apply elem_of_app in Hin as [Hin|Hin].
  - assert (errs ≠ []) by (apply Hfailed1; by exists c). by destruct errs.
  - exfalso. assert (Hd : is_Some (deletion c)) by (destruct c; try done; by eexists).
    destruct Hd as [d Hd].
    assert (d ∈ deletions made2) as Hin'
      by (unfold deletions; apply list_elem_of_omap; by exists c).
    rewrite Hdel2 in Hin'. by apply elem_of_nil in Hin'.
Qed.

End CleanPermissions.

(** ** [assignReceiverConfigsUIDs] *)

Section AssignUIDs.
Context {W : Type} `{!External}.
Local Open Scope nat_scope.

Definition is_grafana (r : PostableApiReceiver) : bool :=
  match receiver_Type r with
  | GrafanaReceiverType => true
  | _ => false
  end.

(** The Grafana-managed receivers that the call visits, in the order of the
    visit: those of the receivers of the Grafana type. *)
Definition visited (c : list PostableApiReceiver) : list PostableGrafanaReceiver :=
  c ≫= (λ r, if is_grafana r then par_GrafanaManagedReceivers r else []).

(** The same receivers as the call leaves them in [c']. *)
Definition visited_in (c c' : list PostableApiReceiver) : list PostableGrafanaReceiver :=
  zip c c' ≫= (λ rr, if is_grafana rr.1 then par_GrafanaManagedReceivers rr.2 else []).

(** How many receivers of a list have no UID. *)
Definition missing (grs : list PostableGrafanaReceiver) : nat :=
  length (filter (λ gr, pgr_UID gr = "") grs).

(** [gr'] is [gr] but for its UID, and is [gr] when [gr] has a UID. *)
Definition same_but_UID (gr gr' : PostableGrafanaReceiver) : Prop :=
  gr' = pgr_set_UID (pgr_UID gr') gr ∧ (pgr_UID gr ≠ "" → gr' = gr).

Lemma pgr_set_UID_same (gr : PostableGrafanaReceiver) : pgr_set_UID (pgr_UID gr) gr = gr.
Proof. by destruct gr. Qed.

Lemma retry_GenerateShortUID_spec (rounds : nat) (seenUIDs : gset string) (s s' : St W)
    (uid : string) :
  notifier.retry_GenerateShortUID rounds seenUIDs s = (uid, s') →
  world s' = world s ∧
  uid_draws s ≤ uid_draws s' ≤ uid_draws s + rounds ∧
  (uid ≠ "" → (uid ∉ seenUIDs) ∧ ∃ k, uid_draws s ≤ k < uid_draws s' ∧ uid = short_uid k) ∧
  ((∀ k, k < rounds → short_uid (uid_draws s + k) ∈ seenUIDs) → uid = "").
Proof.
  revert s. induction rounds as [|rounds IH]; intros s; cbn.
  - intros [= <- <-]. split; [done|]. split; [lia|]. split; [done|]. done.
  - unfold mbind, M_bind, notifier.GenerateShortUID.
    set (s1 := {| world := world s; uid_draws := S (uid_draws s); calls := _ |}).
    case_bool_decide as Hseen.
    + intros Hrun. destruct (IH s1 Hrun) as (Hw & Hd & Hfresh & Hcollide).
      cbn in Hw, Hd. split; [done|]. split; [lia|]. split.
      * intros Hne. destruct (Hfresh Hne) as (Hnotin & k & Hk & ->).
        split; [done|]. exists k. cbn in Hk. split; [lia|done].
      * intros Hall. apply Hcollide. intros k Hk.
        specialize (Hall (S k) ltac:(lia)). cbn. by rewrite Nat.add_succ_r in Hall.
    + intros [= <- <-]. cbn. split; [done|]. split; [lia|]. split.
      * intros _. split; [done|]. exists (uid_draws s). split; [lia|done].
      * intros Hall. exfalso. apply Hseen.
        specialize (Hall 0). rewrite Nat.add_0_r in Hall. apply Hall. lia.
Qed.

Lemma assign_one_spec (gr gr' : PostableGrafanaReceiver) (seenUIDs seenUIDs' : gset string)
    (s s' : St W) (err : option error) :
  notifier.assign_one gr seenUIDs s = ((err, gr', seenUIDs'), s') →
  world s' = world s ∧
  uid_draws s ≤ uid_draws s' ≤ uid_draws s + 5 * missing [gr] ∧
  same_but_UID gr gr' ∧
  (err = None →
     pgr_UID gr' ≠ "" ∧ seenUIDs' = {[pgr_UID gr']} ∪ seenUIDs ∧
     (pgr_UID gr = "" →
        (pgr_UID gr' ∉ seenUIDs) ∧
        ∃ k, uid_draws s ≤ k < uid_draws s' ∧ pgr_UID gr' = short_uid k)) ∧
  (∀ e, err = Some e →
     e = notifier.errUIDRetriesExhausted ∧ gr' = gr ∧ seenUIDs' = seenUIDs) ∧
  (pgr_UID gr = "" →
   (∀ k, k < 5 → short_uid (uid_draws s + k) ∈ seenUIDs) →
   err = Some notifier.errUIDRetriesExhausted).
Proof.
  unfold notifier.assign_one, missing. rewrite filter_cons, filter_nil.
  case_bool_decide as Hempty.
  - rewrite decide_True by done. unfold mbind, M_bind.
    destruct (notifier.retry_GenerateShortUID 5 seenUIDs s) as [uid s1] eqn:Hretry.
    destruct (retry_GenerateShortUID_spec _ _ _ _ _ Hretry) as (Hw & Hd & Hfresh & Hcollide).
    cbn [pgr_UID pgr_set_UID]. case_bool_decide as Huid.
    + intros [= <- <- <- <-]. subst uid. rewrite <- Hempty, pgr_set_UID_same.
      split; [done|]. split; [cbn; lia|]. split.
      { split; [by rewrite pgr_set_UID_same|done]. }
      split; [done|]. split; [by intros e [= <-]|done].
    + intros [= <- <- <- <-]. cbn [pgr_UID pgr_set_UID].
      split; [done|]. split; [cbn; lia|]. split.
      { split; [done|]. intros Hne. by destruct Hne. }
      split; [|split; [done|]].
      * intros _. split; [done|]. split; [done|]. intros _. by apply Hfresh.
      * intros _ Hall. by destruct Huid; apply Hcollide.
  - rewrite decide_False by done. intros [= <- <- <- <-].
    split; [done|]. split; [cbn; lia|]. split.
    { split; [by rewrite pgr_set_UID_same|done]. }
    split; [|split; [done|]].
    + intros _. split; [done|]. split; [done|]. intros Hne. by destruct Hempty.
    + intros Hne. by destruct Hempty.
Qed.

Lemma missing_cons (gr : PostableGrafanaReceiver) (grs : list PostableGrafanaReceiver) :
  missing (gr :: grs) = missing [gr] + missing grs.
Proof. unfold missing. rewrite !filter_cons, filter_nil. by case_decide. Qed.

Lemma missing_app (l1 l2 : list PostableGrafanaReceiver) :
  missing (l1 ++ l2) = missing l1 + missing l2.
Proof. unfold missing. by rewrite filter_app, length_app. Qed.

(** What a run of the inner loop establishes. *)
Lemma assign_managed_spec (grs grs' : list PostableGrafanaReceiver)
    (seenUIDs seenUIDs' : gset string) (s s' : St W) (err : option error) :
  notifier.assign_managed grs seenUIDs s = ((err, grs', seenUIDs'), s') →
  world s' = world s ∧
  uid_draws s ≤ uid_draws s' ≤ uid_draws s + 5 * missing grs ∧
  Forall2 same_but_UID grs grs' ∧
  (∀ e, err = Some e → e = notifier.errUIDRetriesExhausted) ∧
  (err = None →
     seenUIDs' = list_to_set (pgr_UID <$> grs') ∪ seenUIDs ∧
     ∀ i gr, grs !! i = Some gr → pgr_UID gr = "" →
       ∃ gr' k,
         grs' !! i = Some gr' ∧ pgr_UID gr' ≠ "" ∧
         pgr_UID gr' = short_uid k ∧ uid_draws s ≤ k < uid_draws s' ∧
         (pgr_UID gr' ∉ seenUIDs) ∧ (pgr_UID gr' ∉ take i (pgr_UID <$> grs'))).
Proof.
  revert grs' seenUIDs seenUIDs' s s' err.
  induction grs as [|gr grs IH]; intros grs' seenUIDs seenUIDs' s s' err;
    cbn [notifier.assign_managed].
  - intros [= <- <- <- <-]. split; [done|]. split; [cbn; lia|]. split; [constructor|].
    split; [done|]. intros _. split; [set_solver|]. intros i gr Hi. by rewrite lookup_nil in Hi.
  - unfold mbind, M_bind.
    destruct (notifier.assign_one gr seenUIDs s) as [[[err1 gr1] seen1] s1] eqn:Hone.
    destruct (assign_one_spec _ _ _ _ _ _ _ Hone) as (Hw1 & Hd1 & Hsame1 & Hok1 & Herr1 & _).
    rewrite missing_cons. destruct err1 as [e|].
    + intros [= <- <- <- <-]. destruct (Herr1 e eq_refl) as (-> & -> & ->).
      split; [done|]. split; [lia|]. split.
      { constructor; [done|]. apply Forall2_same_length_lookup. split; [done|].
        intros i x y Hx Hy. assert (x = y) as -> by congruence.
        split; [by rewrite pgr_set_UID_same|done]. }
      split; [by intros e [= <-]|done].
    + destruct (notifier.assign_managed grs seen1 s1) as [[[err2 grs2] seen2] s2] eqn:Hrest.
      intros [= <- <- <- <-].
      destruct (IH _ _ _ _ _ _ Hrest) as (Hw2 & Hd2 & Hsame2 & Herr2 & Hok2).
      destruct (Hok1 eq_refl) as (Hne1 & -> & Hfresh1).
      split; [congruence|]. split; [lia|]. split; [by constructor|]. split; [done|].
      intros ->. destruct (Hok2 eq_refl) as (-> & Hfresh2).
      split; [cbn; set_solver|].
      intros [|i] gr0 Hi Hmiss; cbn in Hi.
      * injection Hi as <-. destruct (Hfresh1 Hmiss) as (Hnotin & k & Hk & Hgen).
        exists gr1, k. cbn [lookup list_lookup take].
        split; [done|]. split; [done|]. split; [done|]. split; [lia|].
        split; [done|]. apply not_elem_of_nil.
      * destruct (Hfresh2 i gr0 Hi Hmiss) as (gr' & k & Hlook & Hne & Hgen & Hk & Hnotin & Hdist).
        exists gr', k. cbn [lookup list_lookup take fmap list_fmap].
        split; [done|]. split; [done|]. split; [done|]. split; [lia|].
        apply not_elem_of_union in Hnotin as [Hnot1 Hnotin].
        split; [done|]. rewrite not_elem_of_cons. split; [set_solver|done].
Qed.

(** The inner loop over a concatenation is the loop over the first part,
    followed, unless that failed, by the loop over the second part. *)
Lemma assign_managed_app (pre post : list PostableGrafanaReceiver) (seenUIDs : gset string)
    (s : St W) :
  notifier.assign_managed (pre ++ post) seenUIDs s =
    let '((err, pre', seen1), s1) := notifier.assign_managed pre seenUIDs s in
    match err with
    | Some _ => ((err, pre' ++ post, seen1), s1)
    | None =>
        let '((err2, post', seen2), s2) := notifier.assign_managed post seen1 s1 in
        ((err2, pre' ++ post', seen2), s2)
    end.
Proof.
  revert seenUIDs s. induction pre as [|gr pre IH]; intros seenUIDs s; cbn.
  - unfold mret, M_ret.
    by destruct (notifier.assign_managed post seenUIDs s) as [[[? ?] ?] ?].
  - unfold mbind, M_bind, mret, M_ret.
    destruct (notifier.assign_one gr seenUIDs s) as [[[err1 gr1] seen1] s1].
    destruct err1 as [e|]; [done|].
    rewrite IH.
    destruct (notifier.assign_managed pre seen1 s1) as [[[err2 pre2] seen2] s2].
    destruct err2 as [e|]; [done|].
    by destruct (notifier.assign_managed post seen2 s2) as [[[? ?] ?] ?].
Qed.

(** [r'] is [r] but for the UIDs that its Grafana-managed receivers lacked,
    and is [r] when [r] is not of the Grafana type. *)
Definition receiver_frame (r r' : PostableApiReceiver) : Prop :=
  r' = par_set_GrafanaManagedReceivers (par_GrafanaManagedReceivers r') r ∧
  (is_grafana r = false → r' = r) ∧
  Forall2 same_but_UID (par_GrafanaManagedReceivers r) (par_GrafanaManagedReceivers r').

Lemma same_but_UID_refl (gr : PostableGrafanaReceiver) : same_but_UID gr gr.
Proof. split; [by rewrite pgr_set_UID_same|done]. Qed.

Lemma receiver_frame_refl (r : PostableApiReceiver) : receiver_frame r r.
Proof.
  split; [by destruct r|]. split; [done|].
  apply Forall2_same_length_lookup. split; [done|].
  intros i x y Hx Hy. assert (x = y) as -> by congruence. apply same_but_UID_refl.
Qed.

Lemma visited_in_same (c : list PostableApiReceiver) : visited_in c c = visited c.
Proof.
  unfold visited_in, visited. induction c as [|r c IH]; [done|].
  cbn. by rewrite IH.
Qed.

Lemma visited_cons (r : PostableApiReceiver) (c : list PostableApiReceiver) :
  visited (r :: c) = (if is_grafana r then par_GrafanaManagedReceivers r else []) ++ visited c.
Proof. done. Qed.

Lemma visited_in_cons (r r' : PostableApiReceiver) (c c' : list PostableApiReceiver) :
  visited_in (r :: c) (r' :: c')
    = (if is_grafana r then par_GrafanaManagedReceivers r' else []) ++ visited_in c c'.
Proof. done. Qed.

(** The two nested loops visit the Grafana-managed receivers like one run
    of the inner loop over the list of all of them, and leave the rest of
    the receivers untouched. *)
Lemma assign_receivers_flat (c c' : list PostableApiReceiver)
    (seenUIDs seenUIDs' : gset string) (s s' : St W) (err : option error) :
  notifier.assign_receivers c seenUIDs s = ((err, c', seenUIDs'), s') →
  notifier.assign_managed (visited c) seenUIDs s = ((err, visited_in c c', seenUIDs'), s') ∧
  Forall2 receiver_frame c c'.
Proof.
  revert c' seenUIDs seenUIDs' s s' err.
  induction c as [|r c IH]; intros c' seenUIDs seenUIDs' s s' err;
    cbn [notifier.assign_receivers].
  - intros [= <- <- <- <-]. split; [reflexivity|constructor].
  - unfold mbind, M_bind, mret, M_ret.
    destruct (is_grafana r) eqn:Hgrafana.
    + assert (receiver_Type r = GrafanaReceiverType) as ->
        by (unfold is_grafana in Hgrafana; by destruct (receiver_Type r)).
      rewrite visited_cons, Hgrafana, assign_managed_app.
      destruct (notifier.assign_managed (par_GrafanaManagedReceivers r) seenUIDs s)
        as [[[err1 grs1] seen1] s1] eqn:Hinner.
      destruct (assign_managed_spec _ _ _ _ _ _ _ Hinner) as (_ & _ & Hsame & _).
      assert (Hframe1 : receiver_frame r (par_set_GrafanaManagedReceivers grs1 r)).
      { split; [done|]. split; [|done]. by rewrite Hgrafana. }
      destruct err1 as [e|].
      * intros [= <- <- <- <-].
        rewrite visited_in_cons, Hgrafana, visited_in_same.
        split; [done|]. constructor; [done|].
        apply Forall2_same_length_lookup. split; [done|].
        intros i x y Hx Hy. assert (x = y) as -> by congruence. apply receiver_frame_refl.
      * destruct (notifier.assign_receivers c seen1 s1) as [[[err2 c2] seen2] s2] eqn:Hrest.
        intros [= <- <- <- <-]. destruct (IH _ _ _ _ _ _ Hrest) as (Hflat & Hframe).
        rewrite Hflat, visited_in_cons, Hgrafana. split; [done|]. by constructor.
    + rewrite visited_cons, Hgrafana. cbn [app].
      assert (Hrun :
        notifier.assign_receivers c seenUIDs s = ((err, tail c', seenUIDs'), s') ∧
        c' = r :: tail c' →
        notifier.assign_managed (visited c) seenUIDs s
          = (err, visited_in (r :: c) c', seenUIDs', s') ∧
        Forall2 receiver_frame (r :: c) c').
      { intros (Hrest & ->). destruct (IH _ _ _ _ _ _ Hrest) as (Hflat & Hframe).
        rewrite visited_in_cons, Hgrafana. split; [done|].
        constructor; [apply receiver_frame_refl|done]. }
      unfold is_grafana in Hgrafana.
      destruct (receiver_Type r); [done|..];
        destruct (notifier.assign_receivers c seenUIDs s) as [[[err0 c0] seen0] s0];
        intros [= <- <- <- <-]; by apply Hrun.
Qed.

Lemma assignReceiverConfigsUIDs_run (c : list PostableApiReceiver) (s : St W) :
  ∃ seenUIDs',
    notifier.assign_receivers c ∅ s
      = (((notifier.assignReceiverConfigsUIDs c s).1.1,
          (notifier.assignReceiverConfigsUIDs c s).1.2, seenUIDs'),
         (notifier.assignReceiverConfigsUIDs c s).2).
Proof.
  unfold notifier.assignReceiverConfigsUIDs, mbind, M_bind, mret, M_ret.
  destruct (notifier.assign_receivers c ∅ s) as [[[err c'] seen'] s']. by exists seen'.
Qed.

Lemma NoDup_fresh_prefix {A} (l : list A) :
  (∀ i x, l !! i = Some x → x ∉ take i l) → NoDup l.
Proof.
  intros Hfresh. apply NoDup_alt. intros i j x Hi Hj.
  destruct (Nat.lt_trichotomy i j) as [Hlt|[Heq|Hgt]]; [|done|].
  - destruct (Hfresh j x Hj). apply list_elem_of_lookup. exists i.
    by rewrite lookup_take_lt.
  - destruct (Hfresh i x Hi). apply list_elem_of_lookup. exists j.
    by rewrite lookup_take_lt.
Qed.

(** C10. Whether it fails or not, [assignReceiverConfigsUIDs] leaves every
    receiver that is not of the Grafana type as it was, changes nothing of a
    receiver of the Grafana type but its Grafana-managed receivers, changes
    nothing of a Grafana-managed receiver but its UID, and leaves a
    Grafana-managed receiver that has a UID as it was; it does not write to
    the world. *)
Theorem assignReceiverConfigsUIDs_frame (c : list PostableApiReceiver) (s : St W) :
  Forall2 receiver_frame c (notifier.assignReceiverConfigsUIDs c s).1.2 ∧
  world (notifier.assignReceiverConfigsUIDs c s).2 = world s.
Proof.
  destruct (assignReceiverConfigsUIDs_run c s) as (seen' & Hrun).
  destruct (assign_receivers_flat _ _ _ _ _ _ _ Hrun) as (Hflat & Hframe).
  split; [done|]. by destruct (assign_managed_spec _ _ _ _ _ _ _ Hflat) as (Hw & _).
Qed.

(** The five attempts for a receiver fail: with [draws] identifiers
    generated so far and the UIDs [seenUIDs] seen so far, the next five
    identifiers are all seen, or the first of them that is not seen is the
    empty identifier. *)
Definition exhausted (seenUIDs : gset string) (draws : nat) : Prop :=
  (∀ k, k < 5 → short_uid (draws + k) ∈ seenUIDs) ∨
  (∃ k, k < 5 ∧ (∀ j, j < k → short_uid (draws + j) ∈ seenUIDs) ∧
        (short_uid (draws + k) ∉ seenUIDs) ∧ short_uid (draws + k) = "").

(** The loop of the attempts stops at the first identifier that is not
    seen, and after [rounds] attempts when there is none. *)
Lemma retry_GenerateShortUID_first (rounds : nat) (seenUIDs : gset string) (s : St W) :
  ((∀ k, k < rounds → short_uid (uid_draws s + k) ∈ seenUIDs) ∧
   (notifier.retry_GenerateShortUID rounds seenUIDs s).1 = "" ∧
   uid_draws (notifier.retry_GenerateShortUID rounds seenUIDs s).2 = uid_draws s + rounds) ∨
  (∃ k, k < rounds ∧
        (∀ j, j < k → short_uid (uid_draws s + j) ∈ seenUIDs) ∧
        (short_uid (uid_draws s + k) ∉ seenUIDs) ∧
        (notifier.retry_GenerateShortUID rounds seenUIDs s).1 = short_uid (uid_draws s + k) ∧
        uid_draws (notifier.retry_GenerateShortUID rounds seenUIDs s).2 = uid_draws s + S k).
Proof.
  revert s. induction rounds as [|rounds IH]; intros s; cbn.
  - left. split; [lia|]. split; [done|lia].
  - unfold mbind, M_bind, notifier.GenerateShortUID.
    set (s1 := {| world := world s; uid_draws := S (uid_draws s); calls := _ |}).
    case_bool_decide as Hseen.
    + destruct (IH s1) as [(Hall & Hres & Hd)|(k & Hk & Hbefore & Hnot & Hres & Hd)].
      * left. cbn in Hall, Hd. split; [|split; [done|lia]].
        intros [|k] Hk; [by rewrite Nat.add_0_r|].
        rewrite Nat.add_succ_r. apply Hall. lia.
      * right. cbn in Hbefore, Hnot, Hres, Hd. exists (S k). split; [lia|].
        rewrite !Nat.add_succ_r. split; [|split; [done|split; [done|lia]]].
        intros [|j] Hj; [by rewrite Nat.add_0_r|].
        rewrite Nat.add_succ_r. apply Hbefore. lia.
    + right. exists 0. rewrite Nat.add_0_r. cbn. split; [lia|].
      split; [intros j Hj; lia|]. split; [done|]. split; [done|lia].
Qed.

(** The attempts for one receiver without UID: the receiver takes the
    first of the next five identifiers that is not seen, if there is one and
    it is not empty, and the call fails otherwise. *)
Lemma assign_one_attempts (gr : PostableGrafanaReceiver) (seenUIDs : gset string) (s : St W) :
  pgr_UID gr = "" →
  ((notifier.assign_one gr seenUIDs s).1.1.1 = Some notifier.errUIDRetriesExhausted ∧
   exhausted seenUIDs (uid_draws s)) ∨
  (∃ k, k < 5 ∧
        (∀ j, j < k → short_uid (uid_draws s + j) ∈ seenUIDs) ∧
        (short_uid (uid_draws s + k) ∉ seenUIDs) ∧ short_uid (uid_draws s + k) ≠ "" ∧
        (notifier.assign_one gr seenUIDs s).1
          = (None, pgr_set_UID (short_uid (uid_draws s + k)) gr,
             {[short_uid (uid_draws s + k)]} ∪ seenUIDs) ∧
        uid_draws (notifier.assign_one gr seenUIDs s).2 = uid_draws s + S k).
Proof.
  intros Hempty. unfold notifier.assign_one.
  rewrite bool_decide_eq_true_2 by done. unfold mbind, M_bind.
  pose proof (retry_GenerateShortUID_first 5 seenUIDs s) as Hfirst.
  destruct (notifier.retry_GenerateShortUID 5 seenUIDs s) as [uid s1].
  cbn [fst snd pgr_UID pgr_set_UID] in *.
  destruct Hfirst as [(Hall & -> & Hd)|(k & Hk & Hbefore & Hnot & -> & Hd)].
  - left. rewrite bool_decide_eq_true_2 by done. split; [done|by left].
  - case_bool_decide as Huid.
    + left. split; [done|]. right. by exists k.
    + right. exists k. by repeat split.
Qed.

(** A run of the inner loop that fails has reached a receiver without UID
    whose five attempts fail. *)
Lemma assign_managed_fails (grs grs' : list PostableGrafanaReceiver)
    (seenUIDs seenUIDs' : gset string) (s s' : St W) (e : error) :
  notifier.assign_managed grs seenUIDs s = ((Some e, grs', seenUIDs'), s') →
  ∃ pre gr post pre' seen1 s1,
    grs = pre ++ gr :: post ∧ pgr_UID gr = "" ∧
    notifier.assign_managed pre seenUIDs s = ((None, pre', seen1), s1) ∧
    exhausted seen1 (uid_draws s1).
Proof.
  revert grs' seenUIDs seenUIDs' s s'.
  induction grs as [|gr grs IH]; intros grs' seenUIDs seenUIDs' s s';
    cbn [notifier.assign_managed]; [done|].
  unfold mbind, M_bind.
  destruct (notifier.assign_one gr seenUIDs s) as [[[err1 gr1] seen1] s1] eqn:Hone.
  destruct err1 as [e1|].
  - intros _. exists [], gr, grs, [], seenUIDs, s.
    assert (Hempty : pgr_UID gr = "").
    { unfold notifier.assign_one in Hone. case_bool_decide; [done|]. by injection Hone. }
    split; [done|]. split; [done|]. split; [done|].
    destruct (assign_one_attempts gr seenUIDs s Hempty) as [[_ Hex]|(k & _ & _ & _ & _ & Hrun & _)];
      [done|].
    rewrite Hone in Hrun. by injection Hrun.
  - destruct (notifier.assign_managed grs seen1 s1) as [[[err2 grs2] seen2] s2] eqn:Hrest.
    intros [= -> <- <- <-].
    destruct (IH _ _ _ _ _ Hrest) as (pre & gr0 & post & pre' & seen3 & s3 & -> & Hempty & Hpre & Hex).
    exists (gr :: pre), gr0, post, (gr1 :: pre'), seen3, s3.
    split; [done|]. split; [done|]. split; [|done].
    cbn [notifier.assign_managed]. unfold mbind, M_bind. by rewrite Hone, Hpre.
Qed.

(** C8. A receiver without UID costs at most five generations, and takes
    the first of the next five generated identifiers that is not among the
    UIDs seen so far in this call, which start empty: an identifier seen is
    passed over, up to the fifth.  When the call succeeds, every visited
    Grafana-managed receiver that had no UID has a non-empty generated one,
    different from the UID of every receiver visited before it, be that UID
    older or generated in this call; so, if none of them had a UID, they end
    up with pairwise different UIDs.  The only error is the exhaustion of
    the retries: it is returned as soon as the run reaches a receiver
    without UID for which the next five generated identifiers are all among
    the UIDs seen so far, and it is returned only when the run has reached
    a receiver without UID whose five attempts fail; so the call succeeds
    when, for each receiver without UID that the run reaches, one of the
    next five generated identifiers is not seen and those up to it are not
    empty. *)
Theorem assignReceiverConfigsUIDs_distinct (c : list PostableApiReceiver) (s : St W) :
  let err := (notifier.assignReceiverConfigsUIDs c s).1.1 in
  let after := visited_in c (notifier.assignReceiverConfigsUIDs c s).1.2 in
  let s' := (notifier.assignReceiverConfigsUIDs c s).2 in
  (∀ gr seenUIDs (s0 : St W),
     uid_draws (notifier.assign_one gr seenUIDs s0).2 ≤ uid_draws s0 + 5) ∧
  uid_draws s ≤ uid_draws s' ≤ uid_draws s + 5 * missing (visited c) ∧
  (err = None →
     (∀ i gr, visited c !! i = Some gr → pgr_UID gr = "" →
        ∃ gr' k,
          after !! i = Some gr' ∧ pgr_UID gr' ≠ "" ∧
          pgr_UID gr' = short_uid k ∧ uid_draws s ≤ k < uid_draws s' ∧
          (pgr_UID gr' ∉ take i (pgr_UID <$> after))) ∧
     (Forall (λ gr, pgr_UID gr = "") (visited c) → NoDup (pgr_UID <$> after))) ∧
  (∀ e, err = Some e → e = notifier.errUIDRetriesExhausted) ∧
  (∀ pre gr post pre' seenUIDs s1,
     visited c = pre ++ gr :: post →
     pgr_UID gr = "" →
     notifier.assign_managed pre ∅ s = ((None, pre', seenUIDs), s1) →
     (∀ k, k < 5 → short_uid (uid_draws s1 + k) ∈ pgr_UID <$> pre') →
     err = Some notifier.errUIDRetriesExhausted) ∧
  (∀ pre gr post pre' seenUIDs s1 k,
     visited c = pre ++ gr :: post →
     pgr_UID gr = "" →
     notifier.assign_managed pre ∅ s = ((None, pre', seenUIDs), s1) →
     k < 5 →
     (∀ j, j < k → short_uid (uid_draws s1 + j) ∈ pgr_UID <$> pre') →
     short_uid (uid_draws s1 + k) ∉ pgr_UID <$> pre' →
     short_uid (uid_draws s1 + k) ≠ "" →
     after !! length pre = Some (pgr_set_UID (short_uid (uid_draws s1 + k)) gr) ∧
     ∃ seenUIDs2 s2,
       notifier.assign_managed (pre ++ [gr]) ∅ s
         = ((None, pre' ++ [pgr_set_UID (short_uid (uid_draws s1 + k)) gr], seenUIDs2), s2) ∧
       uid_draws s2 = uid_draws s1 + S k) ∧
  (∀ e, err = Some e →
     ∃ pre gr post pre' seenUIDs s1,
       visited c = pre ++ gr :: post ∧ pgr_UID gr = "" ∧
       notifier.assign_managed pre ∅ s = ((None, pre', seenUIDs), s1) ∧
       seenUIDs = list_to_set (pgr_UID <$> pre') ∧
       exhausted seenUIDs (uid_draws s1)) ∧
  ((∀ pre gr post pre' seenUIDs s1,
      visited c = pre ++ gr :: post →
      pgr_UID gr = "" →
      notifier.assign_managed pre ∅ s = ((None, pre', seenUIDs), s1) →
      ∃ k, k < 5 ∧ (short_uid (uid_draws s1 + k) ∉ seenUIDs) ∧
           ∀ j, j ≤ k → short_uid (uid_draws s1 + j) ≠ "") →
   err = None).
Proof.
  cbv zeta.
  destruct (assignReceiverConfigsUIDs_run c s) as (seen' & Hrun).
  destruct (notifier.assignReceiverConfigsUIDs c s) as [[err c'] s'].
  cbn [fst snd] in *.
  destruct (assign_receivers_flat _ _ _ _ _ _ _ Hrun) as (Hflat & Hframe).
  destruct (assign_managed_spec _ _ _ _ _ _ _ Hflat) as (Hw & Hd & Hsame & Herr & Hok).
  split.
  { intros gr seenUIDs s0.
    destruct (notifier.assign_one gr seenUIDs s0) as [[[err1 gr1] seen1] s1] eqn:Hone.
    destruct (assign_one_spec _ _ _ _ _ _ _ Hone) as (_ & Hd1 & _).
    unfold missing in Hd1. cbn. pose proof (length_filter (λ gr, pgr_UID gr = "") [gr]) as Hlen.
    cbn [length] in Hlen. lia. }
  assert (Hfails : ∀ e, err = Some e →
            ∃ pre gr post pre' seenUIDs s1,
              visited c = pre ++ gr :: post ∧ pgr_UID gr = "" ∧
              notifier.assign_managed pre ∅ s = ((None, pre', seenUIDs), s1) ∧
              seenUIDs = list_to_set (pgr_UID <$> pre') ∧
              exhausted seenUIDs (uid_draws s1)).
  { intros e ->.
    destruct (assign_managed_fails _ _ _ _ _ _ _ Hflat)
      as (pre & gr & post & pre' & seen1 & s1 & Hsplit & Hmiss & Hpre & Hex).
    destruct (assign_managed_spec _ _ _ _ _ _ _ Hpre) as (_ & _ & _ & _ & Hokpre).
    destruct (Hokpre eq_refl) as (Hseen & _).
    exists pre, gr, post, pre', seen1, s1.
    split; [done|]. split; [done|]. split; [done|]. split; [|done].
    rewrite Hseen. set_solver. }
  split; [done|]. split; [|split; [done|split; [|split; [|split; [exact Hfails|]]]]].
  - intros Hnone. destruct (Hok Hnone) as (_ & Hfresh). split.
    + intros i gr Hi Hmiss.
      destruct (Hfresh i gr Hi Hmiss) as (gr' & k & ? & ? & ? & ? & _ & ?).
      by exists gr', k.
    + intros Hall. apply NoDup_fresh_prefix. intros i x Hi.
      apply list_lookup_fmap_Some in Hi as (gr' & -> & Hlook).
      destruct (Forall2_lookup_r _ _ _ _ _ Hsame Hlook) as (gr & Hgr & _).
      assert (Hmiss : pgr_UID gr = "").
      { eapply (Forall_lookup_1 _ _ _ _ Hall Hgr). }
      destruct (Hfresh i gr Hgr Hmiss) as (gr'' & k & Hlook' & _ & _ & _ & _ & Hdist).
      by assert (gr'' = gr') as -> by congruence.
  - intros pre gr post pre' seenUIDs s1 Hsplit Hmiss Hpre Hcollide.
    rewrite Hsplit, assign_managed_app, Hpre in Hflat.
    destruct (assign_managed_spec _ _ _ _ _ _ _ Hpre) as (_ & _ & _ & _ & Hokpre).
    destruct (Hokpre eq_refl) as (-> & _).
    cbn [notifier.assign_managed] in Hflat. unfold mbind, M_bind in Hflat.
    destruct (notifier.assign_one gr _ s1) as [[[err1 gr1] seen1] s2] eqn:Hone.
    destruct (assign_one_spec _ _ _ _ _ _ _ Hone) as (_ & _ & _ & _ & _ & Hfail).
    rewrite Hfail in Hflat.
    + by injection Hflat as <- _ _ _.
    + done.
    + intros k Hk. specialize (Hcollide k Hk). set_solver.
  - intros pre gr post pre' seenUIDs s1 k Hsplit Hmiss Hpre Hk Hbefore Hnot Hne.
    destruct (assign_managed_spec _ _ _ _ _ _ _ Hpre) as (_ & _ & Hsamepre & _ & Hokpre).
    destruct (Hokpre eq_refl) as (Hseen & _).
    assert (Hin : ∀ uid, uid ∈ seenUIDs ↔ uid ∈ pgr_UID <$> pre')
      by (intros uid; rewrite Hseen; set_solver).
    destruct (assign_one_attempts gr seenUIDs s1 Hmiss)
      as [[_ Hex]|(k' & Hk' & Hbefore' & Hnot' & _ & Hone & Hd')].
    { exfalso. destruct Hex as [Hall|(k' & Hk' & Hbefore' & Hnot' & Hempty')].
      - apply Hnot, Hin, Hall, Hk.
      - destruct (Nat.lt_trichotomy k k') as [Hlt|[->|Hgt]]; [|done|].
        + apply Hnot, Hin, Hbefore', Hlt.
        + apply Hnot', Hin, Hbefore, Hgt. }
    assert (k' = k) as ->.
    { destruct (Nat.lt_trichotomy k k') as [Hlt|[->|Hgt]]; [|done|].
      - destruct Hnot. apply Hin, Hbefore', Hlt.
      - destruct Hnot'. apply Hin, Hbefore, Hgt. }
    assert (Hstep : ∃ s2,
              notifier.assign_managed (pre ++ [gr]) ∅ s
                = ((None, pre' ++ [pgr_set_UID (short_uid (uid_draws s1 + k)) gr],
                    {[short_uid (uid_draws s1 + k)]} ∪ seenUIDs), s2) ∧
              uid_draws s2 = uid_draws s1 + S k).
    { rewrite assign_managed_app, Hpre. cbn [notifier.assign_managed].
      unfold mbind, M_bind, mret, M_ret.
      destruct (notifier.assign_one gr seenUIDs s1) as [[[err1 gr1] seen1] s2].
      cbn [fst snd] in Hone, Hd'. injection Hone as -> -> ->. by exists s2. }
    destruct Hstep as (s2 & Hstep & Hd2). split; [|by eexists _, s2].
    assert (Hsplit' : visited c = (pre ++ [gr]) ++ post) by (by rewrite <- app_assoc).
    rewrite Hsplit', assign_managed_app, Hstep in Hflat.
    destruct (notifier.assign_managed post _ s2) as [[[err2 post2] seen2] s3].
    injection Hflat as _ <- _ _.
    rewrite <- app_assoc. cbn [app].
    rewrite lookup_app_r by (by rewrite (Forall2_length _ _ _ Hsamepre)).
    by rewrite (Forall2_length _ _ _ Hsamepre), Nat.sub_diag.
  - intros Hdraws. destruct err as [e|]; [exfalso|done].
    destruct (Hfails e eq_refl)
      as (pre & gr & post & pre' & seenUIDs & s1 & Hsplit & Hmiss & Hpre & _ & Hex).
    destruct (Hdraws pre gr post pre' seenUIDs s1 Hsplit Hmiss Hpre)
      as (k & Hk & Hnot & Hne).
    destruct Hex as [Hall|(k' & Hk' & Hbefore' & Hnot' & Hempty')].
    + by apply Hnot, Hall.
    + destruct (Nat.le_gt_cases k' k) as [Hle|Hgt].
      * by apply (Hne k' Hle).
      * apply Hnot, Hbefore', Hgt.
Qed.

End AssignUIDs.

(** ** The write paths *)

Section WritePaths.
Context {W : Type}.
Context `{!External, !ConfigurationStore W, !ProvisioningStore W, !Crypto W,
          !ReceiverPermissions W, !Alertmanagers W}.

Lemma quiet_step_refl (s : St W) : quiet_step s s.
Proof. exists []. by rewrite app_nil_r. Qed.

Lemma quiet_step_trans (s1 s2 s3 : St W) :
  quiet_step s1 s2 → quiet_step s2 s3 → quiet_step s1 s3.
Proof.
  intros (m1 & H1 & Hq1) (m2 & H2 & Hq2). exists (m1 ++ m2).
  split; [by rewrite H2, H1, app_assoc|by apply Forall_app].
Qed.

Lemma quiet_step_log (c : Call) (s : St W) :
  applied c || failed_deletion c = false → quiet_step s (log c s).
Proof. intros Hc. exists [c]. split; [done|by constructor]. Qed.

Lemma quiet_step_calls_since (s s' : St W) :
  quiet_step s s' → Forall (λ c, applied c || failed_deletion c = false) (calls_since s s').
Proof.
  intros (made & Hcalls & Hquiet). unfold calls_since.
  by rewrite Hcalls, drop_app_length.
Qed.

Lemma retry_GenerateShortUID_quiet (rounds : nat) (seenUIDs : gset string) (s : St W) :
  quiet_step s (notifier.retry_GenerateShortUID rounds seenUIDs s).2.
Proof.
  revert s. induction rounds as [|rounds IH]; intros s; cbn.
  - apply quiet_step_refl.
  - unfold mbind, M_bind, notifier.GenerateShortUID.
    set (s1 := {| world := world s; uid_draws := S (uid_draws s); calls := _ |}).
    assert (Hs1 : quiet_step s s1) by (eexists [_]; split; [done|by constructor]).
    case_bool_decide; [|done].
    eapply quiet_step_trans; [exact Hs1|apply IH].
Qed.

Lemma assign_one_quiet (gr : PostableGrafanaReceiver) (seenUIDs : gset string) (s : St W) :
  quiet_step s (notifier.assign_one gr seenUIDs s).2.
Proof.
  unfold notifier.assign_one. case_bool_decide; [|apply quiet_step_refl].
  unfold mbind, M_bind.
  pose proof (retry_GenerateShortUID_quiet 5 seenUIDs s) as Hq.
  destruct (notifier.retry_GenerateShortUID 5 seenUIDs s) as [uid s1].
  by case_bool_decide.
Qed.

Lemma assign_managed_quiet (grs : list PostableGrafanaReceiver) (seenUIDs : gset string)
    (s : St W) :
  quiet_step s (notifier.assign_managed grs seenUIDs s).2.
Proof.
  revert seenUIDs s. induction grs as [|gr grs IH]; intros seenUIDs s; cbn.
  - apply quiet_step_refl.
  - unfold mbind, M_bind.
    pose proof (assign_one_quiet gr seenUIDs s) as Hq.
    destruct (notifier.assign_one gr seenUIDs s) as [[[err1 gr1] seen1] s1].
    destruct err1; [done|].
    pose proof (IH seen1 s1) as Hq2.
    destruct (notifier.assign_managed grs seen1 s1) as [[[err2 grs2] seen2] s2].
    by eapply quiet_step_trans.
Qed.

Lemma assign_receivers_quiet (c : list PostableApiReceiver) (seenUIDs : gset string)
    (s : St W) :
  quiet_step s (notifier.assign_receivers c seenUIDs s).2.
Proof.
  revert seenUIDs s. induction c as [|r c IH]; intros seenUIDs s; cbn.
  - apply quiet_step_refl.
  - unfold mbind, M_bind.
    destruct (receiver_Type r).
    + pose proof (assign_managed_quiet (par_GrafanaManagedReceivers r) seenUIDs s) as Hq.
      destruct (notifier.assign_managed _ seenUIDs s) as [[[err1 grs1] seen1] s1].
      destruct err1; [done|].
      pose proof (IH seen1 s1) as Hq2.
      destruct (notifier.assign_receivers c seen1 s1) as [[[err2 c2] seen2] s2].
      by eapply quiet_step_trans.
    + pose proof (IH seenUIDs s) as Hq.
      by destruct (notifier.assign_receivers c seenUIDs s) as [[[err2 c2] seen2] s2].
    + pose proof (IH seenUIDs s) as Hq.
      by destruct (notifier.assign_receivers c seenUIDs s) as [[[err2 c2] seen2] s2].
Qed.

Lemma assignReceiverConfigsUIDs_quiet (c : list PostableApiReceiver) (s : St W) :
  quiet_step s (notifier.assignReceiverConfigsUIDs c s).2.
Proof.
  unfold notifier.assignReceiverConfigsUIDs, mbind, M_bind.
  pose proof (assign_receivers_quiet c ∅ s) as Hq.
  by destruct (notifier.assign_receivers c ∅ s) as [[[err c'] seen'] s'].
Qed.

Lemma report_cleanPermissions_nil (cleanPermissionsErr : option error) (s : St W) :
  (notifier.report_cleanPermissions cleanPermissionsErr s).1 = None.
Proof. by destruct cleanPermissionsErr. Qed.

(** C4. A configuration with at least one inhibition rule is refused with
    the error "inhibition rules are not supported", and the state is the one
    the call started from: the world is as it was and the log has no new
    call, so no store was read or written, no secure setting processed, no
    UID generated and no Alertmanager looked up or given a configuration. *)
Theorem SaveAndApplyAlertmanagerConfiguration_inhibit_rules (org : Z)
    (config : PostableUserConfig) (s : St W) :
  cfg_InhibitRules (paac_Config (puc_AlertmanagerConfig config)) ≠ [] →
  notifier.SaveAndApplyAlertmanagerConfiguration org config s
    = (Some (errors_New "inhibition rules are not supported"), s).
Proof.
  intros Hrules. unfold notifier.SaveAndApplyAlertmanagerConfiguration.
  rewrite bool_decide_eq_true_2; [done|].
  destruct (cfg_InhibitRules _); [done|cbn; lia].
Qed.

(** The clean-up [cleanup] returns an error whenever a deletion it asked
    for failed. *)
Definition reports (cleanup : M W (option error)) : Prop :=
  ∀ s, ∃ made,
    calls (cleanup s).2 = calls s ++ made ∧
    ((∃ c, c ∈ made ∧ failed_deletion c = true) → (cleanup s).1 ≠ None).

(** The operation returned [nil], and reported in the log the clean-up
    that had a deletion fail, if any. *)
Definition succeeded_reporting (s s' : St W) (res : option error) : Prop :=
  res = None ∧
  ((∃ c, c ∈ calls_since s s' ∧ failed_deletion c = true) →
   ∃ c, c ∈ calls_since s s' ∧ cleanPermissions_reported c).

Lemma reports_mret (err : option error) : reports (mret err).
Proof.
  intros s. exists []. cbn. rewrite app_nil_r. split; [done|].
  intros (c & Hin & _). by apply elem_of_nil in Hin.
Qed.

Lemma reports_cleanPermissions (orgID : Z) (previousConfig : AlertConfiguration)
    (newReceiverNames : gset string) :
  reports (notifier.cleanPermissions orgID previousConfig newReceiverNames).
Proof. intros s. apply cleanPermissions_reports. Qed.

Lemma report_tail (cleanup : M W (option error)) (s s4 : St W) (c : Call) :
  quiet_step s s4 →
  failed_deletion c = false →
  reports cleanup →
  succeeded_reporting s
    (notifier.report_cleanPermissions (cleanup (log c s4)).1 (cleanup (log c s4)).2).2
    (notifier.report_cleanPermissions (cleanup (log c s4)).1 (cleanup (log c s4)).2).1.
Proof.
  intros (pre & Hpre & Hquiet) Hc Hreports.
  destruct (Hreports (log c s4)) as (made & Hmade & Hfailed).
  destruct (cleanup (log c s4)) as [err s6]. cbn [fst snd] in *.
  assert (Hs6 : calls s6 = calls s ++ (pre ++ [c] ++ made)).
  { rewrite Hmade. cbn. rewrite Hpre. by rewrite <- !app_assoc. }
  assert (Hnone : ∀ x, x ∈ pre ++ [c] → failed_deletion x = true → False).
  { intros x Hx Hfx. apply elem_of_app in Hx as [Hx|Hx].
    - rewrite Forall_forall in Hquiet. specialize (Hquiet x Hx).
      apply orb_false_elim in Hquiet as [_ Hq]. congruence.
    - apply list_elem_of_singleton in Hx as ->. congruence. }
  unfold notifier.report_cleanPermissions, notifier.logger_Error, mbind, M_bind, mret, M_ret.
  destruct err as [err|]; cbn [fst snd].
  - split; [done|]. intros _.
    exists (LogError "Failed to clean permissions for receivers" (Some err)).
    split; [|by exists err].
    rewrite (calls_since_app s _ ((pre ++ [c] ++ made) ++ [LogError "Failed to clean permissions for receivers" (Some err)])).
    + apply elem_of_app. right. by apply list_elem_of_singleton.
    + cbn. by rewrite Hs6, <- !app_assoc.
  - split; [done|]. intros (x & Hx & Hfx). exfalso.
    rewrite (calls_since_app s s6 _ Hs6) in Hx.
    rewrite app_assoc in Hx. apply elem_of_app in Hx as [Hx|Hx].
    + by apply (Hnone x).
    + by apply Hfailed; [exists x|].
Qed.

Lemma M_bind_run {A B} (m : M W A) (k : A → M W B) (s : St W) :
  (m ≫= k) s = k (m s).1 (m s).2.
Proof. unfold mbind, M_bind. by destruct (m s). Qed.

Lemma quiet_step_set_world (w : W) (s s' : St W) :
  quiet_step s s' → quiet_step s (set_world w s').
Proof. done. Qed.

Lemma quiet_step_logged (c : Call) (s s' : St W) :
  applied c || failed_deletion c = false → quiet_step s s' → quiet_step s (log c s').
Proof. intros Hc Hq. eapply quiet_step_trans; [exact Hq|by apply quiet_step_log]. Qed.

Lemma not_quiet_applied (s s' : St W) (c : Call) :
  quiet_step s s' → c ∈ calls_since s s' → applied c || failed_deletion c = true → False.
Proof.
  intros Hq Hin Hc. apply quiet_step_calls_since in Hq.
  rewrite Forall_forall in Hq. specialize (Hq c Hin). congruence.
Qed.

Ltac report_tail_with tac :=
  match goal with
  | |- succeeded_reporting ?s (notifier.report_cleanPermissions (?m (log ?c ?s4)).1 _).2 _ =>
      apply (report_tail m s s4 c); [tac|done|]
  end.

(** A write has not had a configuration accepted nor a deletion fail, or
    it returns [nil] and has reported the failed clean-up, if any. *)
Lemma SaveAndApplyAlertmanagerConfiguration_result (org : Z) (config : PostableUserConfig)
    (s : St W) :
  quiet_step s (notifier.SaveAndApplyAlertmanagerConfiguration org config s).2 ∨
  succeeded_reporting s
    (notifier.SaveAndApplyAlertmanagerConfiguration org config s).2
    (notifier.SaveAndApplyAlertmanagerConfiguration org config s).1.
Proof.
  unfold notifier.SaveAndApplyAlertmanagerConfiguration.
  case_bool_decide; [left; apply quiet_step_refl|].
  rewrite ?M_bind_run.
  cbn [notifier.call_GetLatestAlertmanagerConfiguration reading fst snd].
  set (s1 := log (CallGetLatestAlertmanagerConfiguration org) s).
  assert (Hs1 : quiet_step s s1) by by apply quiet_step_log.
  destruct (GetLatestAlertmanagerConfiguration org (world s)) as [previousConfig|err0];
    [|destruct (errors_Is_NoAlertmanagerConfiguration err0); cbn [negb];
      [|by left]].
  all: rewrite ?M_bind_run; cbn [reading fst snd].
  all: set (s2 := log (CallProcessSecureSettings org) s1).
  all: assert (Hs2 : quiet_step s s2) by by apply quiet_step_logged.
  all: destruct (ProcessSecureSettings org _ (world s1)) as [Receivers|err1];
         [|by left].
  all: rewrite ?M_bind_run.
  all: pose proof (assignReceiverConfigsUIDs_quiet Receivers s2) as Hs3.
  all: destruct (notifier.assignReceiverConfigsUIDs Receivers s2) as [[err2 Receivers'] s3].
  all: cbn [fst snd] in *.
  all: assert (Hs3' : quiet_step s s3) by by eapply quiet_step_trans.
  all: destruct err2 as [err2|]; [by left|].
  all: rewrite ?M_bind_run; cbn [reading fst snd].
  all: set (s4 := log (CallAlertmanagerFor org) s3).
  all: assert (Hs4 : quiet_step s s4) by by apply quiet_step_logged.
  all: destruct (AlertmanagerFor org (world s3)) as [am|am|err3]; [| |by left].
  all: rewrite ?M_bind_run; unfold notifier.call_SaveAndApplyConfig.
  all: destruct (am_SaveAndApplyConfig am _ (world s4)) as [err4 w5].
  all: cbn [fst snd].
  all: destruct err4 as [err4|];
         [left; rewrite ?M_bind_run; cbn [notifier.logger_Error fst snd];
          apply quiet_step_logged; [done|];
          apply quiet_step_logged; [done|]; by apply quiet_step_set_world|].
  all: right; rewrite ?M_bind_run.
  all: report_tail_with ltac:(by apply quiet_step_set_world).
  all: first [apply reports_cleanPermissions|apply reports_mret].
Qed.

Lemma reports_read {A} (c : Call) (f : W → A) (k : A → M W (option error)) :
  failed_deletion c = false →
  (∀ a, reports (k a)) →
  reports (reading c f ≫= k).
Proof.
  intros Hc Hk s. unfold mbind, M_bind, reading.
  destruct (Hk (f (world s)) (log c s)) as (made & Hcalls & Hfailed).
  exists (c :: made). split; [by rewrite Hcalls; cbn; rewrite <- app_assoc|].
  intros (x & Hx & Hfx). apply Hfailed. exists x. split; [|done].
  apply elem_of_cons in Hx as [->|Hx]; [congruence|done].
Qed.

Lemma SaveAndApplyDefaultConfig_result (orgId : Z) (s : St W) :
  quiet_step s (notifier.SaveAndApplyDefaultConfig orgId s).2 ∨
  succeeded_reporting s
    (notifier.SaveAndApplyDefaultConfig orgId s).2
    (notifier.SaveAndApplyDefaultConfig orgId s).1.
Proof.
  unfold notifier.SaveAndApplyDefaultConfig.
  rewrite ?M_bind_run. cbn [reading fst snd].
  set (s1 := log (CallAlertmanagerFor orgId) s).
  assert (Hs1 : quiet_step s s1) by by apply quiet_step_log.
  destruct (alertmanagerForOrg orgId (world s)) as [orgAM|err0]; [|by left].
  rewrite ?M_bind_run.
  cbn [notifier.call_GetLatestAlertmanagerConfiguration reading fst snd].
  set (s2 := log (CallGetLatestAlertmanagerConfiguration orgId) s1).
  assert (Hs2 : quiet_step s s2) by by apply quiet_step_logged.
  rewrite ?M_bind_run. unfold notifier.call_SaveAndApplyDefaultConfig.
  destruct (am_SaveAndApplyDefaultConfig orgAM (world s2)) as [err1 w3].
  cbn [fst snd].
  destruct err1 as [err1|];
    [left; apply quiet_step_logged; [done|]; by apply quiet_step_set_world|].
  right. rewrite ?M_bind_run.
  report_tail_with ltac:(by apply quiet_step_set_world).
  destruct (GetLatestAlertmanagerConfiguration orgId (world s1)) as [previousConfig|err2];
    [|apply reports_mret].
  apply reports_read; [done|]. intros [defaultedConfig|err3]; [|apply reports_mret].
  destruct (notifier.extractReceiverNames _); [|apply reports_mret].
  apply reports_cleanPermissions.
Qed.

(** A write that had its configuration accepted ends with the clean-up
    that the first read of the store leaves it, and the report of it. *)
Lemma SaveAndApplyAlertmanagerConfiguration_tail (org : Z) (config : PostableUserConfig)
    (s : St W) :
  quiet_step s (notifier.SaveAndApplyAlertmanagerConfiguration org config s).2 ∨
  ∃ (s5 : St W) (pre : list Call) (newReceiverNames : gset string),
    calls s5 = calls s ++ pre ∧
    notifier.SaveAndApplyAlertmanagerConfiguration org config s
      = match GetLatestAlertmanagerConfiguration org (world s) with
        | Err cleanPermissionsErr =>
            notifier.report_cleanPermissions (Some cleanPermissionsErr) s5
        | Ok previousConfig =>
            notifier.report_cleanPermissions
              (notifier.cleanPermissions org previousConfig newReceiverNames s5).1
              (notifier.cleanPermissions org previousConfig newReceiverNames s5).2
        end.
Proof.
  unfold notifier.SaveAndApplyAlertmanagerConfiguration.
  case_bool_decide; [left; apply quiet_step_refl|].
  rewrite ?M_bind_run.
  cbn [notifier.call_GetLatestAlertmanagerConfiguration reading fst snd].
  set (s1 := log (CallGetLatestAlertmanagerConfiguration org) s).
  assert (Hs1 : quiet_step s s1) by by apply quiet_step_log.
  destruct (GetLatestAlertmanagerConfiguration org (world s)) as [previousConfig|err0];
    [|destruct (errors_Is_NoAlertmanagerConfiguration err0); cbn [negb];
      [|by left]].
  all: rewrite ?M_bind_run; cbn [reading fst snd].
  all: set (s2 := log (CallProcessSecureSettings org) s1).
  all: assert (Hs2 : quiet_step s s2) by by apply quiet_step_logged.
  all: destruct (ProcessSecureSettings org _ (world s1)) as [Receivers|err1];
         [|by left].
  all: rewrite ?M_bind_run.
  all: pose proof (assignReceiverConfigsUIDs_quiet Receivers s2) as Hs3.
  all: destruct (notifier.assignReceiverConfigsUIDs Receivers s2) as [[err2 Receivers'] s3].
  all: cbn [fst snd] in *.
  all: assert (Hs3' : quiet_step s s3) by by eapply quiet_step_trans.
  all: destruct err2 as [err2|]; [by left|].
  all: rewrite ?M_bind_run; cbn [reading fst snd].
  all: set (s4 := log (CallAlertmanagerFor org) s3).
  all: assert (Hs4 : quiet_step s s4) by by apply quiet_step_logged.
  all: destruct (AlertmanagerFor org (world s3)) as [am|am|err3]; [| |by left].
  all: rewrite ?M_bind_run; unfold notifier.call_SaveAndApplyConfig.
  all: destruct (am_SaveAndApplyConfig am _ (world s4)) as [err4 w5].
  all: cbn [fst snd].
  all: destruct err4 as [err4|];
         [left; rewrite ?M_bind_run; cbn [notifier.logger_Error fst snd];
          apply quiet_step_logged; [done|];
          apply quiet_step_logged; [done|]; by apply quiet_step_set_world|].
  all: right; rewrite ?M_bind_run.
  all: destruct Hs4 as (pre & Hpre & _).
  all: cbn [notifier.is_nil].
  all: match goal with
       | |- context [log (CallSaveAndApplyConfig ?cfg true) ?s0] =>
           exists (log (CallSaveAndApplyConfig cfg true) s0),
                  (pre ++ [CallSaveAndApplyConfig cfg true])
       end.
  all: match goal with
       | |- context [notifier.cleanPermissions _ _ ?names _] => exists names
       | |- _ => exists ∅
       end.
  all: split; [cbn [calls log set_world]; by rewrite Hpre, <- app_assoc|].
  all: unfold mret, M_ret; cbn [fst snd]; try reflexivity.
  all: by destruct (notifier.cleanPermissions _ _ _ _).
Qed.

(** The report of a failed clean-up is the last entry of the log, and the
    result is [nil]. *)
Lemma report_cleanPermissions_logged (err : error) (s s5 : St W) (pre : list Call) :
  calls s5 = calls s ++ pre →
  (notifier.report_cleanPermissions (Some err) s5).1 = None ∧
  LogError "Failed to clean permissions for receivers" (Some err)
    ∈ calls_since s (notifier.report_cleanPermissions (Some err) s5).2.
Proof.
  intros Hpre. split; [done|].
  unfold notifier.report_cleanPermissions, notifier.logger_Error, mbind, M_bind, mret, M_ret.
  cbn [fst snd].
  rewrite (calls_since_app s _
             (pre ++ [LogError "Failed to clean permissions for receivers" (Some err)]))
    by (cbn; by rewrite Hpre, <- app_assoc).
  set_solver.
Qed.

(** The report adds its entry to the log for an error, and nothing for
    [nil]. *)
Lemma report_cleanPermissions_calls (cleanPermissionsErr : option error) (s : St W) :
  calls (notifier.report_cleanPermissions cleanPermissionsErr s).2
    = calls s ++ match cleanPermissionsErr with
                 | Some err => [LogError "Failed to clean permissions for receivers" (Some err)]
                 | None => []
                 end.
Proof. destruct cleanPermissionsErr; cbn; [done|by rewrite app_nil_r]. Qed.

(** [cleanPermissions] for a previous configuration without receiver
    names to extract. *)
Lemma cleanPermissions_unparsed (orgID : Z) (previousConfig : AlertConfiguration)
    (newReceiverNames : gset string) (err : error) (s : St W) :
  notifier.extractReceiverNames (ac_AlertmanagerConfiguration previousConfig) = Err err →
  notifier.cleanPermissions orgID previousConfig newReceiverNames s
    = (Some (fmt_Errorf "failed to extract receiver names from previous configuration" err), s).
Proof. intros Hprev. unfold notifier.cleanPermissions. by rewrite Hprev. Qed.

(** C5. Once the live Alertmanager has accepted the configuration, be it
    the posted one or the default one, the operation returns [nil],
    whatever the later reading of the stored configuration, the extraction
    of the receiver names and the permission calls do; and what fails
    there is not returned but reported in the log entry "Failed to clean
    permissions for receivers": a permission deletion that fails, the
    first read of the stored configuration when it failed, with its error,
    the receiver names of the previous configuration when they cannot be
    extracted, with the wrapped error of [cleanPermissions], and, for the
    default configuration, the second read of the store and the receiver
    names of the configuration it returns, with their errors.  When
    [cleanPermissions] is reached, the log ends with its calls, followed by
    that entry with the error that [cleanPermissions] returned, and by
    nothing when it returned [nil]. *)
Theorem write_succeeds_whatever_cleanPermissions_does (org : Z) (config : PostableUserConfig)
    (s : St W) :
  let posted := notifier.SaveAndApplyAlertmanagerConfiguration org config s in
  let defaulted := notifier.SaveAndApplyDefaultConfig org s in
  let reported := λ err, LogError "Failed to clean permissions for receivers" (Some err) in
  let unparsed :=
    fmt_Errorf "failed to extract receiver names from previous configuration" in
  ((∃ c, c ∈ calls_since s posted.2 ∧ applied c = true) → posted.1 = None) ∧
  ((∃ c, c ∈ calls_since s posted.2 ∧ failed_deletion c = true) →
     posted.1 = None ∧ ∃ c, c ∈ calls_since s posted.2 ∧ cleanPermissions_reported c) ∧
  ((∃ c, c ∈ calls_since s defaulted.2 ∧ applied c = true) → defaulted.1 = None) ∧
  ((∃ c, c ∈ calls_since s defaulted.2 ∧ failed_deletion c = true) →
     defaulted.1 = None ∧ ∃ c, c ∈ calls_since s defaulted.2 ∧ cleanPermissions_reported c) ∧
  ((∃ c, c ∈ calls_since s posted.2 ∧ applied c = true) →
     (∀ err, GetLatestAlertmanagerConfiguration org (world s) = Err err →
             reported err ∈ calls_since s posted.2) ∧
     (∀ previousConfig err,
        GetLatestAlertmanagerConfiguration org (world s) = Ok previousConfig →
        notifier.extractReceiverNames (ac_AlertmanagerConfiguration previousConfig) = Err err →
        reported (unparsed err) ∈ calls_since s posted.2) ∧
     (∀ previousConfig,
        GetLatestAlertmanagerConfiguration org (world s) = Ok previousConfig →
        ∃ (s5 : St W) (pre : list Call) (newReceiverNames : gset string),
          calls s5 = calls s ++ pre ∧
          calls posted.2
            = calls (notifier.cleanPermissions org previousConfig newReceiverNames s5).2
              ++ match (notifier.cleanPermissions org previousConfig newReceiverNames s5).1 with
                 | Some err => [reported err]
                 | None => []
                 end)) ∧
  (∀ orgAM w',
     alertmanagerForOrg org (world s) = Ok orgAM →
     am_SaveAndApplyDefaultConfig orgAM (world s) = (None, w') →
     defaulted.1 = None ∧
     (∀ err, GetLatestAlertmanagerConfiguration org (world s) = Err err →
             reported err ∈ calls_since s defaulted.2) ∧
     (∀ previousConfig,
        GetLatestAlertmanagerConfiguration org (world s) = Ok previousConfig →
        (∀ err, GetLatestAlertmanagerConfiguration org w' = Err err →
                reported err ∈ calls_since s defaulted.2) ∧
        (∀ defaultedConfig,
           GetLatestAlertmanagerConfiguration org w' = Ok defaultedConfig →
           (∀ err,
              notifier.extractReceiverNames (ac_AlertmanagerConfiguration defaultedConfig)
                = Err err →
              reported err ∈ calls_since s defaulted.2) ∧
           (∀ newReceiverNames err,
              notifier.extractReceiverNames (ac_AlertmanagerConfiguration defaultedConfig)
                = Ok newReceiverNames →
              notifier.extractReceiverNames (ac_AlertmanagerConfiguration previousConfig)
                = Err err →
              reported (unparsed err) ∈ calls_since s defaulted.2) ∧
           (∀ newReceiverNames,
              notifier.extractReceiverNames (ac_AlertmanagerConfiguration defaultedConfig)
                = Ok newReceiverNames →
              ∃ (s4 : St W) (pre : list Call),
                calls s4 = calls s ++ pre ∧ world s4 = w' ∧
                calls defaulted.2
                  = calls (notifier.cleanPermissions org previousConfig newReceiverNames s4).2
                    ++ match (notifier.cleanPermissions org previousConfig newReceiverNames
                                s4).1 with
                       | Some err => [reported err]
                       | None => []
                       end)))).
Proof.
  intros posted defaulted reported unparsed.
  assert (Hnoise : ∀ (s' : St W) c, quiet_step s s' → c ∈ calls_since s s' →
                     applied c = true ∨ failed_deletion c = true → False).
  { intros s' c Hq Hin Hc. apply (not_quiet_applied _ _ _ Hq Hin).
    destruct Hc as [-> | ->]; [done|by rewrite orb_true_r]. }
  assert (Hposted : quiet_step s posted.2 ∨ succeeded_reporting s posted.2 posted.1)
    by apply SaveAndApplyAlertmanagerConfiguration_result.
  assert (Hdefaulted : quiet_step s defaulted.2 ∨ succeeded_reporting s defaulted.2 defaulted.1)
    by apply SaveAndApplyDefaultConfig_result.
  assert (Htail : quiet_step s posted.2 ∨
                  ∃ (s5 : St W) (pre : list Call) (newReceiverNames : gset string),
                    calls s5 = calls s ++ pre ∧
                    posted
                      = match GetLatestAlertmanagerConfiguration org (world s) with
                        | Err cleanPermissionsErr =>
                            notifier.report_cleanPermissions (Some cleanPermissionsErr) s5
                        | Ok previousConfig =>
                            notifier.report_cleanPermissions
                              (notifier.cleanPermissions org previousConfig newReceiverNames s5).1
                              (notifier.cleanPermissions org previousConfig newReceiverNames s5).2
                        end)
    by apply SaveAndApplyAlertmanagerConfiguration_tail.
  assert (Hrun : ∀ orgAM w',
            alertmanagerForOrg org (world s) = Ok orgAM →
            am_SaveAndApplyDefaultConfig orgAM (world s) = (None, w') →
            ∃ (s3 : St W) (pre : list Call),
              calls s3 = calls s ++ pre ∧ world s3 = w' ∧
              defaulted
                = match GetLatestAlertmanagerConfiguration org (world s) with
                  | Err cleanPermissionsErr =>
                      notifier.report_cleanPermissions (Some cleanPermissionsErr) s3
                  | Ok previousConfig =>
                      let s4 := log (CallGetLatestAlertmanagerConfiguration org) s3 in
                      match GetLatestAlertmanagerConfiguration org w' with
                      | Err err => notifier.report_cleanPermissions (Some err) s4
                      | Ok defaultedConfig =>
                          match notifier.extractReceiverNames
                                  (ac_AlertmanagerConfiguration defaultedConfig) with
                          | Err err => notifier.report_cleanPermissions (Some err) s4
                          | Ok newReceiverNames =>
                              notifier.report_cleanPermissions
                                (notifier.cleanPermissions org previousConfig newReceiverNames s4).1
                                (notifier.cleanPermissions org previousConfig newReceiverNames s4).2
                          end
                      end
                  end).
  { intros orgAM w' Ham Happly. subst defaulted.
    unfold notifier.SaveAndApplyDefaultConfig.
    rewrite ?M_bind_run. cbn [reading fst snd]. rewrite Ham.
    rewrite ?M_bind_run.
    cbn [notifier.call_GetLatestAlertmanagerConfiguration reading fst snd world log].
    rewrite ?M_bind_run. unfold notifier.call_SaveAndApplyDefaultConfig.
    cbn [world log]. rewrite Happly. cbn [fst snd notifier.is_nil].
    rewrite ?M_bind_run.
    exists (log (CallSaveAndApplyDefaultConfig true)
              (set_world w' (log (CallGetLatestAlertmanagerConfiguration org)
                               (log (CallAlertmanagerFor org) s)))),
           [CallAlertmanagerFor org; CallGetLatestAlertmanagerConfiguration org;
            CallSaveAndApplyDefaultConfig true].
    split; [cbn [calls log set_world]; by rewrite <- !app_assoc|]. split; [reflexivity|].
    destruct (GetLatestAlertmanagerConfiguration org (world s)) as [previousConfig|err];
      [|reflexivity].
    rewrite ?M_bind_run.
    cbn [notifier.call_GetLatestAlertmanagerConfiguration reading fst snd world log set_world].
    destruct (GetLatestAlertmanagerConfiguration org w') as [defaultedConfig|err];
      [|reflexivity].
    destruct (notifier.extractReceiverNames _) as [newReceiverNames|err]; [|reflexivity].
    by destruct (notifier.cleanPermissions _ _ _ _). }
  clearbody posted defaulted.
  split; [|split; [|split; [|split; [|split]]]].
  - intros (c & Hin & Hc). destruct Hposted as [Hq|[Hn _]]; [|done].
    exfalso. eapply Hnoise; eauto.
  - intros (c & Hin & Hc). destruct Hposted as [Hq|[Hn Hr]].
    + exfalso. eapply Hnoise; eauto.
    + split; [done|]. apply Hr. by exists c.
  - intros (c & Hin & Hc). destruct Hdefaulted as [Hq|[Hn _]]; [|done].
    exfalso. eapply Hnoise; eauto.
  - intros (c & Hin & Hc). destruct Hdefaulted as [Hq|[Hn Hr]].
    + exfalso. eapply Hnoise; eauto.
    + split; [done|]. apply Hr. by exists c.
  - intros (c & Hin & Hc).
    destruct Htail as [Hq|(s5 & pre & newReceiverNames & Hpre & ->)];
      [exfalso; eapply Hnoise; eauto|].
    split; [|split].
    + intros err Hget. rewrite Hget. by apply report_cleanPermissions_logged with (pre := pre).
    + intros previousConfig err Hget Hprev. rewrite Hget.
      rewrite (cleanPermissions_unparsed _ _ _ _ _ Hprev). cbn [fst snd].
      by apply report_cleanPermissions_logged with (pre := pre).
    + intros previousConfig Hget. rewrite Hget.
      exists s5, pre, newReceiverNames. split; [done|].
      apply report_cleanPermissions_calls.
  - intros orgAM w' Ham Happly.
    destruct (Hrun orgAM w' Ham Happly) as (s3 & pre & Hpre & Hw & ->).
    assert (Hpre4 : calls (log (CallGetLatestAlertmanagerConfiguration org) s3)
                    = calls s ++ (pre ++ [CallGetLatestAlertmanagerConfiguration org]))
      by (cbn; by rewrite Hpre, <- app_assoc).
    split.
    { destruct (GetLatestAlertmanagerConfiguration org (world s)); [|done].
      cbv zeta. destruct (GetLatestAlertmanagerConfiguration org w'); [|done].
      destruct (notifier.extractReceiverNames _); [|done].
      apply report_cleanPermissions_nil. }
    split.
    + intros err Hget. rewrite Hget. by apply report_cleanPermissions_logged with (pre := pre).
    + intros previousConfig Hget. rewrite Hget. cbv zeta. split.
      * intros err Hget'. rewrite Hget'.
        by eapply report_cleanPermissions_logged.
      * intros defaultedConfig Hget'. rewrite Hget'. split; [|split].
        -- intros err Hnew. rewrite Hnew. by eapply report_cleanPermissions_logged.
        -- intros newReceiverNames err Hnew Hprev. rewrite Hnew.
           rewrite (cleanPermissions_unparsed _ _ _ _ _ Hprev). cbn [fst snd].
           by eapply report_cleanPermissions_logged.
        -- intros newReceiverNames Hnew. rewrite Hnew.
           eexists _, _. split; [exact Hpre4|]. split; [done|].
           apply report_cleanPermissions_calls.
Qed.

Lemma modifyFunc_conflict (extraConfig : ExtraConfiguration) (configs : list ExtraConfiguration) :
  (∃ c, c ∈ configs ∧ Identifier c ≠ Identifier extraConfig) →
  ∃ existing,
    existing ∈ configs ∧ Identifier existing ≠ Identifier extraConfig ∧
    notifier.SaveAndApplyExtraConfiguration_modifyFunc extraConfig configs
      = Err (ErrAlertmanagerMultipleExtraConfigsUnsupported (Identifier existing)).
Proof.
  induction configs as [|c0 configs IH]; intros (c & Hin & Hne).
  - by apply elem_of_nil in Hin.
  - cbn. case_bool_decide as Hc0.
    + exists c0. split; [by left|done].
    + apply elem_of_cons in Hin as [->|Hin]; [done|].
      destruct IH as (existing & Hex & Hdiff & Hrun); [by exists c|].
      exists existing. split; [by right|done].
Qed.

Lemma modifyFunc_same (extraConfig : ExtraConfiguration) (configs : list ExtraConfiguration) :
  (∀ c, c ∈ configs → Identifier c = Identifier extraConfig) →
  notifier.SaveAndApplyExtraConfiguration_modifyFunc extraConfig configs = Ok [extraConfig].
Proof.
  induction configs as [|c0 configs IH]; intros Hsame; [done|].
  cbn. rewrite bool_decide_eq_false_2.
  - apply IH. intros c Hc. apply Hsame. by right.
  - intros Hne. apply Hne, Hsame. by left.
Qed.

(** C6. Let the current configuration of the organisation load and hold at
    least one extra configuration.  If one of them has an identifier other
    than the supplied one, the call fails with the conflict error that names
    the identifier of such an existing extra configuration, having only
    read the store.  If they all have the supplied identifier, the
    configuration handed to the organisation's Alertmanager is the current
    one with the supplied extra configuration as its only one, and the call
    returns [nil] once the Alertmanager has accepted it. *)
Theorem SaveAndApplyExtraConfiguration_single (org : Z) (extraConfig : ExtraConfiguration)
    (s : St W) (currentCfg : AlertConfiguration) (cfg : PostableUserConfig) :
  GetLatestAlertmanagerConfiguration org (world s) = Ok currentCfg →
  Load (ac_AlertmanagerConfiguration currentCfg) = Ok cfg →
  puc_ExtraConfigs cfg ≠ [] →
  let r := notifier.SaveAndApplyExtraConfiguration org extraConfig s in
  let replaced := puc_set_ExtraConfigs [extraConfig] cfg in
  ((∃ c, c ∈ puc_ExtraConfigs cfg ∧ Identifier c ≠ Identifier extraConfig) →
     ∃ existing,
       existing ∈ puc_ExtraConfigs cfg ∧
       Identifier existing ≠ Identifier extraConfig ∧
       r.1 = Some (fmt_Errorf "failed to apply extra configuration"
                     (ErrAlertmanagerMultipleExtraConfigsUnsupported (Identifier existing))) ∧
       r.2 = log (CallGetLatestAlertmanagerConfiguration org) s) ∧
  ((∀ c, c ∈ puc_ExtraConfigs cfg → Identifier c = Identifier extraConfig) →
     ∀ am w',
       AlertmanagerFor org (world s) = AlertmanagerReady am ∨
       AlertmanagerFor org (world s) = AlertmanagerNotReady am →
       am_SaveAndApplyConfig am replaced (world s) = (None, w') →
       r.1 = None ∧ world r.2 = w' ∧
       CallSaveAndApplyConfig replaced true ∈ calls_since s r.2 ∧
       puc_ExtraConfigs replaced = [extraConfig]).
Proof.
  intros Hget Hload Hsome r replaced. subst r.
  unfold notifier.SaveAndApplyExtraConfiguration, notifier.modifyAndApplyExtraConfiguration.
  rewrite ?M_bind_run.
  cbn [notifier.call_GetLatestAlertmanagerConfiguration reading fst snd].
  rewrite Hget, Hload. split.
  - intros Hdiff. destruct (modifyFunc_conflict extraConfig _ Hdiff) as (existing & Hin & Hne & Hrun).
    exists existing. rewrite Hrun. by repeat split.
  - intros Hsame am w' Ham Happly. rewrite (modifyFunc_same _ _ Hsame).
    fold replaced. rewrite ?M_bind_run. cbn [reading fst snd world log set_world].
    assert (Hmade : calls_since s
              (log (LogInfo "Applied alertmanager configuration with extra config")
                 (log (LogInfo "Applied alertmanager configuration with extra config")
                    (log (CallSaveAndApplyConfig replaced true)
                       (set_world w'
                          (log (CallAlertmanagerFor org)
                             (log (CallGetLatestAlertmanagerConfiguration org) s))))))
            = [CallGetLatestAlertmanagerConfiguration org; CallAlertmanagerFor org;
               CallSaveAndApplyConfig replaced true;
               LogInfo "Applied alertmanager configuration with extra config";
               LogInfo "Applied alertmanager configuration with extra config"]).
    { apply calls_since_app. cbn. by rewrite <- !app_assoc. }
    destruct Ham as [Ham|Ham]; rewrite Ham.
    all: rewrite ?M_bind_run; unfold notifier.call_SaveAndApplyConfig.
    all: cbn [world log set_world]; rewrite Happly.
    all: repeat (rewrite ?M_bind_run; unfold mret, M_ret;
                 cbn [fst snd notifier.is_nil notifier.logger_Info]).
    all: split; [done|]; split; [done|]; split; [|done].
    all: rewrite Hmade; set_solver.
Qed.

(** When the assignment of the missing UIDs fails, the whole save fails with
    that error, wrapped, and no Alertmanager is looked up or given the
    configuration. *)
Lemma SaveAndApplyAlertmanagerConfiguration_uid_failure (org : Z) (config : PostableUserConfig)
    (s : St W) (Receivers : list PostableApiReceiver) (err : error) :
  cfg_InhibitRules (paac_Config (puc_AlertmanagerConfig config)) = [] →
  match GetLatestAlertmanagerConfiguration org (world s) with
  | Ok _ => True
  | Err err0 => errors_Is_NoAlertmanagerConfiguration err0 = true
  end →
  ProcessSecureSettings org (paac_Receivers (puc_AlertmanagerConfig config)) (world s)
    = Ok Receivers →
  let s2 := log (CallProcessSecureSettings org)
              (log (CallGetLatestAlertmanagerConfiguration org) s) in
  (notifier.assignReceiverConfigsUIDs Receivers s2).1.1 = Some err →
  notifier.SaveAndApplyAlertmanagerConfiguration org config s
    = (Some (fmt_Errorf "failed to assign missing uids" err),
       (notifier.assignReceiverConfigsUIDs Receivers s2).2).
Proof.
  intros Hrules Hprevious Hprocessed s2 Hassign.
  unfold notifier.SaveAndApplyAlertmanagerConfiguration.
  rewrite Hrules. rewrite bool_decide_eq_false_2 by (cbn; lia).
  rewrite ?M_bind_run.
  cbn [notifier.call_GetLatestAlertmanagerConfiguration reading fst snd].
  destruct (GetLatestAlertmanagerConfiguration org (world s)) as [previousConfig|err0];
    [|rewrite Hprevious; cbn [negb]].
  all: rewrite ?M_bind_run; cbn [reading fst snd world log].
  all: rewrite Hprocessed; rewrite ?M_bind_run; fold s2.
  all: destruct (notifier.assignReceiverConfigsUIDs Receivers s2) as [[err1 Receivers'] s3].
  all: cbn [fst snd] in *; by subst err1.
Qed.

End WritePaths.

(** ** The notification policy service *)

Section OptimisticConcurrency.
Context {W Rev : Type}.
Context `{!legacy_storage.ConfigRevisions Rev, !provisioning.alertmanagerConfigStore W Rev,
          !ProvisioningStore W, !provisioning.TransactionManager W,
          !provisioning.PolicySettings}.

(** The error of [checkOptimisticConcurrency] for a token [desired] that is
    not the version [current] of the stored routing tree. *)
Definition version_conflict (desired current : string) : error :=
  ErrVersionConflict "provided version %s of routing tree does not match current version %s"
    [desired; current].

Lemma checkOptimisticConcurrency_conflict (current : legacy_storage.ManagedRoute)
    (provenance : Provenance) (desiredVersion action : string) (s : St W) :
  desiredVersion ≠ "" →
  legacy_storage.mr_Version current ≠ desiredVersion →
  provisioning.checkOptimisticConcurrency current provenance desiredVersion action s
    = (Some (version_conflict desiredVersion (legacy_storage.mr_Version current)), s).
Proof.
  intros Hgiven Hdiff. unfold provisioning.checkOptimisticConcurrency.
  rewrite bool_decide_eq_false_2 by done. by rewrite bool_decide_eq_true_2 by done.
Qed.

(** C2, as amended. For a stored routing tree and a non-empty version token
    that is not the tree's version, [DeleteManagedRoute] fails with the
    version conflict that names the token and the stored version;
    [UpdateManagedRoute] does the same when the subtree passes validation,
    and fails with the invalid-format error, without so much as reading the
    store, when it does not.  In each case the world is as it was and the
    log has at most the one read of the configuration store: nothing was
    saved and no provenance was written. *)
Theorem stale_version_leaves_stores_unchanged (orgID : Z) (name : string) (subtree : Route)
    (p : Provenance) (version : string) (s : St W) (revision : Rev)
    (existing : legacy_storage.ManagedRoute) :
  provisioning.Get orgID (world s) = Ok revision →
  legacy_storage.GetManagedRoute (provisioning.default_name name) revision = Some existing →
  version ≠ "" →
  legacy_storage.mr_Version existing ≠ version →
  let conflict := version_conflict version (legacy_storage.mr_Version existing) in
  provisioning.DeleteManagedRoute orgID name p version s
    = (Some conflict, log (CallConfigStoreGet orgID) s) ∧
  provisioning.UpdateManagedRoute orgID name subtree p version s
    = match provisioning.Route_Validate subtree with
      | None => (Err conflict, log (CallConfigStoreGet orgID) s)
      | Some err => (Err (ErrRouteInvalidFormat err), s)
      end.
Proof.
  intros Hget Hexisting Hgiven Hdiff conflict. split.
  - unfold provisioning.DeleteManagedRoute.
    rewrite M_bind_run. cbn [provisioning.configStore_Get reading fst snd].
    rewrite Hget, Hexisting, M_bind_run.
    by rewrite checkOptimisticConcurrency_conflict.
  - unfold provisioning.UpdateManagedRoute.
    destruct (provisioning.Route_Validate subtree) as [err|]; [done|].
    rewrite M_bind_run. cbn [provisioning.configStore_Get reading fst snd].
    rewrite Hget, Hexisting, M_bind_run.
    by rewrite checkOptimisticConcurrency_conflict.
Qed.

End OptimisticConcurrency.

Section DeleteThenGet.
Import store_model.
Context `{!store_model.Parameters, !provisioning.PolicySettings}.

Lemma checkOptimisticConcurrency_world {W} (current : legacy_storage.ManagedRoute)
    (provenance : Provenance) (desiredVersion action : string) (s : St W) :
  world (provisioning.checkOptimisticConcurrency current provenance desiredVersion action s).2
    = world s.
Proof.
  unfold provisioning.checkOptimisticConcurrency.
  repeat case_bool_decide; done.
Qed.

(** What [DeleteManagedRoute] leaves in the stores when it returns [nil]:
    the revision it read with the named tree reset to the route of the
    default configuration, or removed, and no provenance for the tree. *)
Lemma DeleteManagedRoute_saved (orgID : Z) (name : string) (p : Provenance) (version : string)
    (s s' : St World) :
  provisioning.DeleteManagedRoute orgID name p version s = (None, s') →
  ∃ revision,
    revisions_of (world s) !! orgID = Some revision ∧
    (provisioning.default_name name = legacy_storage.UserDefinedRoutingTreeName →
     ∃ defaultCfg Route,
       deserialize provisioning.DefaultConfiguration = Ok defaultCfg ∧
       cfg_Route (paac_Config (puc_AlertmanagerConfig defaultCfg)) = Some Route ∧
       revisions_of (world s') !! orgID
         = Some (<[legacy_storage.UserDefinedRoutingTreeName := Route]> revision)) ∧
    (provisioning.default_name name ≠ legacy_storage.UserDefinedRoutingTreeName →
     revisions_of (world s') !! orgID
       = Some (delete (provisioning.default_name name) revision)) ∧
    provenances orgID "route" (world s') !! provisioning.default_name name = None.
Proof.
  unfold provisioning.DeleteManagedRoute.
  rewrite M_bind_run. cbn [provisioning.configStore_Get reading fst snd].
  cbn [provisioning.Get configStore].
  destruct (revisions_of (world s) !! orgID) as [revision|] eqn:Hrev; [|done].
  cbn [legacy_storage.GetManagedRoute revisions].
  unfold GetManagedRoute.
  destruct (revision !! provisioning.default_name name) as [tree|] eqn:Htree; [|done].
  cbn [fmap option_fmap option_map]. rewrite M_bind_run.
  pose proof (checkOptimisticConcurrency_world
                (managed (provisioning.default_name name) tree) p version "delete"
                (log (CallConfigStoreGet orgID) s)) as Hw1.
  destruct (provisioning.checkOptimisticConcurrency _ p version "delete" _) as [err1 s1].
  cbn [fst snd world log] in *. destruct err1 as [err1|]; [done|].
  rewrite M_bind_run.
  cbn [provisioning.provenanceStore_GetProvenance reading fst snd GetProvenance provenanceStore].
  destruct (provisioning.validator _ p) as [err2|]; [done|].
  rewrite M_bind_run.
  intros Hrun. exists revision. split; [done|].
  case_bool_decide as Hname.
  - cbn [legacy_storage.DeserializeAlertmanagerConfig revisions] in Hrun.
    destruct (deserialize provisioning.DefaultConfiguration) as [defaultCfg|err3] eqn:Hcfg;
      [|done].
    destruct (cfg_Route (paac_Config (puc_AlertmanagerConfig defaultCfg))) as [Route|]
      eqn:Hroute; [|done].
    cbn [legacy_storage.UpdateNamedRoute revisions UpdateNamedRoute mret M_ret fst snd
         legacy_storage.GetMergedAlertmanagerConfig] in Hrun.
    destruct (merge_error _) as [err4|]; [done|].
    cbn in Hrun. injection Hrun as <-. cbn.
    split; [|split; [done|]].
    + intros _. exists defaultCfg, Route. split; [done|]. split; [done|].
      by rewrite lookup_insert_eq.
    + unfold provenances. cbn. rewrite lookup_insert_eq. cbn. by rewrite lookup_delete_eq.
  - cbn [mret M_ret fst snd legacy_storage.DeleteManagedRoute revisions
         legacy_storage.GetMergedAlertmanagerConfig] in Hrun.
    destruct (merge_error _) as [err4|]; [done|].
    cbn in Hrun. injection Hrun as <-. cbn.
    split; [done|]. split.
    + intros _. by rewrite lookup_insert_eq.
    + unfold provenances. cbn. rewrite lookup_insert_eq. cbn. by rewrite lookup_delete_eq.
Qed.

(** C7. In the stores modelled from the spec: when [DeleteManagedRoute]
    returns [nil] for the user-defined tree, asked for by its name or by the
    empty name, a later [GetManagedRoute] for that name returns the route of
    the default configuration, with no provenance; when it returns [nil]
    for a tree of another name, a later [GetManagedRoute] for that name
    fails with the not-found error. *)
Theorem DeleteManagedRoute_then_GetManagedRoute (orgID : Z) (name : string) (p : Provenance)
    (version : string) (s s' : St World) :
  provisioning.DeleteManagedRoute orgID name p version s = (None, s') →
  (provisioning.default_name name = legacy_storage.UserDefinedRoutingTreeName →
   ∃ defaultCfg Route,
     deserialize provisioning.DefaultConfiguration = Ok defaultCfg ∧
     cfg_Route (paac_Config (puc_AlertmanagerConfig defaultCfg)) = Some Route ∧
     (provisioning.GetManagedRoute orgID name s').1
       = Ok (managed legacy_storage.UserDefinedRoutingTreeName Route)) ∧
  (provisioning.default_name name ≠ legacy_storage.UserDefinedRoutingTreeName →
   (provisioning.GetManagedRoute orgID name s').1
     = Err (ErrRouteNotFound "route %q not found" [name])).
Proof.
  intros Hrun.
  destruct (DeleteManagedRoute_saved _ _ _ _ _ _ Hrun)
    as (revision & Hrev & Hreset & Hremoved & Hprov).
  unfold provisioning.GetManagedRoute.
  rewrite M_bind_run. cbn [provisioning.configStore_Get reading fst snd].
  cbn [provisioning.Get configStore]. split.
  - intros Hname. destruct (Hreset Hname) as (defaultCfg & Route & Hcfg & Hroute & Hsaved).
    exists defaultCfg, Route. split; [done|]. split; [done|].
    rewrite Hsaved. cbn [legacy_storage.GetManagedRoute revisions]. unfold GetManagedRoute.
    rewrite Hname, lookup_insert_eq. cbn [fmap option_fmap option_map].
    rewrite M_bind_run.
    cbn [provisioning.provenanceStore_GetProvenance reading fst snd GetProvenance
         provenanceStore world log legacy_storage.ManagedRoute_Provisionable revisions
         ResourceType ResourceID managed legacy_storage.mr_Name].
    rewrite Hname in Hprov. by rewrite Hprov.
  - intros Hname. rewrite (Hremoved Hname).
    cbn [legacy_storage.GetManagedRoute revisions]. unfold GetManagedRoute.
    rewrite lookup_delete_eq. cbn [fmap option_fmap option_map mret M_ret fst].
    unfold provisioning.default_name in *. by case_bool_decide.
Qed.

End DeleteThenGet.

(** ** The read path *)

Section ReadPath.
Context {W : Type}.
Context `{!External, !ProvisioningStore W}.

(** The first two reads of [mergeProvenance] hand their error to the
    caller. *)
Lemma mergeProvenance_contactPoint_failure (config : GettableUserConfig) (org : Z)
    (s : St W) (err : error) :
  cfg_Route (gaac_Config (guc_AlertmanagerConfig config)) = None →
  GetProvenances org EmbeddedContactPoint_ResourceType (world s) = Err err →
  (notifier.mergeProvenance config org s).1 = Err err.
Proof.
  intros Hroute Hcp. unfold notifier.mergeProvenance. rewrite Hroute.
  rewrite ?M_bind_run. unfold mret, M_ret. cbn [fst snd].
  rewrite ?M_bind_run. cbn [notifier.call_GetProvenances reading fst snd].
  by rewrite Hcp.
Qed.

(** The last two reads do not: when the template provenances cannot be
    read, [mergeProvenance] returns the zero configuration and no error. *)
Lemma mergeProvenance_swallows_template_failure (config : GettableUserConfig) (org : Z)
    (s : St W) (cpProvs : gmap string Provenance) (err : error) :
  cfg_Route (gaac_Config (guc_AlertmanagerConfig config)) = None →
  GetProvenances org EmbeddedContactPoint_ResourceType (world s) = Ok cpProvs →
  GetProvenances org NotificationTemplate_ResourceType (world s) = Err err →
  (notifier.mergeProvenance config org s).1 = Ok GettableUserConfig_zero.
Proof.
  intros Hroute Hcp Htmpl. unfold notifier.mergeProvenance. rewrite Hroute.
  rewrite ?M_bind_run. unfold mret, M_ret. cbn [fst snd].
  rewrite ?M_bind_run. cbn [notifier.call_GetProvenances reading fst snd world log].
  rewrite Hcp. rewrite ?M_bind_run.
  cbn [notifier.call_GetProvenances reading fst snd world log].
  by rewrite Htmpl.
Qed.

(** The same when the mute-timing provenances cannot be read. *)
Lemma mergeProvenance_swallows_muteTiming_failure (config : GettableUserConfig) (org : Z)
    (s : St W) (cpProvs tmplProvs : gmap string Provenance) (err : error) :
  cfg_Route (gaac_Config (guc_AlertmanagerConfig config)) = None →
  GetProvenances org EmbeddedContactPoint_ResourceType (world s) = Ok cpProvs →
  GetProvenances org NotificationTemplate_ResourceType (world s) = Ok tmplProvs →
  GetProvenances org MuteTimeInterval_ResourceType (world s) = Err err →
  (notifier.mergeProvenance config org s).1 = Ok GettableUserConfig_zero.
Proof.
  intros Hroute Hcp Htmpl Hmt. unfold notifier.mergeProvenance. rewrite Hroute.
  rewrite ?M_bind_run. unfold mret, M_ret. cbn [fst snd].
  rewrite ?M_bind_run. cbn [notifier.call_GetProvenances reading fst snd world log].
  rewrite Hcp. rewrite ?M_bind_run.
  cbn [notifier.call_GetProvenances reading fst snd world log].
  rewrite Htmpl. rewrite ?M_bind_run.
  cbn [notifier.call_GetProvenances reading fst snd world log].
  by rewrite Hmt.
Qed.

(** When the four reads succeed, the configuration comes back with the
    provenance of the route, of the contact points, of the templates and of
    the mute timings. *)
Lemma mergeProvenance_merges (config : GettableUserConfig) (org : Z) (s : St W)
    (routed : GettableUserConfig) (cpProvs tmplProvs mtProvs : gmap string Provenance) :
  match cfg_Route (gaac_Config (guc_AlertmanagerConfig config)) with
  | Some route =>
      ∃ provenance,
        GetProvenance (Route_Provisionable route) org (world s) = Ok provenance ∧
        routed = notifier.guc_set_Route (route_set_Provenance provenance route) config
  | None => routed = config
  end →
  GetProvenances org EmbeddedContactPoint_ResourceType (world s) = Ok cpProvs →
  GetProvenances org NotificationTemplate_ResourceType (world s) = Ok tmplProvs →
  GetProvenances org MuteTimeInterval_ResourceType (world s) = Ok mtProvs →
  (notifier.mergeProvenance config org s).1
    = Ok (notifier.guc_set_MuteTimeProvenances mtProvs
            (notifier.guc_set_TemplateFileProvenances tmplProvs
               (notifier.guc_set_Receivers
                  (notifier.merge_contactPoints cpProvs
                     (gaac_Receivers (guc_AlertmanagerConfig routed)))
                  routed))).
Proof.
  intros Hroute Hcp Htmpl Hmt. unfold notifier.mergeProvenance.
  destruct (cfg_Route (gaac_Config (guc_AlertmanagerConfig config))) as [route|].
  - destruct Hroute as (provenance & Hprov & ->).
    rewrite ?M_bind_run. cbn [reading fst snd world log]. rewrite Hprov.
    unfold mret, M_ret. cbn [fst snd].
    rewrite ?M_bind_run. cbn [notifier.call_GetProvenances reading fst snd world log].
    rewrite Hcp. rewrite ?M_bind_run.
    cbn [notifier.call_GetProvenances reading fst snd world log].
    rewrite Htmpl. rewrite ?M_bind_run.
    cbn [notifier.call_GetProvenances reading fst snd world log].
    by rewrite Hmt.
  - subst routed.
    rewrite ?M_bind_run. unfold mret, M_ret. cbn [fst snd].
    rewrite ?M_bind_run. cbn [notifier.call_GetProvenances reading fst snd world log].
    rewrite Hcp. rewrite ?M_bind_run.
    cbn [notifier.call_GetProvenances reading fst snd world log].
    rewrite Htmpl. rewrite ?M_bind_run.
    cbn [notifier.call_GetProvenances reading fst snd world log].
    by rewrite Hmt.
Qed.

End ReadPath.

(** ** [extractReceiverNames]: absent sections, nameless receivers, names of
    the wrong kind *)

Section ExtractReceiverNamesEdges.
Context `{!External}.

(** [v] is the value of the only member of [ms] that selects [field], and
    is [JNull] when no member does. *)
Definition member_or_null (field : string) (ms : list (string * json)) (v : json) : Prop :=
  sole_member field ms v ∨
  (v = JNull ∧ Forall (λ m, notifier.key_matches field m.1 = false) ms).

(** The elements of [alertmanager_config.receivers], none when the document,
    the section or the array is [null] or absent. *)
Definition receivers_of (doc : json) (rs : list json) : Prop :=
  (doc = JNull ∧ rs = []) ∨
  ∃ top am,
    doc = JObject top ∧ member_or_null "alertmanager_config" top am ∧
    ((am = JNull ∧ rs = []) ∨
     ∃ ams r,
       am = JObject ams ∧ member_or_null "receivers" ams r ∧
       ((r = JNull ∧ rs = []) ∨ r = JArray rs)).

(** The name that one element of [receivers] stands for. *)
Inductive receiver_yields : json → string → Prop :=
  | yields_name ms name :
      sole_member "name" ms (JString name) → receiver_yields (JObject ms) name
  | yields_null_name ms :
      sole_member "name" ms JNull → receiver_yields (JObject ms) ""
  | yields_no_name ms :
      Forall (λ m, notifier.key_matches "name" m.1 = false) ms →
      receiver_yields (JObject ms) ""
  | yields_null : receiver_yields JNull "".

Lemma decode_members_or_null {A} field
    (dec : json → A * option error → A * option error) ms v st :
  member_or_null field ms v →
  dec JNull st = st →
  notifier.decode_members field dec ms st = dec v st.
Proof.
  intros [Hsole|[-> Hnone]] Hnull.
  - by apply decode_members_sole.
  - rewrite Hnull. by apply decode_members_skip.
Qed.

Lemma decode_receiver_yields path r name saved :
  receiver_yields r name →
  notifier.decode_receiver path r ("", saved) = (name, saved).
Proof.
  intros [ms n Hsole|ms Hsole|ms Hnone|]; cbn.
  - by rewrite (decode_members_sole _ _ _ _ _ Hsole).
  - by rewrite (decode_members_sole _ _ _ _ _ Hsole).
  - by rewrite (decode_members_skip _ _ _ _ Hnone).
  - done.
Qed.

Lemma decode_items_yields path i rs names saved :
  Forall2 receiver_yields rs names →
  notifier.decode_items path i rs [] saved = (names, saved).
Proof.
  intros Hrs. revert i.
  induction Hrs as [|r n rs names Hr _ IH]; intros i; [done|].
  cbn. rewrite (decode_receiver_yields _ _ _ _ Hr). cbn. by rewrite IH.
Qed.

(** X1. The lenient cases of the slim decoder.  A document that is [null],
    or an object whose [alertmanager_config] is absent or [null], or whose
    [receivers] is absent, [null] or empty, has no receiver name and is no
    error; within [receivers], an element that is [null], or an object
    without [name] or with a [null] name, counts as the empty name. *)
Theorem extractReceiverNames_lenient (rawConfig : string) (doc : json) (rs : list json)
    (names : list string) :
  json_parse rawConfig = Some doc →
  receivers_of doc rs →
  Forall2 receiver_yields rs names →
  notifier.extractReceiverNames rawConfig = Ok (list_to_set names).
Proof.
  intros Hparse Hdoc Hrs.
  assert (Hset : ∀ l : list string,
            foldl (λ (receiverNames : gset string) Name, {[Name]} ∪ receiverNames) ∅ l
              = list_to_set l).
  { intros l. rewrite (foldl_insert_names id), list_fmap_id. set_solver. }
  assert (Hnil : names = [] ∨ rs ≠ []).
  { destruct Hrs; [by left|by right]. }
  unfold notifier.extractReceiverNames, notifier.json_Unmarshal. rewrite Hparse.
  destruct Hdoc as [[-> ->]|(top & am & -> & Htop & Ham)].
  { destruct Hnil as [->|]; done. }
  cbn. rewrite (decode_members_or_null _ _ _ _ _ Htop) by done.
  destruct Ham as [[-> ->]|(ams & r & -> & Hams & Hr)].
  { cbn. destruct Hnil as [->|]; done. }
  cbn. rewrite (decode_members_or_null _ _ _ _ _ Hams) by done.
  destruct Hr as [[-> ->]| ->].
  { cbn. destruct Hnil as [->|]; done. }
  cbn. rewrite (decode_items_yields _ _ _ _ _ Hrs). cbn. by rewrite Hset.
Qed.

(** The decoder never drops an error it has saved. *)
Definition keeps_error {A} (dec : json → A * option error → A * option error) : Prop :=
  ∀ v a e, (dec v (a, Some e)).2 = Some e.

Lemma decode_members_keeps {A} field (dec : json → A * option error → A * option error) :
  keeps_error dec → ∀ ms a e, (notifier.decode_members field dec ms (a, Some e)).2 = Some e.
Proof.
  intros Hdec ms. unfold notifier.decode_members.
  induction ms as [|m ms IH]; intros a e; [done|].
  cbn. destruct (notifier.key_matches field m.1); [|apply IH].
  specialize (Hdec m.2 a e). destruct (dec m.2 (a, Some e)) as [a' saved].
  cbn in Hdec. subst saved. apply IH.
Qed.

Lemma decode_name_keeps path : keeps_error (notifier.decode_name path).
Proof. intros v a e. by destruct v. Qed.

Lemma decode_receiver_keeps path : keeps_error (notifier.decode_receiver path).
Proof.
  intros v a e. destruct v; try done. cbn.
  apply decode_members_keeps, decode_name_keeps.
Qed.

Lemma decode_items_keeps path i items old e :
  (notifier.decode_items path i items old (Some e)).2 = Some e.
Proof.
  revert i old. induction items as [|v items IH]; intros i old; [done|].
  cbn. rewrite decode_receiver_keeps. apply IH.
Qed.

(** The first receiver whose [name] is neither a string nor [null] leaves
    a type error that names the kind of the value found and the path to
    it. *)
Lemma decode_items_wrong_kind path i pre ms v post names old :
  Forall2 receiver_yields pre names →
  sole_member "name" ms v →
  (∀ s, v ≠ JString s) → v ≠ JNull →
  old = [] →
  (notifier.decode_items path i (pre ++ JObject ms :: post) old None).2
    = Some (notifier.typeError v (path ++ [Index (i + length pre)%nat; Member "name"])).
Proof.
  intros Hpre Hsole Hstring Hnull ->. revert i.
  induction Hpre as [|r n pre names Hr _ IH]; intros i; cbn.
  - rewrite (decode_members_sole _ _ _ _ _ Hsole).
    rewrite Nat.add_0_r, <- app_assoc. cbn [app].
    assert (Hv : notifier.decode_name (path ++ [Index i; Member "name"]) v ("", None)
                   = ("", Some (notifier.typeError v (path ++ [Index i; Member "name"])))).
    { destruct v; try done. by destruct (Hstring s). }
    rewrite Hv. cbn. apply decode_items_keeps.
  - rewrite (decode_receiver_yields _ _ _ _ Hr). cbn.
    rewrite IH. by rewrite Nat.add_succ_r.
Qed.

(** X2. Where the leniency ends: when the [name] of a receiver is a number,
    a boolean, an array or an object, the receivers before it being
    well-formed or nameless and those after it being anything, the
    extraction fails as a whole, with the type error that names the kind of
    that value. *)
Theorem extractReceiverNames_name_of_wrong_kind (rawConfig : string)
    (top am : list (string * json)) (pre post : list json) (ms : list (string * json))
    (v : json) (names : list string) :
  json_parse rawConfig = Some (JObject top) →
  sole_member "alertmanager_config" top (JObject am) →
  sole_member "receivers" am (JArray (pre ++ JObject ms :: post)) →
  Forall2 receiver_yields pre names →
  sole_member "name" ms v →
  (∀ s, v ≠ JString s) → v ≠ JNull →
  ∃ field,
    notifier.extractReceiverNames rawConfig
      = Err (fmt_Errorf "unable to parse Alertmanager configuration"
               (UnmarshalTypeError (json_kind v) field)).
Proof.
  intros Hparse Htop Ham Hpre Hsole Hstring Hnull.
  exists (UnmarshalTypeError_Field
            [Member "alertmanager_config"; Member "receivers"; Index (length pre);
             Member "name"]).
  unfold notifier.extractReceiverNames, notifier.json_Unmarshal. rewrite Hparse.
  cbn. rewrite (decode_members_sole _ _ _ _ _ Htop). cbn.
  rewrite (decode_members_sole _ _ _ _ _ Ham). cbn.
  pose proof (decode_items_wrong_kind
                [Member "alertmanager_config"; Member "receivers"] 0 pre ms v post names []
                Hpre Hsole Hstring Hnull eq_refl) as Hsaved.
  destruct (notifier.decode_items _ _ _ [] None) as [Receivers saved].
  cbn in Hsaved. by subst saved.
Qed.

End ExtractReceiverNamesEdges.

(** ** [cleanPermissions]: when it does nothing, and what it returns *)

Section CleanPermissionsResult.
Context {W : Type} `{!External, !ReceiverPermissions W}.

Lemma range_set_empty : range_set (∅ : gset string) = [].
Proof.
  apply Permutation_nil_r. rewrite range_set_elements. by rewrite elements_empty.
Qed.

(** X3. With the receiver names of the previous configuration as the new
    names, [cleanPermissions] returns [nil] and leaves the state as it
    found it: no permission is deleted and none installed. *)
Theorem cleanPermissions_same_names (orgID : Z) (previousConfig : AlertConfiguration)
    (names : gset string) (s : St W) :
  notifier.extractReceiverNames (ac_AlertmanagerConfiguration previousConfig) = Ok names →
  notifier.cleanPermissions orgID previousConfig names s = (None, s).
Proof.
  intros Hprev. unfold notifier.cleanPermissions. rewrite Hprev.
  replace (names ∖ names) with (∅ : gset string) by set_solver.
  by rewrite range_set_empty.
Qed.

(** The calls of [cleanPermissions] when the previous configuration
    parses: the deletions, then the installs, in the order of the two
    loops. *)
Lemma cleanPermissions_run (orgID : Z) (previousConfig : AlertConfiguration)
    (previousReceiverNames newReceiverNames : gset string) (s : St W) :
  notifier.extractReceiverNames (ac_AlertmanagerConfiguration previousConfig)
    = Ok previousReceiverNames →
  ∃ made,
    calls (notifier.cleanPermissions orgID previousConfig newReceiverNames s).2
      = calls s ++ made ∧
    deletions made
      = (λ n, (orgID, NameToUid n)) <$> range_set (previousReceiverNames ∖ newReceiverNames) ∧
    default_installs made
      = (λ n, (orgID, NameToUid n)) <$> range_set (newReceiverNames ∖ previousReceiverNames) ∧
    Forall is_permission_call made.
Proof.
  intros Hprev. unfold notifier.cleanPermissions. rewrite Hprev.
  unfold mbind, M_bind.
  destruct (delete_loop_calls orgID (range_set (previousReceiverNames ∖ newReceiverNames)) [] s)
    as (made1 & Hcalls1 & Hdel1 & Hdef1 & Hperm1).
  destruct (for_range (range_set (previousReceiverNames ∖ newReceiverNames)) _ [] s)
    as [errs s1]. cbn in Hcalls1.
  destruct (install_loop_calls orgID (range_set (newReceiverNames ∖ previousReceiverNames)) s1)
    as (made2 & Hcalls2 & Hdel2 & Hdef2 & Hperm2).
  destruct (for_range (range_set (newReceiverNames ∖ previousReceiverNames)) _ tt s1)
    as [u s2]. cbn in Hcalls2. cbn.
  exists (made1 ++ made2). split; [by rewrite Hcalls2, Hcalls1, app_assoc|].
  unfold deletions, default_installs in *. rewrite !omap_app.
  rewrite Hdel1, Hdel2, Hdef1, Hdef2, app_nil_r. cbn.
  split; [done|]. split; [done|]. by apply Forall_app.
Qed.

(** The errors that the loop over the deleted receivers collects: one for
    each deletion that failed. *)
Lemma delete_loop_errors (orgID : Z) (l : list string) (errs errs' : list error)
    (s s' : St W) :
  for_range l (notifier.delete_permissions orgID) errs s = (errs', s') →
  ∃ made,
    calls s' = calls s ++ made ∧
    length errs' = (length errs + length (filter (λ c, failed_deletion c = true) made))%nat.
Proof.
  revert errs s. induction l as [|n l IH]; intros errs s.
  - intros [= <- <-]. exists []. rewrite app_nil_r. cbn. split; [done|lia].
  - cbn. unfold mbind, M_bind at 1.
    unfold notifier.delete_permissions at 1. unfold mbind, M_bind at 1.
    unfold notifier.call_DeleteResourcePermissions at 1.
    destruct (DeleteResourcePermissions orgID (NameToUid n) (world s)) as [err w].
    set (s1 := log _ (set_world w s)).
    assert (Hs1 : calls s1 = calls s ++ [CallDeleteResourcePermissions orgID (NameToUid n)
                                           (bool_decide (err = None))]) by done.
    destruct err as [err|]; cbn; intros Hrun.
    + destruct (IH _ _ Hrun) as (made & Hcalls & Hlen).
      exists (CallDeleteResourcePermissions orgID (NameToUid n) false :: made).
      rewrite Hcalls, Hs1, <- app_assoc. split; [done|].
      rewrite filter_cons, decide_True by done. rewrite Hlen, length_app. cbn. lia.
    + destruct (IH _ _ Hrun) as (made & Hcalls & Hlen).
      exists (CallDeleteResourcePermissions orgID (NameToUid n) true :: made).
      rewrite Hcalls, Hs1, <- app_assoc. split; [done|].
      rewrite filter_cons, decide_False by done. by rewrite Hlen.
Qed.

Lemma install_loop_none_failed (orgID : Z) (l : list string) (s : St W) :
  ∃ made,
    calls (for_range l (notifier.install_permissions orgID) tt s).2 = calls s ++ made ∧
    filter (λ c, failed_deletion c = true) made = [].
Proof.
  revert s. induction l as [|n l IH]; intros s.
  - exists []. cbn. by rewrite app_nil_r.
  - cbn. unfold mbind, M_bind at 1.
    unfold notifier.install_permissions at 1, notifier.call_SetDefaultPermissions at 1.
    set (s1 := log _ (set_world _ s)).
    assert (Hs1 : calls s1 = calls s ++ [CallSetDefaultPermissions orgID (NameToUid n)]) by done.
    destruct (IH s1) as (made & Hcalls & Hnone).
    exists (CallSetDefaultPermissions orgID (NameToUid n) :: made).
    rewrite Hcalls, Hs1, <- app_assoc. split; [done|].
    by rewrite filter_cons, decide_False by done.
Qed.

(** X4. [cleanPermissions] returns [nil] exactly when the previous
    configuration parses and no deletion failed.  When the previous
    configuration parses, a failed deletion stops nothing: the call asks
    for the deletion of the permissions of every receiver name that only
    the previous configuration has and for the default permissions of every
    name that only the new one has, in the order in which the two sets are
    ranged over, whichever deletions fail; and the error returned joins
    one error for each deletion that failed. *)
Theorem cleanPermissions_nil_iff (orgID : Z) (previousConfig : AlertConfiguration)
    (newReceiverNames : gset string) (s : St W) :
  let run := notifier.cleanPermissions orgID previousConfig newReceiverNames s in
  let made := calls_since s run.2 in
  let failed := filter (λ c, failed_deletion c = true) made in
  (run.1 = None ↔
     (∃ names, notifier.extractReceiverNames (ac_AlertmanagerConfiguration previousConfig)
                 = Ok names) ∧
     failed = []) ∧
  (∀ names,
     notifier.extractReceiverNames (ac_AlertmanagerConfiguration previousConfig) = Ok names →
     deletions made
       = (λ n, (orgID, NameToUid n)) <$> range_set (names ∖ newReceiverNames) ∧
     default_installs made
       = (λ n, (orgID, NameToUid n)) <$> range_set (newReceiverNames ∖ names) ∧
     ∃ errs, run.1 = errors_Join errs ∧ length errs = length failed).
Proof.
  cbv zeta.
  assert (Hmade : ∀ names,
            notifier.extractReceiverNames (ac_AlertmanagerConfiguration previousConfig)
              = Ok names →
            deletions
              (calls_since s (notifier.cleanPermissions orgID previousConfig newReceiverNames s).2)
              = (λ n, (orgID, NameToUid n)) <$> range_set (names ∖ newReceiverNames) ∧
            default_installs
              (calls_since s (notifier.cleanPermissions orgID previousConfig newReceiverNames s).2)
              = (λ n, (orgID, NameToUid n)) <$> range_set (newReceiverNames ∖ names)).
  { intros names Hprev.
    destruct (cleanPermissions_run orgID previousConfig names newReceiverNames s Hprev)
      as (made & Hcalls & Hdel & Hdef & _).
    by rewrite (calls_since_app s _ made Hcalls). }
  revert Hmade. unfold notifier.cleanPermissions.
  destruct (notifier.extractReceiverNames _) as [previousReceiverNames|err].
  2:{ cbn. intros _. split; [|done]. split; [done|by intros ((names & ?) & _)]. }
  unfold mbind, M_bind.
  destruct (for_range (range_set (previousReceiverNames ∖ newReceiverNames)) _ [] s)
    as [errs s1] eqn:Hloop1.
  destruct (delete_loop_errors _ _ _ _ _ _ Hloop1) as (made1 & Hcalls1 & Hlen).
  destruct (install_loop_none_failed orgID
              (range_set (newReceiverNames ∖ previousReceiverNames)) s1)
    as (made2 & Hcalls2 & Hnone).
  destruct (for_range (range_set (newReceiverNames ∖ previousReceiverNames)) _ tt s1)
    as [u s2]. unfold mret, M_ret. cbn [fst snd] in *.
  rewrite (calls_since_app s s2 (made1 ++ made2)) by (by rewrite Hcalls2, Hcalls1, app_assoc).
  rewrite filter_app, Hnone, app_nil_r. cbn [length] in Hlen.
  intros Hmade. split.
  - split.
    + intros Hnil. split; [by eexists|].
      destruct errs; [|done]. cbn in Hlen. by apply nil_length_inv.
    + intros (_ & Hfailed). rewrite Hfailed in Hlen. cbn in Hlen.
      apply nil_length_inv in Hlen. by subst errs.
  - intros names [= <-]. destruct (Hmade previousReceiverNames eq_refl) as (Hdel & Hdef).
    split; [done|]. split; [done|]. by exists errs.
Qed.

End CleanPermissionsResult.

(** ** [assignReceiverConfigsUIDs]: receivers that have their UIDs *)

Section AssignUIDsComplete.
Context {W : Type} `{!External}.

Lemma assign_managed_nothing_missing (grs : list PostableGrafanaReceiver)
    (seenUIDs : gset string) (s : St W) :
  Forall (λ gr, pgr_UID gr ≠ "") grs →
  notifier.assign_managed grs seenUIDs s
    = ((None, grs, list_to_set (pgr_UID <$> reverse grs) ∪ seenUIDs), s).
Proof.
  revert seenUIDs. induction grs as [|gr grs IH]; intros seenUIDs Hall.
  - cbn. unfold mret, M_ret. do 2 f_equal. set_solver.
  - inversion Hall as [|? ? Hgr Hgrs]; subst.
    cbn [notifier.assign_managed]. unfold mbind, M_bind, notifier.assign_one.
    rewrite bool_decide_eq_false_2 by done. unfold mret, M_ret.
    rewrite (IH _ Hgrs). do 2 f_equal.
    rewrite reverse_cons, fmap_app, list_to_set_app_L. cbn. set_solver.
Qed.

Lemma assign_receivers_nothing_missing (c : list PostableApiReceiver) (seenUIDs : gset string)
    (s : St W) :
  Forall (λ gr, pgr_UID gr ≠ "") (visited c) →
  ∃ seenUIDs', notifier.assign_receivers c seenUIDs s = ((None, c, seenUIDs'), s).
Proof.
  revert seenUIDs. induction c as [|r c IH]; intros seenUIDs Hall.
  - by eexists.
  - rewrite visited_cons in Hall. apply Forall_app in Hall as [Hr Hc].
    cbn [notifier.assign_receivers]. unfold is_grafana in Hr.
    destruct (receiver_Type r).
    + unfold mbind, M_bind. rewrite (assign_managed_nothing_missing _ _ _ Hr).
      destruct (IH (list_to_set (pgr_UID <$> reverse (par_GrafanaManagedReceivers r)) ∪ seenUIDs) Hc)
        as (seen' & ->).
      exists seen'. unfold mret, M_ret. by destruct r.
    + unfold mbind, M_bind. destruct (IH seenUIDs Hc) as (seen' & ->). by exists seen'.
    + unfold mbind, M_bind. destruct (IH seenUIDs Hc) as (seen' & ->). by exists seen'.
Qed.

(** X5. When every Grafana-managed receiver that the call visits has a
    UID, [assignReceiverConfigsUIDs] returns [nil], leaves the receivers as
    they were and generates no identifier: the state is the one it found. *)
Theorem assignReceiverConfigsUIDs_nothing_missing (c : list PostableApiReceiver) (s : St W) :
  Forall (λ gr, pgr_UID gr ≠ "") (visited c) →
  notifier.assignReceiverConfigsUIDs c s = ((None, c), s).
Proof.
  intros Hall. unfold notifier.assignReceiverConfigsUIDs, mbind, M_bind.
  by destruct (assign_receivers_nothing_missing c ∅ s Hall) as (seen' & ->).
Qed.

(** X6. When [assignReceiverConfigsUIDs] returns [nil], no Grafana-managed
    receiver that it visited is left without UID. *)
Theorem assignReceiverConfigsUIDs_complete (c : list PostableApiReceiver) (s : St W) :
  (notifier.assignReceiverConfigsUIDs c s).1.1 = None →
  Forall (λ gr, pgr_UID gr ≠ "")
         (visited_in c (notifier.assignReceiverConfigsUIDs c s).1.2).
Proof.
  destruct (assignReceiverConfigsUIDs_run c s) as (seen' & Hrun).
  destruct (notifier.assignReceiverConfigsUIDs c s) as [[err c'] s'].
  cbn [fst snd] in *. intros ->.
  destruct (assign_receivers_flat _ _ _ _ _ _ _ Hrun) as (Hflat & _).
  destruct (assign_managed_spec _ _ _ _ _ _ _ Hflat) as (_ & _ & Hsame & _ & Hok).
  destruct (Hok eq_refl) as (_ & Hfresh).
  apply Forall_lookup. intros i gr' Hi.
  destruct (Forall2_lookup_r _ _ _ _ _ Hsame Hi) as (gr & Hgr & _ & Hkept).
  destruct (decide (pgr_UID gr = "")) as [Hmiss|Hhas].
  - destruct (Hfresh i gr Hgr Hmiss) as (gr'' & k & Hlook & Hne & _).
    by assert (gr'' = gr') as -> by congruence.
  - by rewrite (Hkept Hhas).
Qed.

End AssignUIDsComplete.

(** ** The write paths: what an error means, and what [nil] means *)

(** The call is no accepted application and no permission call. *)
Definition inert (c : Call) : Prop :=
  applied c = false ∧ deletion c = None ∧ default_install c = None.

(** From [s] to [s'] the log only grew, and by calls that satisfy [P]. *)
Definition only {W} (P : Call → Prop) (s s' : St W) : Prop :=
  ∃ made, calls s' = calls s ++ made ∧ Forall P made.

Section Steps.
Context {W : Type} `{!External}.
Implicit Types (P : Call → Prop) (s : St W).

Lemma only_refl P s : only P s s.
Proof. exists []. by rewrite app_nil_r. Qed.

Lemma only_trans P s1 s2 s3 : only P s1 s2 → only P s2 s3 → only P s1 s3.
Proof.
  intros (m1 & H1 & Hq1) (m2 & H2 & Hq2). exists (m1 ++ m2).
  split; [by rewrite H2, H1, app_assoc|by apply Forall_app].
Qed.

Lemma only_logged P (c : Call) s s' : P c → only P s s' → only P s (log c s').
Proof.
  intros Hc (made & Hcalls & Hmade). exists (made ++ [c]).
  split; [by cbn; rewrite Hcalls, app_assoc|]. apply Forall_app. by split; [|constructor].
Qed.

Lemma only_set_world P (w : W) s s' : only P s s' → only P s (set_world w s').
Proof. done. Qed.

Lemma only_calls_since P s s' : only P s s' → Forall P (calls_since s s').
Proof.
  intros (made & Hcalls & Hmade). unfold calls_since. by rewrite Hcalls, drop_app_length.
Qed.

Lemma only_weaken P (Q : Call → Prop) s s' : (∀ c, P c → Q c) → only P s s' → only Q s s'.
Proof.
  intros HPQ (made & Hcalls & Hmade). exists made. split; [done|].
  eapply Forall_impl; eauto.
Qed.

(** The call is the generation of an identifier. *)
Definition generation (c : Call) : Prop := ∃ uid, c = CallGenerateShortUID uid.

Lemma retry_GenerateShortUID_only (rounds : nat) (seenUIDs : gset string) s :
  only generation s (notifier.retry_GenerateShortUID rounds seenUIDs s).2.
Proof.
  revert s. induction rounds as [|rounds IH]; intros s; cbn.
  - apply only_refl.
  - unfold mbind, M_bind, notifier.GenerateShortUID.
    set (s1 := {| world := world s; uid_draws := S (uid_draws s); calls := _ |}).
    assert (Hs1 : only generation s s1).
    { eexists [_]. split; [done|]. constructor; [by eexists|done]. }
    case_bool_decide; [|done].
    eapply only_trans; [exact Hs1|apply IH].
Qed.

Lemma assign_one_only (gr : PostableGrafanaReceiver) (seenUIDs : gset string) s :
  only generation s (notifier.assign_one gr seenUIDs s).2.
Proof.
  unfold notifier.assign_one. case_bool_decide; [|apply only_refl].
  unfold mbind, M_bind.
  pose proof (retry_GenerateShortUID_only 5 seenUIDs s) as Hq.
  destruct (notifier.retry_GenerateShortUID 5 seenUIDs s) as [uid s1].
  by case_bool_decide.
Qed.

Lemma assign_managed_only (grs : list PostableGrafanaReceiver) (seenUIDs : gset string) s :
  only generation s (notifier.assign_managed grs seenUIDs s).2.
Proof.
  revert seenUIDs s. induction grs as [|gr grs IH]; intros seenUIDs s; cbn.
  - apply only_refl.
  - unfold mbind, M_bind.
    pose proof (assign_one_only gr seenUIDs s) as Hq.
    destruct (notifier.assign_one gr seenUIDs s) as [[[err1 gr1] seen1] s1].
    destruct err1; [done|].
    pose proof (IH seen1 s1) as Hq2.
    destruct (notifier.assign_managed grs seen1 s1) as [[[err2 grs2] seen2] s2].
    by eapply only_trans.
Qed.

Lemma assign_receivers_only (c : list PostableApiReceiver) (seenUIDs : gset string) s :
  only generation s (notifier.assign_receivers c seenUIDs s).2.
Proof.
  revert seenUIDs s. induction c as [|r c IH]; intros seenUIDs s; cbn.
  - apply only_refl.
  - unfold mbind, M_bind.
    destruct (receiver_Type r).
    + pose proof (assign_managed_only (par_GrafanaManagedReceivers r) seenUIDs s) as Hq.
      destruct (notifier.assign_managed _ seenUIDs s) as [[[err1 grs1] seen1] s1].
      destruct err1; [done|].
      pose proof (IH seen1 s1) as Hq2.
      destruct (notifier.assign_receivers c seen1 s1) as [[[err2 c2] seen2] s2].
      by eapply only_trans.
    + pose proof (IH seenUIDs s) as Hq.
      by destruct (notifier.assign_receivers c seenUIDs s) as [[[err2 c2] seen2] s2].
    + pose proof (IH seenUIDs s) as Hq.
      by destruct (notifier.assign_receivers c seenUIDs s) as [[[err2 c2] seen2] s2].
Qed.

Lemma assignReceiverConfigsUIDs_only (c : list PostableApiReceiver) s :
  only generation s (notifier.assignReceiverConfigsUIDs c s).2.
Proof.
  unfold notifier.assignReceiverConfigsUIDs, mbind, M_bind.
  pose proof (assign_receivers_only c ∅ s) as Hq.
  by destruct (notifier.assign_receivers c ∅ s) as [[[err c'] seen'] s'].
Qed.

Lemma generation_inert (c : Call) : generation c → inert c.
Proof. by intros (uid & ->). Qed.

End Steps.

Section WritePathsEnds.
Context {W : Type}.
Context `{!External, !ConfigurationStore W, !ProvisioningStore W, !Crypto W,
          !ReceiverPermissions W, !Alertmanagers W}.

(** The operation failed before any configuration was accepted and any
    permission touched, or it returned [nil] after a configuration was
    accepted. *)
Definition ended (s s' : St W) (res : option error) : Prop :=
  (res ≠ None ∧ only inert s s') ∨
  (res = None ∧ ∃ c, c ∈ calls_since s s' ∧ applied c = true).

Lemma ended_tail (cleanup : M W (option error)) (s s4 : St W) (c : Call) :
  only (λ _, True) s s4 →
  applied c = true →
  reports cleanup →
  ended s
    (notifier.report_cleanPermissions (cleanup (log c s4)).1 (cleanup (log c s4)).2).2
    (notifier.report_cleanPermissions (cleanup (log c s4)).1 (cleanup (log c s4)).2).1.
Proof.
  intros (pre & Hpre & _) Hc Hreports.
  destruct (Hreports (log c s4)) as (made & Hmade & _).
  destruct (cleanup (log c s4)) as [err s6]. cbn [fst snd] in *.
  right. split; [apply report_cleanPermissions_nil|].
  exists c. split; [|done].
  assert (Hs6 : calls s6 = calls s ++ (pre ++ [c] ++ made)).
  { rewrite Hmade. cbn. rewrite Hpre. by rewrite <- !app_assoc. }
  unfold notifier.report_cleanPermissions, notifier.logger_Error, mbind, M_bind, mret, M_ret.
  destruct err as [err|]; cbn [fst snd].
  - rewrite (calls_since_app s _
               ((pre ++ [c] ++ made)
                  ++ [LogError "Failed to clean permissions for receivers" (Some err)]))
      by (cbn; by rewrite Hs6, <- !app_assoc).
    set_solver.
  - rewrite (calls_since_app s s6 _ Hs6). set_solver.
Qed.

Lemma only_grows (P : Call → Prop) (s s' : St W) : only P s s' → only (λ _, True) s s'.
Proof. apply only_weaken. done. Qed.

Ltac ended_tail_with tac :=
  match goal with
  | |- ended ?s (notifier.report_cleanPermissions (?m (log ?c ?s4)).1 _).2 _ =>
      apply (ended_tail m s s4 c); [tac|done|]
  end.

Lemma SaveAndApplyAlertmanagerConfiguration_ended (org : Z) (config : PostableUserConfig)
    (s : St W) :
  ended s
    (notifier.SaveAndApplyAlertmanagerConfiguration org config s).2
    (notifier.SaveAndApplyAlertmanagerConfiguration org config s).1.
Proof.
  unfold notifier.SaveAndApplyAlertmanagerConfiguration.
  case_bool_decide; [left; split; [done|apply only_refl]|].
  rewrite ?M_bind_run.
  cbn [notifier.call_GetLatestAlertmanagerConfiguration reading fst snd].
  set (s1 := log (CallGetLatestAlertmanagerConfiguration org) s).
  assert (Hs1 : only inert s s1) by (by apply only_logged; [|apply only_refl]).
  destruct (GetLatestAlertmanagerConfiguration org (world s)) as [previousConfig|err0];
    [|destruct (errors_Is_NoAlertmanagerConfiguration err0); cbn [negb];
      [|by left]].
  all: rewrite ?M_bind_run; cbn [reading fst snd].
  all: set (s2 := log (CallProcessSecureSettings org) s1).
  all: assert (Hs2 : only inert s s2) by by apply only_logged.
  all: destruct (ProcessSecureSettings org _ (world s1)) as [Receivers|err1];
         [|by left].
  all: rewrite ?M_bind_run.
  all: pose proof (only_weaken _ _ _ _ generation_inert
                     (assignReceiverConfigsUIDs_only Receivers s2)) as Hs3.
  all: destruct (notifier.assignReceiverConfigsUIDs Receivers s2) as [[err2 Receivers'] s3].
  all: cbn [fst snd] in *.
  all: assert (Hs3' : only inert s s3) by by eapply only_trans.
  all: destruct err2 as [err2|]; [by left|].
  all: rewrite ?M_bind_run; cbn [reading fst snd].
  all: set (s4 := log (CallAlertmanagerFor org) s3).
  all: assert (Hs4 : only inert s s4) by by apply only_logged.
  all: destruct (AlertmanagerFor org (world s3)) as [am|am|err3]; [| |by left].
  all: rewrite ?M_bind_run; unfold notifier.call_SaveAndApplyConfig.
  all: destruct (am_SaveAndApplyConfig am _ (world s4)) as [err4 w5].
  all: cbn [fst snd].
  all: destruct err4 as [err4|];
         [left; rewrite ?M_bind_run; cbn [notifier.logger_Error fst snd mret M_ret];
          split; [done|];
          apply only_logged; [done|];
          apply only_logged; [done|]; by apply only_set_world|].
  all: rewrite ?M_bind_run.
  all: ended_tail_with ltac:(apply only_set_world; by eapply only_grows).
  all: first [apply reports_cleanPermissions|apply reports_mret].
Qed.

Lemma SaveAndApplyDefaultConfig_ended (orgId : Z) (s : St W) :
  ended s
    (notifier.SaveAndApplyDefaultConfig orgId s).2
    (notifier.SaveAndApplyDefaultConfig orgId s).1.
Proof.
  unfold notifier.SaveAndApplyDefaultConfig.
  rewrite ?M_bind_run. cbn [reading fst snd].
  set (s1 := log (CallAlertmanagerFor orgId) s).
  assert (Hs1 : only inert s s1) by (by apply only_logged; [|apply only_refl]).
  destruct (alertmanagerForOrg orgId (world s)) as [orgAM|err0]; [|by left].
  rewrite ?M_bind_run.
  cbn [notifier.call_GetLatestAlertmanagerConfiguration reading fst snd].
  set (s2 := log (CallGetLatestAlertmanagerConfiguration orgId) s1).
  assert (Hs2 : only inert s s2) by by apply only_logged.
  rewrite ?M_bind_run. unfold notifier.call_SaveAndApplyDefaultConfig.
  destruct (am_SaveAndApplyDefaultConfig orgAM (world s2)) as [err1 w3].
  cbn [fst snd].
  destruct err1 as [err1|];
    [left; split; [done|]; apply only_logged; [done|]; by apply only_set_world|].
  rewrite ?M_bind_run.
  ended_tail_with ltac:(apply only_set_world; by eapply only_grows).
  destruct (GetLatestAlertmanagerConfiguration orgId (world s1)) as [previousConfig|err2];
    [|apply reports_mret].
  apply reports_read; [done|]. intros [defaultedConfig|err3]; [|apply reports_mret].
  destruct (notifier.extractReceiverNames _); [|apply reports_mret].
  apply reports_cleanPermissions.
Qed.

(** X7. Both ways round for the two writes of a whole configuration.  When
    [SaveAndApplyAlertmanagerConfiguration] or [SaveAndApplyDefaultConfig]
    returns an error, the live Alertmanager has accepted no configuration
    and no permission was deleted or installed; when it returns [nil], the
    live Alertmanager has accepted the configuration. *)
Theorem write_error_precedes_permissions (org : Z) (config : PostableUserConfig) (s : St W) :
  let posted := notifier.SaveAndApplyAlertmanagerConfiguration org config s in
  let defaulted := notifier.SaveAndApplyDefaultConfig org s in
  (posted.1 ≠ None → Forall inert (calls_since s posted.2)) ∧
  (posted.1 = None → ∃ c, c ∈ calls_since s posted.2 ∧ applied c = true) ∧
  (defaulted.1 ≠ None → Forall inert (calls_since s defaulted.2)) ∧
  (defaulted.1 = None → ∃ c, c ∈ calls_since s defaulted.2 ∧ applied c = true).
Proof.
  intros posted defaulted.
  pose proof (SaveAndApplyAlertmanagerConfiguration_ended org config s) as Hposted.
  pose proof (SaveAndApplyDefaultConfig_ended org s) as Hdefaulted.
  fold posted in Hposted. fold defaulted in Hdefaulted. clearbody posted defaulted.
  split; [|split; [|split]].
  - intros Herr. destruct Hposted as [[_ Hq]|[Hnil _]]; [by apply only_calls_since|done].
  - intros Hnil. by destruct Hposted as [[Herr _]|[_ Hc]].
  - intros Herr. destruct Hdefaulted as [[_ Hq]|[Hnil _]]; [by apply only_calls_since|done].
  - intros Hnil. by destruct Hdefaulted as [[Herr _]|[_ Hc]].
Qed.

End WritePathsEnds.

(** ** The write paths, end to end *)

(** The call is no permission call. *)
Definition unrelated (c : Call) : Prop := deletion c = None ∧ default_install c = None.

Section WritePathsReconcile.
Context {W : Type}.
Context `{!External, !ConfigurationStore W, !ProvisioningStore W, !Crypto W,
          !ReceiverPermissions W, !Alertmanagers W}.

Lemma unrelated_none (made : list Call) :
  Forall unrelated made → deletions made = [] ∧ default_installs made = [].
Proof.
  unfold deletions, default_installs.
  induction 1 as [|c made [Hdel Hdef] _ [IH1 IH2]]; [done|].
  cbn. by rewrite Hdel, Hdef.
Qed.

Lemma inert_unrelated (c : Call) : inert c → unrelated c.
Proof. by intros (_ & ? & ?). Qed.

Lemma receiver_frame_names (c c' : list PostableApiReceiver) :
  Forall2 receiver_frame c c' → par_Name <$> c' = par_Name <$> c.
Proof.
  induction 1 as [|r r' c0 c0' (Hr & _) _ IH]; [done|].
  cbn. rewrite IH. f_equal. by rewrite Hr.
Qed.

(** What [assignReceiverConfigsUIDs] leaves alone: the world and the names
    of the receivers. *)
Lemma assignReceiverConfigsUIDs_names (c : list PostableApiReceiver) (s : St W) :
  world (notifier.assignReceiverConfigsUIDs c s).2 = world s ∧
  par_Name <$> (notifier.assignReceiverConfigsUIDs c s).1.2 = par_Name <$> c.
Proof.
  destruct (assignReceiverConfigsUIDs_run c s) as (seen' & Hrun).
  destruct (assign_receivers_flat _ _ _ _ _ _ _ Hrun) as (Hflat & Hframe).
  destruct (assign_managed_spec _ _ _ _ _ _ _ Hflat) as (Hw & _).
  split; [done|]. by apply receiver_frame_names.
Qed.

(** The tail of a write whose previous configuration parses: from a state
    reached without any permission call, the clean-up and its report make
    the deletions and the installs of [cleanPermissions] and no other
    permission call, and the write returns [nil]. *)
Lemma reconcile_tail (org : Z) (previousConfig : AlertConfiguration)
    (previousReceiverNames newReceiverNames : gset string) (s s4 : St W) :
  notifier.extractReceiverNames (ac_AlertmanagerConfiguration previousConfig)
    = Ok previousReceiverNames →
  only unrelated s s4 →
  let cleaned := notifier.cleanPermissions org previousConfig newReceiverNames s4 in
  let run := notifier.report_cleanPermissions cleaned.1 cleaned.2 in
  run.1 = None ∧
  only (λ _, True) s4 run.2 ∧
  deletions (calls_since s run.2)
    = (λ n, (org, NameToUid n)) <$> range_set (previousReceiverNames ∖ newReceiverNames) ∧
  default_installs (calls_since s run.2)
    = (λ n, (org, NameToUid n)) <$> range_set (newReceiverNames ∖ previousReceiverNames).
Proof.
  intros Hprev (pre & Hpre & Hunrelated) cleaned run. subst run cleaned.
  destruct (cleanPermissions_run org previousConfig previousReceiverNames newReceiverNames s4 Hprev)
    as (made & Hmade & Hdel & Hdef & _).
  destruct (notifier.cleanPermissions org previousConfig newReceiverNames s4) as [err s6].
  cbn [fst snd] in *.
  destruct (unrelated_none pre Hunrelated) as [Hdel0 Hdef0].
  split; [apply report_cleanPermissions_nil|].
  unfold notifier.report_cleanPermissions, notifier.logger_Error, mbind, M_bind, mret, M_ret.
  destruct err as [err|]; cbn [fst snd].
  - split.
    { exists (made ++ [LogError "Failed to clean permissions for receivers" (Some err)]).
      split; [by cbn; rewrite Hmade, app_assoc|]. by apply Forall_forall. }
    rewrite (calls_since_app s _
               (pre ++ made ++ [LogError "Failed to clean permissions for receivers" (Some err)]))
      by (cbn; by rewrite Hmade, Hpre, <- !app_assoc).
    unfold deletions, default_installs in *. rewrite !omap_app.
    rewrite Hdel0, Hdef0, Hdel, Hdef. cbn. by rewrite !app_nil_r.
  - split.
    { exists made. split; [done|]. by apply Forall_forall. }
    rewrite (calls_since_app s s6 (pre ++ made)) by (by rewrite Hmade, Hpre, <- !app_assoc).
    unfold deletions, default_installs in *. rewrite !omap_app.
    by rewrite Hdel0, Hdef0, Hdel, Hdef.
Qed.

(** X8. [SaveAndApplyAlertmanagerConfiguration] end to end.  When the
    previous configuration is read and parses, the secure settings are
    processed, the UIDs assigned and the organisation's Alertmanager, ready
    or not, accepts the configuration: the call returns [nil]; what the
    Alertmanager was handed is the posted configuration with the processed
    receivers, none of its visited Grafana-managed receivers without UID;
    and the permission calls are, up to order, one deletion for each
    previous receiver name that is no name of a posted receiver, and one
    default install for each name of a posted receiver that is no previous
    name. *)
Theorem SaveAndApplyAlertmanagerConfiguration_reconciles (org : Z)
    (config : PostableUserConfig) (s : St W) (previousConfig : AlertConfiguration)
    (previousReceiverNames : gset string) (Receivers : list PostableApiReceiver)
    (am : Alertmanager) (w' : W) :
  cfg_InhibitRules (paac_Config (puc_AlertmanagerConfig config)) = [] →
  GetLatestAlertmanagerConfiguration org (world s) = Ok previousConfig →
  notifier.extractReceiverNames (ac_AlertmanagerConfiguration previousConfig)
    = Ok previousReceiverNames →
  ProcessSecureSettings org (paac_Receivers (puc_AlertmanagerConfig config)) (world s)
    = Ok Receivers →
  let assigned :=
    notifier.assignReceiverConfigsUIDs Receivers
      (log (CallProcessSecureSettings org)
         (log (CallGetLatestAlertmanagerConfiguration org) s)) in
  assigned.1.1 = None →
  AlertmanagerFor org (world s) = AlertmanagerReady am ∨
  AlertmanagerFor org (world s) = AlertmanagerNotReady am →
  let handed := puc_set_Receivers assigned.1.2 config in
  am_SaveAndApplyConfig am handed (world s) = (None, w') →
  let run := notifier.SaveAndApplyAlertmanagerConfiguration org config s in
  let made := calls_since s run.2 in
  let newReceiverNames : gset string := list_to_set (par_Name <$> Receivers) in
  let uid_of := λ receiverName, (org, NameToUid receiverName) in
  run.1 = None ∧
  CallSaveAndApplyConfig handed true ∈ made ∧
  Forall (λ gr, pgr_UID gr ≠ "")
         (visited_in Receivers (paac_Receivers (puc_AlertmanagerConfig handed))) ∧
  deletions made ≡ₚ uid_of <$> elements (previousReceiverNames ∖ newReceiverNames) ∧
  default_installs made ≡ₚ uid_of <$> elements (newReceiverNames ∖ previousReceiverNames).
Proof.
  intros Hrules Hget Hprev Hprocessed assigned Hassigned Ham handed Happly
    run made newReceiverNames uid_of.
  assert (Hcomplete : Forall (λ gr, pgr_UID gr ≠ "") (visited_in Receivers assigned.1.2)).
  { destruct (assignReceiverConfigsUIDs_run Receivers
                (log (CallProcessSecureSettings org)
                   (log (CallGetLatestAlertmanagerConfiguration org) s))) as (seen' & Hrun).
    fold assigned in Hrun. rewrite Hassigned in Hrun.
    destruct (assign_receivers_flat _ _ _ _ _ _ _ Hrun) as (Hflat & _).
    destruct (assign_managed_spec _ _ _ _ _ _ _ Hflat) as (_ & _ & Hsame & _ & Hok).
    destruct (Hok eq_refl) as (_ & Hfresh).
    apply Forall_lookup. intros i gr' Hi.
    destruct (Forall2_lookup_r _ _ _ _ _ Hsame Hi) as (gr & Hgr & _ & Hkept).
    destruct (decide (pgr_UID gr = "")) as [Hmiss|Hhas].
    - destruct (Hfresh i gr Hgr Hmiss) as (gr'' & k & Hlook & Hne & _).
      by assert (gr'' = gr') as -> by congruence.
    - by rewrite (Hkept Hhas). }
  destruct (assignReceiverConfigsUIDs_names Receivers
              (log (CallProcessSecureSettings org)
                 (log (CallGetLatestAlertmanagerConfiguration org) s))) as (Hworld & Hnames).
  pose proof (only_weaken _ _ _ _ generation_inert
                (assignReceiverConfigsUIDs_only Receivers
                   (log (CallProcessSecureSettings org)
                      (log (CallGetLatestAlertmanagerConfiguration org) s)))) as Hs3.
  fold assigned in Hworld, Hnames, Hs3. cbn [world log] in Hworld.
  assert (Hnew : foldl (λ (names : gset string) r, {[par_Name r]} ∪ names) ∅
                   (paac_Receivers (puc_AlertmanagerConfig handed)) = newReceiverNames).
  { rewrite (foldl_insert_names par_Name). cbn. rewrite Hnames.
    subst newReceiverNames. set_solver. }
  assert (Hs4 : ∃ pre,
            calls (log (CallSaveAndApplyConfig handed true)
                     (set_world w' (log (CallAlertmanagerFor org) assigned.2)))
              = calls s ++ pre ++ [CallSaveAndApplyConfig handed true] ∧
            Forall unrelated pre).
  { assert (Hs4 : only unrelated s (log (CallAlertmanagerFor org) assigned.2)).
    { apply only_logged; [done|].
      eapply only_trans; [|eapply only_weaken; [apply inert_unrelated|exact Hs3]].
      apply only_logged; [done|]. apply only_logged; [done|]. apply only_refl. }
    destruct Hs4 as (pre & Hpre & Hunrelated). exists pre. split; [|done].
    cbn in *. by rewrite Hpre, app_assoc. }
  destruct Hs4 as (pre & Hpre & Hunrelated).
  assert (Hs4 : only unrelated s
            (log (CallSaveAndApplyConfig handed true)
               (set_world w' (log (CallAlertmanagerFor org) assigned.2)))).
  { exists (pre ++ [CallSaveAndApplyConfig handed true]). split; [done|].
    apply Forall_app. split; [done|]. by constructor. }
  pose proof (reconcile_tail org previousConfig previousReceiverNames newReceiverNames s _
                Hprev Hs4) as Htail.
  cbv zeta in Htail.
  assert (Hrun : run =
    notifier.report_cleanPermissions
      (notifier.cleanPermissions org previousConfig newReceiverNames
         (log (CallSaveAndApplyConfig handed true)
            (set_world w' (log (CallAlertmanagerFor org) assigned.2)))).1
      (notifier.cleanPermissions org previousConfig newReceiverNames
         (log (CallSaveAndApplyConfig handed true)
            (set_world w' (log (CallAlertmanagerFor org) assigned.2)))).2).
  { subst run. unfold notifier.SaveAndApplyAlertmanagerConfiguration.
    rewrite Hrules. rewrite bool_decide_eq_false_2 by (cbn; lia).
    rewrite ?M_bind_run.
    cbn [notifier.call_GetLatestAlertmanagerConfiguration reading fst snd].
    rewrite Hget. rewrite ?M_bind_run; cbn [reading fst snd world log].
    rewrite Hprocessed; rewrite ?M_bind_run. fold assigned.
    destruct assigned as [[err1 Receivers'] s3] eqn:Heq. cbn [fst snd] in *. subst err1.
    rewrite ?M_bind_run; cbn [reading fst snd world log]. rewrite Hworld.
    fold handed.
    destruct Ham as [Ham|Ham]; rewrite Ham.
    all: rewrite ?M_bind_run; unfold notifier.call_SaveAndApplyConfig.
    all: cbn [world log set_world]; rewrite Hworld, Happly.
    all: cbn [fst snd notifier.is_nil]; rewrite ?M_bind_run.
    all: by rewrite Hnew. }
  clearbody run. subst run. fold made in Htail.
  destruct Htail as (Hnil & (more & Hmore & _) & Hdel & Hdef).
  split; [done|]. split; [|split; [done|]].
  - subst made.
    rewrite (calls_since_app s _ ((pre ++ [CallSaveAndApplyConfig handed true]) ++ more))
      by (by rewrite Hmore, Hpre, <- !app_assoc).
    set_solver.
  - split; [rewrite Hdel|rewrite Hdef]; by rewrite range_set_elements.
Qed.

(** X9. [SaveAndApplyDefaultConfig] end to end.  When the organisation has
    an Alertmanager that applies the default configuration, and the latest
    configuration is read and parses both before and after that: the call
    returns [nil], and the permission calls are, up to order, one deletion
    for each receiver name of the configuration read before that the one
    read after does not have, and one default install for each name of the
    one read after that the one read before did not have. *)
Theorem SaveAndApplyDefaultConfig_reconciles (orgId : Z) (s : St W)
    (orgAM : Alertmanager) (w' : W) (previousConfig defaultedConfig : AlertConfiguration)
    (previousReceiverNames newReceiverNames : gset string) :
  alertmanagerForOrg orgId (world s) = Ok orgAM →
  GetLatestAlertmanagerConfiguration orgId (world s) = Ok previousConfig →
  am_SaveAndApplyDefaultConfig orgAM (world s) = (None, w') →
  GetLatestAlertmanagerConfiguration orgId w' = Ok defaultedConfig →
  notifier.extractReceiverNames (ac_AlertmanagerConfiguration previousConfig)
    = Ok previousReceiverNames →
  notifier.extractReceiverNames (ac_AlertmanagerConfiguration defaultedConfig)
    = Ok newReceiverNames →
  let run := notifier.SaveAndApplyDefaultConfig orgId s in
  let made := calls_since s run.2 in
  let uid_of := λ receiverName, (orgId, NameToUid receiverName) in
  run.1 = None ∧
  deletions made ≡ₚ uid_of <$> elements (previousReceiverNames ∖ newReceiverNames) ∧
  default_installs made ≡ₚ uid_of <$> elements (newReceiverNames ∖ previousReceiverNames).
Proof.
  intros Ham Hget Happly Hget' Hprev Hnew run made uid_of.
  set (s5 := log (CallGetLatestAlertmanagerConfiguration orgId)
               (log (CallSaveAndApplyDefaultConfig true)
                  (set_world w'
                     (log (CallGetLatestAlertmanagerConfiguration orgId)
                        (log (CallAlertmanagerFor orgId) s))))).
  assert (Hs5 : only unrelated s s5).
  { apply only_logged; [done|]. apply only_logged; [done|]. apply only_set_world.
    apply only_logged; [done|]. apply only_logged; [done|]. apply only_refl. }
  pose proof (reconcile_tail orgId previousConfig previousReceiverNames newReceiverNames s s5
                Hprev Hs5) as Htail.
  cbv zeta in Htail.
  assert (Hrun : run =
    notifier.report_cleanPermissions
      (notifier.cleanPermissions orgId previousConfig newReceiverNames s5).1
      (notifier.cleanPermissions orgId previousConfig newReceiverNames s5).2).
  { subst run. unfold notifier.SaveAndApplyDefaultConfig.
    rewrite ?M_bind_run. cbn [reading fst snd]. rewrite Ham.
    rewrite ?M_bind_run.
    cbn [notifier.call_GetLatestAlertmanagerConfiguration reading fst snd world log].
    rewrite Hget. rewrite ?M_bind_run. unfold notifier.call_SaveAndApplyDefaultConfig.
    cbn [world log]. rewrite Happly. cbn [fst snd notifier.is_nil].
    rewrite ?M_bind_run.
    cbn [notifier.call_GetLatestAlertmanagerConfiguration reading fst snd world log set_world].
    by rewrite Hget', Hnew. }
  clearbody run. subst run. fold made in Htail.
  destruct Htail as (Hnil & _ & Hdel & Hdef).
  split; [done|].
  split; [rewrite Hdel|rewrite Hdef]; by rewrite range_set_elements.
Qed.

(** The report of an error makes no permission call. *)
Lemma report_unrelated (err : option error) (s s1 : St W) :
  only unrelated s s1 → only unrelated s (notifier.report_cleanPermissions err s1).2.
Proof.
  intros Hs1. destruct err as [err|]; [|done].
  unfold notifier.report_cleanPermissions, notifier.logger_Error, mbind, M_bind, mret, M_ret.
  cbn [fst snd]. by apply only_logged.
Qed.

(** X10. A write that could not read the latest configuration touches no
    permission.  When the read that [SaveAndApplyAlertmanagerConfiguration]
    or [SaveAndApplyDefaultConfig] makes before applying fails, be it
    because the organisation has no configuration yet, the call makes no
    permission call at all: no default permission is installed for the
    receivers of the first configuration of an organisation.  If the call
    goes on to return [nil], the log has the entry "Failed to clean
    permissions for receivers" with the error of the read. *)
Theorem unreadable_previous_touches_no_permission (org : Z) (config : PostableUserConfig)
    (s : St W) (err : error) :
  GetLatestAlertmanagerConfiguration org (world s) = Err err →
  let posted := notifier.SaveAndApplyAlertmanagerConfiguration org config s in
  let defaulted := notifier.SaveAndApplyDefaultConfig org s in
  let reported := LogError "Failed to clean permissions for receivers" (Some err) in
  Forall unrelated (calls_since s posted.2) ∧
  (posted.1 = None → reported ∈ calls_since s posted.2) ∧
  Forall unrelated (calls_since s defaulted.2) ∧
  (defaulted.1 = None → reported ∈ calls_since s defaulted.2).
Proof.
  intros Hget posted defaulted reported.
  assert (Hposted : only unrelated s posted.2 ∧
                    (posted.1 = None → ∃ s6, only (λ _, True) s s6 ∧ posted.2 = log reported s6)).
  { subst posted. unfold notifier.SaveAndApplyAlertmanagerConfiguration.
    case_bool_decide; [split; [apply only_refl|done]|].
    rewrite ?M_bind_run.
    cbn [notifier.call_GetLatestAlertmanagerConfiguration reading fst snd].
    set (s1 := log (CallGetLatestAlertmanagerConfiguration org) s).
    assert (Hs1 : only unrelated s s1) by (by apply only_logged; [|apply only_refl]).
    rewrite Hget.
    destruct (errors_Is_NoAlertmanagerConfiguration err); cbn [negb]; [|done].
    rewrite ?M_bind_run; cbn [reading fst snd].
    set (s2 := log (CallProcessSecureSettings org) s1).
    assert (Hs2 : only unrelated s s2) by by apply only_logged.
    destruct (ProcessSecureSettings org _ (world s1)) as [Receivers|err1]; [|done].
    rewrite ?M_bind_run.
    pose proof (only_weaken _ _ _ _ (λ c Hc, inert_unrelated c (generation_inert c Hc))
                  (assignReceiverConfigsUIDs_only Receivers s2)) as Hs3.
    destruct (notifier.assignReceiverConfigsUIDs Receivers s2) as [[err2 Receivers'] s3].
    cbn [fst snd] in *.
    assert (Hs3' : only unrelated s s3) by by eapply only_trans.
    destruct err2 as [err2|]; [done|].
    rewrite ?M_bind_run; cbn [reading fst snd].
    set (s4 := log (CallAlertmanagerFor org) s3).
    assert (Hs4 : only unrelated s s4) by by apply only_logged.
    destruct (AlertmanagerFor org (world s3)) as [am|am|err3]; [| |done].
    all: rewrite ?M_bind_run; unfold notifier.call_SaveAndApplyConfig.
    all: destruct (am_SaveAndApplyConfig am _ (world s4)) as [err4 w5].
    all: cbn [fst snd].
    all: destruct err4 as [err4|];
           [rewrite ?M_bind_run; cbn [notifier.logger_Error fst snd mret M_ret];
            split; [|done]; apply only_logged; [done|];
            apply only_logged; [done|]; by apply only_set_world|].
    all: rewrite ?M_bind_run; unfold mret, M_ret; cbn [fst snd].
    all: unfold notifier.report_cleanPermissions, notifier.logger_Error.
    all: rewrite ?M_bind_run; unfold mret, M_ret; cbn [fst snd].
    all: split; [apply only_logged; [done|]; apply only_logged; [done|];
                 by apply only_set_world|].
    all: intros _; eexists; split; [|reflexivity].
    all: apply only_logged; [done|]; apply only_set_world; by eapply only_weaken. }
  assert (Hdefaulted :
            only unrelated s defaulted.2 ∧
            (defaulted.1 = None → ∃ s6, only (λ _, True) s s6 ∧ defaulted.2 = log reported s6)).
  { subst defaulted. unfold notifier.SaveAndApplyDefaultConfig.
    rewrite ?M_bind_run. cbn [reading fst snd].
    set (s1 := log (CallAlertmanagerFor org) s).
    assert (Hs1 : only unrelated s s1) by (by apply only_logged; [|apply only_refl]).
    destruct (alertmanagerForOrg org (world s)) as [orgAM|err0]; [|done].
    rewrite ?M_bind_run.
    cbn [notifier.call_GetLatestAlertmanagerConfiguration reading fst snd world log].
    change (world s1) with (world s). rewrite Hget.
    set (s2 := log (CallGetLatestAlertmanagerConfiguration org) s1).
    assert (Hs2 : only unrelated s s2) by by apply only_logged.
    rewrite ?M_bind_run. unfold notifier.call_SaveAndApplyDefaultConfig.
    destruct (am_SaveAndApplyDefaultConfig orgAM (world s2)) as [err1 w3].
    cbn [fst snd].
    destruct err1 as [err1|];
      [split; [|done]; apply only_logged; [done|]; by apply only_set_world|].
    rewrite ?M_bind_run; unfold mret, M_ret; cbn [fst snd].
    unfold notifier.report_cleanPermissions, notifier.logger_Error.
    rewrite ?M_bind_run; unfold mret, M_ret; cbn [fst snd].
    split; [apply only_logged; [done|]; apply only_logged; [done|];
            by apply only_set_world|].
    intros _; eexists; split; [|reflexivity].
    apply only_logged; [done|]; apply only_set_world; by eapply only_weaken. }
  assert (Hin : ∀ s6 : St W, only (λ _, True) s s6 → reported ∈ calls_since s (log reported s6)).
  { intros s6 (made & Hmade & _).
    rewrite (calls_since_app s _ (made ++ [reported])) by (by cbn; rewrite Hmade, app_assoc).
    set_solver. }
  clearbody posted defaulted.
  destruct Hposted as (Hp1 & Hp2). destruct Hdefaulted as (Hd1 & Hd2).
  split; [by apply only_calls_since|]. split.
  { intros Hnil. destruct (Hp2 Hnil) as (s6 & Hs6 & ->). by apply Hin. }
  split; [by apply only_calls_since|].
  intros Hnil. destruct (Hd2 Hnil) as (s6 & Hs6 & ->). by apply Hin.
Qed.

(** X11. When the organisation's Alertmanager refuses the posted
    configuration, [SaveAndApplyAlertmanagerConfiguration] returns the
    receiver-in-use error for the reference of a missing-receiver error
    found in the chain of the refusal, else the interval-in-use error for
    that of a missing-time-interval error, else the refusal wrapped as a
    rejected configuration; the world is as the Alertmanager left it and
    the refusal is in the log. *)
Theorem SaveAndApplyAlertmanagerConfiguration_refused (org : Z)
    (config : PostableUserConfig) (s : St W) (Receivers : list PostableApiReceiver)
    (am : Alertmanager) (refusal : error) (w' : W) :
  cfg_InhibitRules (paac_Config (puc_AlertmanagerConfig config)) = [] →
  match GetLatestAlertmanagerConfiguration org (world s) with
  | Ok _ => True
  | Err err0 => errors_Is_NoAlertmanagerConfiguration err0 = true
  end →
  ProcessSecureSettings org (paac_Receivers (puc_AlertmanagerConfig config)) (world s)
    = Ok Receivers →
  let assigned :=
    notifier.assignReceiverConfigsUIDs Receivers
      (log (CallProcessSecureSettings org)
         (log (CallGetLatestAlertmanagerConfiguration org) s)) in
  assigned.1.1 = None →
  AlertmanagerFor org (world s) = AlertmanagerReady am ∨
  AlertmanagerFor org (world s) = AlertmanagerNotReady am →
  let handed := puc_set_Receivers assigned.1.2 config in
  am_SaveAndApplyConfig am handed (world s) = (Some refusal, w') →
  notifier.SaveAndApplyAlertmanagerConfiguration org config s
    = (Some match errors_As_ReceiverDoesNotExist refusal with
            | Some Reference => ErrAlertmanagerReceiverInUse Reference refusal
            | None =>
                match errors_As_TimeIntervalDoesNotExist refusal with
                | Some Reference => ErrAlertmanagerTimeIntervalInUse Reference refusal
                | None => AlertmanagerConfigRejectedError refusal
                end
            end,
       log (LogError "Unable to save and apply alertmanager configuration" (Some refusal))
         (log (CallSaveAndApplyConfig handed false)
            (set_world w' (log (CallAlertmanagerFor org) assigned.2)))).
Proof.
  intros Hrules Hprevious Hprocessed assigned Hassigned Ham handed Happly.
  destruct (assignReceiverConfigsUIDs_names Receivers
              (log (CallProcessSecureSettings org)
                 (log (CallGetLatestAlertmanagerConfiguration org) s))) as (Hworld & _).
  fold assigned in Hworld. cbn [world log] in Hworld.
  unfold notifier.SaveAndApplyAlertmanagerConfiguration.
  rewrite Hrules. rewrite bool_decide_eq_false_2 by (cbn; lia).
  rewrite ?M_bind_run.
  cbn [notifier.call_GetLatestAlertmanagerConfiguration reading fst snd].
  destruct (GetLatestAlertmanagerConfiguration org (world s)) as [previousConfig|err0];
    [|rewrite Hprevious; cbn [negb]].
  all: rewrite ?M_bind_run; cbn [reading fst snd world log].
  all: rewrite Hprocessed; rewrite ?M_bind_run; fold assigned.
  all: destruct assigned as [[err1 Receivers'] s3] eqn:Heq; cbn [fst snd] in *; subst err1.
  all: rewrite ?M_bind_run; cbn [reading fst snd world log]; rewrite Hworld.
  all: fold handed.
  all: destruct Ham as [Ham|Ham]; rewrite Ham.
  all: rewrite ?M_bind_run; unfold notifier.call_SaveAndApplyConfig.
  all: cbn [world log set_world]; rewrite Hworld, Happly.
  all: cbn [fst snd notifier.is_nil]; rewrite ?M_bind_run.
  all: done.
Qed.

End WritePathsReconcile.

(** ** Extra configurations *)

Section ExtraConfigurations.
Context {W : Type}.
Context `{!External, !ConfigurationStore W, !ProvisioningStore W, !Crypto W,
          !ReceiverPermissions W, !Alertmanagers W}.

Lemma puc_set_ExtraConfigs_same (cfg : PostableUserConfig) :
  puc_set_ExtraConfigs (puc_ExtraConfigs cfg) cfg = cfg.
Proof. by destruct cfg. Qed.

Lemma filter_all {A} (P : A → Prop) `{∀ x, Decision (P x)} (l : list A) :
  (∀ x, x ∈ l → P x) → filter P l = l.
Proof.
  induction l as [|x l IH]; intros Hall; [done|].
  rewrite filter_cons, decide_True by (apply Hall; by left).
  f_equal. apply IH. intros y Hy. apply Hall. by right.
Qed.

(** X12. [DeleteExtraConfiguration], once the current configuration is read
    and loads and the organisation has an Alertmanager, ready or not: what
    the Alertmanager is handed has the template files and the main
    configuration of the current one, and as extra configurations those of
    the current one whose identifier is not the given one; it is the
    current configuration itself when no extra configuration has the
    identifier, which is no error.  The call returns [nil] when the
    Alertmanager accepts, and its refusal as a rejected configuration. *)
Theorem DeleteExtraConfiguration_hands_the_rest (org : Z) (identifier : string) (s : St W)
    (currentCfg : AlertConfiguration) (cfg : PostableUserConfig) (am : Alertmanager)
    (outcome : option error) (w' : W) :
  GetLatestAlertmanagerConfiguration org (world s) = Ok currentCfg →
  Load (ac_AlertmanagerConfiguration currentCfg) = Ok cfg →
  AlertmanagerFor org (world s) = AlertmanagerReady am ∨
  AlertmanagerFor org (world s) = AlertmanagerNotReady am →
  let handed :=
    puc_set_ExtraConfigs (filter (λ ec, Identifier ec ≠ identifier) (puc_ExtraConfigs cfg)) cfg in
  am_SaveAndApplyConfig am handed (world s) = (outcome, w') →
  let run := notifier.DeleteExtraConfiguration org identifier s in
  run.1 = AlertmanagerConfigRejectedError <$> outcome ∧
  world run.2 = w' ∧
  CallSaveAndApplyConfig handed (notifier.is_nil outcome) ∈ calls_since s run.2 ∧
  puc_TemplateFiles handed = puc_TemplateFiles cfg ∧
  puc_AlertmanagerConfig handed = puc_AlertmanagerConfig cfg ∧
  (∀ ec, ec ∈ puc_ExtraConfigs handed ↔
         ec ∈ puc_ExtraConfigs cfg ∧ Identifier ec ≠ identifier) ∧
  ((∀ ec, ec ∈ puc_ExtraConfigs cfg → Identifier ec ≠ identifier) → handed = cfg).
Proof.
  intros Hget Hload Ham handed Happly run.
  assert (Hrun : run.1 = AlertmanagerConfigRejectedError <$> outcome ∧ world run.2 = w' ∧
                 CallSaveAndApplyConfig handed (notifier.is_nil outcome) ∈ calls_since s run.2).
  { subst run.
    unfold notifier.DeleteExtraConfiguration, notifier.modifyAndApplyExtraConfiguration.
    rewrite ?M_bind_run.
    cbn [notifier.call_GetLatestAlertmanagerConfiguration reading fst snd].
    rewrite Hget, Hload. fold handed.
    rewrite ?M_bind_run. cbn [reading fst snd world log set_world].
    destruct Ham as [Ham|Ham]; rewrite Ham.
    all: rewrite ?M_bind_run; unfold notifier.call_SaveAndApplyConfig.
    all: cbn [world log set_world]; rewrite Happly.
    all: destruct outcome as [refusal|].
    all: repeat (rewrite ?M_bind_run; unfold mret, M_ret;
                 cbn [fst snd notifier.is_nil notifier.logger_Info notifier.logger_Error]).
    all: split; [done|]; split; [done|].
    all: unfold calls_since; cbn [calls log set_world].
    all: rewrite <- ?app_assoc, drop_app_length; set_solver. }
  destruct Hrun as (Hres & Hworld & Hin).
  split; [done|]. split; [done|]. split; [done|]. split; [done|]. split; [done|].
  split.
  - intros ec. subst handed. cbn. rewrite list_elem_of_filter. tauto.
  - intros Hnone. subst handed. rewrite filter_all by done.
    apply puc_set_ExtraConfigs_same.
Qed.

(** The operation failed before any configuration was accepted, or it
    returned [nil] after one was; in neither case has it made a permission
    call or generated an identifier. *)
Lemma modifyAndApplyExtraConfiguration_ended (org : Z)
    (modifyFn : list ExtraConfiguration → result (list ExtraConfiguration)) (s : St W) :
  let run := notifier.modifyAndApplyExtraConfiguration org modifyFn s in
  only unrelated s run.2 ∧
  uid_draws run.2 = uid_draws s ∧
  ((run.1 ≠ None ∧ only inert s run.2) ∨
   (run.1 = None ∧ ∃ c, c ∈ calls_since s run.2 ∧ applied c = true)).
Proof.
  cbv zeta. unfold notifier.modifyAndApplyExtraConfiguration.
  rewrite ?M_bind_run.
  cbn [notifier.call_GetLatestAlertmanagerConfiguration reading fst snd].
  set (s1 := log (CallGetLatestAlertmanagerConfiguration org) s).
  assert (Hs1 : only inert s s1) by (by apply only_logged; [|apply only_refl]).
  assert (Hweak : ∀ s' : St W, only inert s s' → only unrelated s s').
  { intros s'. apply only_weaken, inert_unrelated. }
  destruct (GetLatestAlertmanagerConfiguration org (world s)) as [currentCfg|err0];
    [|split; [by apply Hweak|]; split; [done|]; by left].
  destruct (Load _) as [cfg|err1];
    [|split; [by apply Hweak|]; split; [done|]; by left].
  destruct (modifyFn _) as [ExtraConfigs|err2];
    [|split; [by apply Hweak|]; split; [done|]; by left].
  rewrite ?M_bind_run. cbn [reading fst snd].
  set (s2 := log (CallAlertmanagerFor org) s1).
  assert (Hs2 : only inert s s2) by by apply only_logged.
  destruct (AlertmanagerFor org (world s1)) as [am|am|err3];
    [| |split; [by apply Hweak|]; split; [done|]; by left].
  all: rewrite ?M_bind_run; unfold notifier.call_SaveAndApplyConfig.
  all: destruct (am_SaveAndApplyConfig am _ (world s2)) as [err4 w5].
  all: cbn [fst snd].
  all: destruct err4 as [err4|].
  all: rewrite ?M_bind_run; unfold mret, M_ret;
         cbn [notifier.logger_Error notifier.logger_Info fst snd notifier.is_nil].
  1,3: split; [apply only_logged; [done|]; apply only_logged; [done|];
               apply only_set_world; by apply Hweak|];
       split; [done|]; left; split; [done|];
       apply only_logged; [done|]; apply only_logged; [done|]; by apply only_set_world.
  all: split; [apply only_logged; [done|]; apply only_logged; [done|];
               apply only_set_world; by apply Hweak|].
  all: split; [done|]; right; split; [done|].
  all: destruct Hs2 as (pre & Hpre & _).
  all: exists (CallSaveAndApplyConfig (puc_set_ExtraConfigs ExtraConfigs cfg) true);
         split; [|done].
  all: unfold calls_since; cbn [calls log set_world]; rewrite Hpre.
  all: rewrite <- ?app_assoc, drop_app_length; set_solver.
Qed.

(** X13. Saving or deleting an extra configuration never touches a
    permission and never generates an identifier, whatever the outcome; and
    either call returns [nil] exactly when the live Alertmanager has
    accepted a configuration. *)
Theorem extra_configuration_touches_no_permission (org : Z) (extraConfig : ExtraConfiguration)
    (identifier : string) (s : St W) :
  let saved := notifier.SaveAndApplyExtraConfiguration org extraConfig s in
  let deleted := notifier.DeleteExtraConfiguration org identifier s in
  Forall unrelated (calls_since s saved.2) ∧
  uid_draws saved.2 = uid_draws s ∧
  (saved.1 = None ↔ ∃ c, c ∈ calls_since s saved.2 ∧ applied c = true) ∧
  Forall unrelated (calls_since s deleted.2) ∧
  uid_draws deleted.2 = uid_draws s ∧
  (deleted.1 = None ↔ ∃ c, c ∈ calls_since s deleted.2 ∧ applied c = true).
Proof.
  intros saved deleted.
  assert (Hiff : ∀ (s' : St W) (res : option error),
            (res ≠ None ∧ only inert s s') ∨
            (res = None ∧ ∃ c, c ∈ calls_since s s' ∧ applied c = true) →
            (res = None ↔ ∃ c, c ∈ calls_since s s' ∧ applied c = true)).
  { intros s' res [[Herr Hq]|[Hnil Hc]]; [|done].
    split; [done|]. intros (c & Hin & Hc). exfalso.
    apply only_calls_since in Hq. rewrite Forall_forall in Hq.
    destruct (Hq c Hin) as (Hinert & _). congruence. }
  assert (Hdeleted : Forall unrelated (calls_since s deleted.2) ∧
                     uid_draws deleted.2 = uid_draws s ∧
                     (deleted.1 = None ↔ ∃ c, c ∈ calls_since s deleted.2 ∧ applied c = true)).
  { subst deleted. unfold notifier.DeleteExtraConfiguration.
    destruct (modifyAndApplyExtraConfiguration_ended org
                (λ configs, Ok (filter (λ ec, Identifier ec ≠ identifier) configs)) s)
      as (Hun & Hdraws & Hend).
    split; [by apply only_calls_since|]. split; [done|]. by apply Hiff. }
  assert (Hsaved : Forall unrelated (calls_since s saved.2) ∧
                   uid_draws saved.2 = uid_draws s ∧
                   (saved.1 = None ↔ ∃ c, c ∈ calls_since s saved.2 ∧ applied c = true)).
  { subst saved. unfold notifier.SaveAndApplyExtraConfiguration.
    destruct (modifyAndApplyExtraConfiguration_ended org
                (notifier.SaveAndApplyExtraConfiguration_modifyFunc extraConfig) s)
      as (Hun & Hdraws & Hend).
    rewrite M_bind_run.
    destruct (notifier.modifyAndApplyExtraConfiguration org _ s) as [err s1].
    cbn [fst snd] in *.
    destruct err as [err|]; unfold mret, M_ret; cbn [fst snd].
    - split; [by apply only_calls_since|]. split; [done|]. by apply Hiff.
    - rewrite M_bind_run. cbn [notifier.logger_Info fst snd].
      split; [apply only_calls_since; by apply only_logged|]. split; [done|].
      split; [|done]. intros _.
      destruct Hend as [[Herr _]|[_ (c & Hin & Hc)]]; [done|].
      exists c. split; [|done].
      destruct Hun as (made & Hmade & _).
      rewrite (calls_since_app s s1 made Hmade) in Hin.
      rewrite (calls_since_app s _
                 (made ++ [LogInfo "Applied alertmanager configuration with extra config"]))
        by (by cbn; rewrite Hmade, app_assoc).
      set_solver. }
  clearbody saved deleted. tauto.
Qed.

End ExtraConfigurations.

(** ** The read path: secure fields, receivers, provenances *)

Section ReadPathShape.
Context {W : Type}.
Context `{!External, !ProvisioningStore W, !Crypto W}.

(** The secret stored under [k] decrypts to a value that is not empty. *)
Definition has_secret (pr : PostableGrafanaReceiver) (w : W) (k : string) : Prop :=
  ∃ decryptedValue, getDecryptedSecret pr k w = Ok decryptedValue ∧ decryptedValue ≠ "".

Lemma secureFields_of_acc (pr : PostableGrafanaReceiver) (keys : list string)
    (acc : gmap string bool) (w : W) :
  match notifier.secureFields_of pr keys acc w with
  | Ok secureFields =>
      (∀ k, k ∈ keys → ∃ decryptedValue, getDecryptedSecret pr k w = Ok decryptedValue) ∧
      (∀ k, k ∈ keys → has_secret pr w k → secureFields !! k = Some true) ∧
      (∀ k, ¬ (k ∈ keys ∧ has_secret pr w k) → secureFields !! k = acc !! k)
  | Err err =>
      ∃ k err0,
        k ∈ keys ∧ getDecryptedSecret pr k w = Err err0 ∧
        err = fmt_Errorf "failed to decrypt stored secure setting" err0
  end.
Proof.
  revert acc. induction keys as [|k keys IH]; intros acc; cbn.
  - split; [by intros k Hk; apply elem_of_nil in Hk|].
    split; [by intros k Hk; apply elem_of_nil in Hk|done].
  - destruct (getDecryptedSecret pr k w) as [decryptedValue|err0] eqn:Hk.
    2:{ exists k, err0. split; [by left|done]. }
    case_bool_decide as Hempty.
    + specialize (IH acc). destruct (notifier.secureFields_of pr keys acc w) as [m|err].
      * destruct IH as (Hall & Hgood & Hrest). split; [|split].
        -- intros k' [->|Hk']%elem_of_cons; [by eexists|by apply Hall].
        -- intros k' [->|Hk']%elem_of_cons Hsecret; [|by apply Hgood].
           destruct Hsecret as (v & Hv & Hne). congruence.
        -- intros k' Hnot. apply Hrest. intros [Hk' Hsecret]. apply Hnot.
           split; [by right|done].
      * destruct IH as (k' & err0 & Hk' & Hfail & ->). exists k', err0.
        split; [by right|done].
    + specialize (IH (<[k := true]> acc)).
      destruct (notifier.secureFields_of pr keys (<[k := true]> acc) w) as [m|err].
      * destruct IH as (Hall & Hgood & Hrest). split; [|split].
        -- intros k' [->|Hk']%elem_of_cons; [by eexists|by apply Hall].
        -- intros k' Hin Hsecret.
           destruct (decide (k' ∈ keys)) as [Hk'|Hk']; [by apply Hgood|].
           apply elem_of_cons in Hin as [->|Hin]; [|done].
           rewrite Hrest by (by intros [? _]). by rewrite lookup_insert_eq.
        -- intros k' Hnot. rewrite Hrest.
           ++ apply lookup_insert_ne. intros <-. apply Hnot.
              split; [by left|]. by exists decryptedValue.
           ++ intros [Hk' Hsecret]. apply Hnot. split; [by right|done].
      * destruct IH as (k' & err0 & Hk' & Hfail & ->). exists k', err0.
        split; [by right|done].
Qed.

Lemma secureFields_of_char (pr : PostableGrafanaReceiver) (keys : list string) (w : W)
    (secureFields : gmap string bool) :
  notifier.secureFields_of pr keys ∅ w = Ok secureFields →
  (∀ k, k ∈ keys → ∃ decryptedValue, getDecryptedSecret pr k w = Ok decryptedValue) ∧
  ∀ k b, secureFields !! k = Some b ↔ b = true ∧ k ∈ keys ∧ has_secret pr w k.
Proof.
  intros Hrun. pose proof (secureFields_of_acc pr keys ∅ w) as Hacc.
  rewrite Hrun in Hacc. destruct Hacc as (Hall & Hgood & Hrest).
  split; [done|]. intros k b. split.
  - intros Hk. destruct (decide (k ∈ keys)) as [Hin|Hout].
    + destruct (Hall k Hin) as (v & Hv).
      destruct (decide (v = "")) as [->|Hne].
      * rewrite Hrest in Hk; [done|]. intros [_ (v' & Hv' & Hne')]. congruence.
      * assert (Hsecret : has_secret pr w k) by (by exists v).
        rewrite (Hgood k Hin Hsecret) in Hk. by injection Hk as <-.
    + rewrite Hrest in Hk; [done|]. by intros [? _].
  - intros (-> & Hin & Hsecret). by apply Hgood.
Qed.

(** X14. The secure fields of a receiver, whatever the order in which the
    keys of [SecureSettings] are visited.  When every stored secret
    decrypts, the result marks [true] exactly the keys whose secret is not
    empty, and holds nothing else; it is the same for any other order of
    the same keys.  When a secret does not decrypt, the result is the
    error of such a key, wrapped. *)
Theorem secureFields_of_any_order (pr : PostableGrafanaReceiver) (keys : list string) (w : W) :
  match notifier.secureFields_of pr keys ∅ w with
  | Ok secureFields =>
      (∀ k, k ∈ keys → ∃ decryptedValue, getDecryptedSecret pr k w = Ok decryptedValue) ∧
      (∀ k b, secureFields !! k = Some b ↔ b = true ∧ k ∈ keys ∧ has_secret pr w k) ∧
      (∀ keys', (∀ k, k ∈ keys' ↔ k ∈ keys) →
                notifier.secureFields_of pr keys' ∅ w = Ok secureFields)
  | Err err =>
      ∃ k err0,
        k ∈ keys ∧ getDecryptedSecret pr k w = Err err0 ∧
        err = fmt_Errorf "failed to decrypt stored secure setting" err0
  end.
Proof.
  destruct (notifier.secureFields_of pr keys ∅ w) as [m|err] eqn:Hrun.
  2:{ pose proof (secureFields_of_acc pr keys ∅ w) as Hacc. by rewrite Hrun in Hacc. }
  destruct (secureFields_of_char pr keys w m Hrun) as (Hall & Hm).
  split; [done|]. split; [done|].
  intros keys' Hsame.
  pose proof (secureFields_of_acc pr keys' ∅ w) as Hacc'.
  destruct (notifier.secureFields_of pr keys' ∅ w) as [m'|err'] eqn:Hrun'.
  - f_equal. destruct (secureFields_of_char pr keys' w m' Hrun') as (_ & Hm').
    apply map_eq. intros k. apply option_eq. intros b.
    rewrite Hm, Hm', Hsame. done.
  - destruct Hacc' as (k & err0 & Hk & Hfail & _).
    apply Hsame in Hk. destruct (Hall k Hk) as (v & Hv). congruence.
Qed.

(** What a stored Grafana-managed receiver is turned into. *)
Definition gettable_of (w : W) (pr : PostableGrafanaReceiver) (gr : GettableGrafanaReceiver)
    : Prop :=
  ggr_UID gr = pgr_UID pr ∧ ggr_Name gr = pgr_Name pr ∧ ggr_Type gr = pgr_Type pr ∧
  ggr_DisableResolveMessage gr = pgr_DisableResolveMessage pr ∧
  ggr_Settings gr = pgr_Settings pr ∧
  ggr_Provenance gr = ProvenanceNone ∧
  ∀ k b, ggr_SecureFields gr !! k = Some b ↔
         b = true ∧ is_Some (pgr_SecureSettings pr !! k) ∧ has_secret pr w k.

Definition decryption_failure (err : error) : Prop :=
  ∃ err0, err = fmt_Errorf "failed to decrypt stored secure setting" err0.

Lemma gettable_managed_shape (prs : list PostableGrafanaReceiver) (w : W) :
  match notifier.gettable_managed prs w with
  | Ok receivers => Forall2 (gettable_of w) prs receivers
  | Err err => decryption_failure err
  end.
Proof.
  induction prs as [|pr prs IH]; cbn; [constructor|].
  pose proof (secureFields_of_acc pr (map_to_list (pgr_SecureSettings pr)).*1 ∅ w) as Hacc.
  destruct (notifier.secureFields_of pr _ ∅ w) as [m|err] eqn:Hrun.
  2:{ destruct Hacc as (k & err0 & _ & _ & ->). by exists err0. }
  destruct (notifier.gettable_managed prs w) as [receivers|err]; [|done].
  constructor; [|done].
  destruct (secureFields_of_char _ _ _ _ Hrun) as (_ & Hm).
  do 6 (split; [done|]). cbn. intros k b. rewrite Hm.
  assert (Hkeys : k ∈ (map_to_list (pgr_SecureSettings pr)).*1
                  ↔ is_Some (pgr_SecureSettings pr !! k)).
  { rewrite list_elem_of_fmap. split.
    - intros ([k' v] & -> & Hin). apply elem_of_map_to_list in Hin. by eexists.
    - intros [v Hv]. exists (k, v). split; [done|]. by apply elem_of_map_to_list. }
  by rewrite Hkeys.
Qed.

(** X15. The conversion of the stored receivers for a read.  When it
    succeeds, the receivers come out in the same number and order with
    their names; so do the Grafana-managed receivers of each, with their
    UID, name, type, settings and resolve flag, no provenance yet, and as
    secure fields the keys of [SecureSettings] whose secret decrypts to a
    value that is not empty.  It fails only with a wrapped decryption
    error. *)
Theorem gettable_receivers_shape (recvs : list PostableApiReceiver) (w : W) :
  match notifier.gettable_receivers recvs w with
  | Ok out =>
      Forall2 (λ recv gettableApiReceiver,
                 gar_Name gettableApiReceiver = par_Name recv ∧
                 Forall2 (gettable_of w) (par_GrafanaManagedReceivers recv)
                         (gar_GrafanaManagedReceivers gettableApiReceiver))
              recvs out
  | Err err => decryption_failure err
  end.
Proof.
  induction recvs as [|recv recvs IH]; cbn; [constructor|].
  pose proof (gettable_managed_shape (par_GrafanaManagedReceivers recv) w) as Hmanaged.
  destruct (notifier.gettable_managed _ w) as [receivers|err]; [|done].
  destruct (notifier.gettable_receivers recvs w) as [rest|err]; [|done].
  by constructor.
Qed.

End ReadPathShape.

(** ** [mergeProvenance] *)

Section MergeProvenance.
Context {W : Type}.
Context `{!External, !ProvisioningStore W}.

(** X16. The errors of [mergeProvenance]: it returns an error exactly when
    the provenance of the route cannot be read, or, that read being made
    and answered or not needed, when the provenances of the contact points
    cannot be read; the error is the one of the provenance store, as it
    is.  No failure of a later read comes out as an error. *)
Theorem mergeProvenance_error_iff (config : GettableUserConfig) (org : Z) (s : St W)
    (err : error) :
  (notifier.mergeProvenance config org s).1 = Err err ↔
  (∃ route,
     cfg_Route (gaac_Config (guc_AlertmanagerConfig config)) = Some route ∧
     GetProvenance (Route_Provisionable route) org (world s) = Err err) ∨
  ((∀ route,
      cfg_Route (gaac_Config (guc_AlertmanagerConfig config)) = Some route →
      ∃ provenance, GetProvenance (Route_Provisionable route) org (world s) = Ok provenance) ∧
   GetProvenances org EmbeddedContactPoint_ResourceType (world s) = Err err).
Proof.
  unfold notifier.mergeProvenance.
  destruct (cfg_Route (gaac_Config (guc_AlertmanagerConfig config))) as [route|].
  - rewrite ?M_bind_run. cbn [reading fst snd world log].
    destruct (GetProvenance (Route_Provisionable route) org (world s)) as [provenance|err0]
      eqn:Hroute.
    + unfold mret, M_ret. cbn [fst snd].
      rewrite ?M_bind_run. cbn [notifier.call_GetProvenances reading fst snd world log].
      destruct (GetProvenances org EmbeddedContactPoint_ResourceType (world s))
        as [cpProvs|err1] eqn:Hcp.
      * rewrite ?M_bind_run. cbn [notifier.call_GetProvenances reading fst snd world log].
        split.
        -- intros Hrun. exfalso.
           destruct (GetProvenances org NotificationTemplate_ResourceType (world s)); [|done].
           rewrite ?M_bind_run in Hrun.
           cbn [notifier.call_GetProvenances reading fst snd world log] in Hrun.
           by destruct (GetProvenances org MuteTimeInterval_ResourceType (world s)).
        -- intros [(route' & [= <-] & Hfail)|(_ & Hfail)]; congruence.
      * cbn. split.
        -- intros [= <-]. right. split; [|done]. intros route' [= <-]. by eexists.
        -- intros [(route' & [= <-] & Hfail)|(_ & Hfail)]; congruence.
    + unfold mret, M_ret. cbn [fst snd]. split.
      * intros [= <-]. left. by exists route.
      * intros [(route' & [= <-] & Hfail)|(Hread & _)]; [congruence|].
        destruct (Hread route eq_refl) as (provenance & Hok). congruence.
  - rewrite ?M_bind_run. unfold mret, M_ret. cbn [fst snd].
    rewrite ?M_bind_run. cbn [notifier.call_GetProvenances reading fst snd world log].
    destruct (GetProvenances org EmbeddedContactPoint_ResourceType (world s))
      as [cpProvs|err1] eqn:Hcp.
    + rewrite ?M_bind_run. cbn [notifier.call_GetProvenances reading fst snd world log].
      split.
      * intros Hrun. exfalso.
        destruct (GetProvenances org NotificationTemplate_ResourceType (world s)); [|done].
        rewrite ?M_bind_run in Hrun.
        cbn [notifier.call_GetProvenances reading fst snd world log] in Hrun.
        by destruct (GetProvenances org MuteTimeInterval_ResourceType (world s)).
      * intros [(route' & [=] & _)|(_ & Hfail)]; congruence.
    + cbn. split.
      * intros [= <-]. right. split; [|done]. by intros route' [=].
      * intros [(route' & [=] & _)|(_ & Hfail)]; congruence.
Qed.

(** What [mergeProvenance] does to one contact point. *)
Definition with_stored_provenance (cpProvs : gmap string Provenance)
    (contactPoint : GettableGrafanaReceiver) : GettableGrafanaReceiver :=
  match cpProvs !! ggr_UID contactPoint with
  | Some provenance => ggr_set_Provenance provenance contactPoint
  | None => contactPoint
  end.

(** X17. What [mergeProvenance] fills in.  When the three reads of
    provenance maps succeed and the call returns a configuration, that
    configuration has the template provenances and the mute-timing
    provenances of the store; its route, if any, is the one given with its
    stored provenance; its receivers are the ones given, in order and by
    name, each contact point with the provenance stored for its UID, and
    left as it was when the store has none; template files, extra
    configurations, inhibition rules and the rest of the configuration are
    the ones given. *)
Theorem mergeProvenance_fills (config : GettableUserConfig) (org : Z) (s : St W)
    (cpProvs tmplProvs mtProvs : gmap string Provenance) (out : GettableUserConfig) :
  GetProvenances org EmbeddedContactPoint_ResourceType (world s) = Ok cpProvs →
  GetProvenances org NotificationTemplate_ResourceType (world s) = Ok tmplProvs →
  GetProvenances org MuteTimeInterval_ResourceType (world s) = Ok mtProvs →
  (notifier.mergeProvenance config org s).1 = Ok out →
  guc_TemplateFileProvenances out = tmplProvs ∧
  gaac_MuteTimeProvenances (guc_AlertmanagerConfig out) = mtProvs ∧
  match cfg_Route (gaac_Config (guc_AlertmanagerConfig config)) with
  | Some route =>
      ∃ provenance,
        GetProvenance (Route_Provisionable route) org (world s) = Ok provenance ∧
        cfg_Route (gaac_Config (guc_AlertmanagerConfig out))
          = Some (route_set_Provenance provenance route)
  | None => cfg_Route (gaac_Config (guc_AlertmanagerConfig out)) = None
  end ∧
  Forall2 (λ receiver receiver',
             gar_Name receiver' = gar_Name receiver ∧
             gar_GrafanaManagedReceivers receiver'
               = with_stored_provenance cpProvs <$> gar_GrafanaManagedReceivers receiver)
          (gaac_Receivers (guc_AlertmanagerConfig config))
          (gaac_Receivers (guc_AlertmanagerConfig out)) ∧
  guc_TemplateFiles out = guc_TemplateFiles config ∧
  guc_ExtraConfigs out = guc_ExtraConfigs config ∧
  cfg_InhibitRules (gaac_Config (guc_AlertmanagerConfig out))
    = cfg_InhibitRules (gaac_Config (guc_AlertmanagerConfig config)) ∧
  cfg_Rest (gaac_Config (guc_AlertmanagerConfig out))
    = cfg_Rest (gaac_Config (guc_AlertmanagerConfig config)).
Proof.
  intros Hcp Htmpl Hmt.
  assert (Hreceivers : ∀ Receivers,
            Forall2 (λ receiver receiver',
                       gar_Name receiver' = gar_Name receiver ∧
                       gar_GrafanaManagedReceivers receiver'
                         = with_stored_provenance cpProvs <$> gar_GrafanaManagedReceivers receiver)
                    Receivers (notifier.merge_contactPoints cpProvs Receivers)).
  { intros Receivers. unfold notifier.merge_contactPoints.
    induction Receivers as [|receiver Receivers IH]; [constructor|].
    rewrite fmap_cons. constructor; [|done]. done. }
  destruct (cfg_Route (gaac_Config (guc_AlertmanagerConfig config))) as [route|] eqn:Hroute.
  - destruct (GetProvenance (Route_Provisionable route) org (world s)) as [provenance|err0]
      eqn:Hprov.
    + rewrite (mergeProvenance_merges config org s
                 (notifier.guc_set_Route (route_set_Provenance provenance route) config)
                 cpProvs tmplProvs mtProvs); [|rewrite Hroute; by eexists|done..].
      intros [= <-]. cbn.
      split; [done|]. split; [done|]. split; [by exists provenance|].
      split; [apply Hreceivers|]. done.
    + unfold notifier.mergeProvenance. rewrite Hroute.
      rewrite ?M_bind_run. cbn [reading fst snd world log]. by rewrite Hprov.
  - rewrite (mergeProvenance_merges config org s config cpProvs tmplProvs mtProvs);
      [|by rewrite Hroute|done..].
    intros [= <-]. cbn. rewrite Hroute.
    split; [done|]. split; [done|]. split; [done|].
    split; [apply Hreceivers|]. done.
Qed.

End MergeProvenance.

(** ** The history of applied configurations *)

Section History.
Context {W : Type}.
Context `{!External, !ConfigurationStore W, !ProvisioningStore W, !Crypto W,
          !ReceiverPermissions W, !Alertmanagers W, !ConfigurationHistory W}.

(** The read path only reads: its result depends on the world alone, and
    it leaves the world as it was. *)
Lemma mergeProvenance_reads (config : GettableUserConfig) (org : Z) (s s0 : St W) :
  world s = world s0 →
  (notifier.mergeProvenance config org s).1 = (notifier.mergeProvenance config org s0).1 ∧
  world (notifier.mergeProvenance config org s).2 = world s0.
Proof.
  intros Hw. unfold notifier.mergeProvenance.
  destruct (cfg_Route (gaac_Config (guc_AlertmanagerConfig config))) as [route|].
  - rewrite ?M_bind_run. cbn [reading fst snd world log]. rewrite Hw.
    destruct (GetProvenance (Route_Provisionable route) org (world s0)); [|done].
    unfold mret, M_ret. cbn [fst snd].
    rewrite ?M_bind_run. cbn [notifier.call_GetProvenances reading fst snd world log].
    rewrite Hw.
    destruct (GetProvenances org EmbeddedContactPoint_ResourceType (world s0)); [|done].
    rewrite ?M_bind_run. cbn [notifier.call_GetProvenances reading fst snd world log].
    rewrite Hw.
    destruct (GetProvenances org NotificationTemplate_ResourceType (world s0)); [|done].
    rewrite ?M_bind_run. cbn [notifier.call_GetProvenances reading fst snd world log].
    rewrite Hw.
    by destruct (GetProvenances org MuteTimeInterval_ResourceType (world s0)).
  - rewrite ?M_bind_run. unfold mret, M_ret. cbn [fst snd].
    rewrite ?M_bind_run. cbn [notifier.call_GetProvenances reading fst snd world log].
    rewrite Hw.
    destruct (GetProvenances org EmbeddedContactPoint_ResourceType (world s0)); [|done].
    rewrite ?M_bind_run. cbn [notifier.call_GetProvenances reading fst snd world log].
    rewrite Hw.
    destruct (GetProvenances org NotificationTemplate_ResourceType (world s0)); [|done].
    rewrite ?M_bind_run. cbn [notifier.call_GetProvenances reading fst snd world log].
    rewrite Hw.
    by destruct (GetProvenances org MuteTimeInterval_ResourceType (world s0)).
Qed.

Lemma gettableUserConfigFromAMConfigString_reads (orgID : Z) (config : string) (s s0 : St W) :
  world s = world s0 →
  (notifier.gettableUserConfigFromAMConfigString orgID config s).1
    = (notifier.gettableUserConfigFromAMConfigString orgID config s0).1 ∧
  world (notifier.gettableUserConfigFromAMConfigString orgID config s).2 = world s0.
Proof.
  intros Hw. unfold notifier.gettableUserConfigFromAMConfigString.
  destruct (Load config) as [cfg|err]; [|done].
  rewrite ?M_bind_run. cbn [reading fst snd world log]. rewrite Hw.
  destruct (DecryptExtraConfigs cfg (world s0)) as [cfg'|err]; [|done].
  rewrite ?M_bind_run. cbn [reading fst snd world log]. rewrite Hw.
  destruct (EncryptReceiverConfigSettings _ _) as [Receivers|err]; [|done].
  rewrite ?M_bind_run. cbn [reading fst snd world log]. rewrite Hw.
  destruct (notifier.gettable_receivers Receivers (world s0)) as [Receivers'|err]; [|done].
  match goal with
  | |- (notifier.mergeProvenance ?c _ ?a).1 = (notifier.mergeProvenance _ _ ?b).1 ∧ _ =>
      exact (mergeProvenance_reads c orgID a b Hw)
  end.
Qed.

(** What [GetAppliedAlertmanagerConfigurations] makes of one record of the
    history, from what the read path makes of its text. *)
Definition historic (config : AlertConfiguration) (converted : result GettableUserConfig)
    : option GettableHistoricUserConfig :=
  match converted with
  | Ok gettableConfig =>
      Some {| ghuc_ID := ac_ID config;
              ghuc_TemplateFiles := guc_TemplateFiles gettableConfig;
              ghuc_TemplateFileProvenances := guc_TemplateFileProvenances gettableConfig;
              ghuc_AlertmanagerConfig := guc_AlertmanagerConfig gettableConfig;
              ghuc_LastApplied := Some (ac_LastApplied config) |}
  | Err _ => None
  end.

Lemma applied_configuration_step (org : Z) (acc : list GettableHistoricUserConfig)
    (config : AlertConfiguration) (s : St W) :
  let converted := notifier.gettableUserConfigFromAMConfigString org
                     (ac_AlertmanagerConfiguration config) s in
  MultiOrgAlertmanager.applied_configuration org acc config s
    = (acc ++ option_list (historic config converted.1), converted.2).
Proof.
  cbv zeta. unfold MultiOrgAlertmanager.applied_configuration. rewrite M_bind_run.
  destruct (notifier.gettableUserConfigFromAMConfigString org _ s) as [[gettableConfig|err] s1].
  - done.
  - cbn. by rewrite app_nil_r.
Qed.

Lemma applied_configurations_loop (org : Z) (configs : list AlertConfiguration)
    (acc : list GettableHistoricUserConfig) (s s0 : St W) :
  world s = world s0 →
  (for_range configs (MultiOrgAlertmanager.applied_configuration org) acc s).1
    = acc ++ omap (λ config,
                     historic config
                       (notifier.gettableUserConfigFromAMConfigString org
                          (ac_AlertmanagerConfiguration config) s0).1) configs ∧
  world (for_range configs (MultiOrgAlertmanager.applied_configuration org) acc s).2
    = world s0.
Proof.
  revert acc s. induction configs as [|config configs IH]; intros acc s Hw.
  - cbn. by rewrite app_nil_r.
  - cbn [for_range omap list_omap]. rewrite M_bind_run, applied_configuration_step.
    cbn [fst snd].
    destruct (gettableUserConfigFromAMConfigString_reads org
                (ac_AlertmanagerConfiguration config) s s0 Hw) as (Hres & Hw').
    rewrite Hres.
    destruct (IH (acc ++ option_list
                            (historic config
                               (notifier.gettableUserConfigFromAMConfigString org
                                  (ac_AlertmanagerConfiguration config) s0).1))
                 _ Hw') as (-> & ->).
    split; [|done]. rewrite <- app_assoc. f_equal.
    by destruct (historic config _).
Qed.

(** X18. [GetAppliedAlertmanagerConfigurations], once the store has
    answered with the applied records: the call does not fail; it returns,
    in the order of the records, one entry for each record whose text the
    read path converts, with the id and the time of application of the
    record and the converted content, and skips the records that do not
    convert; so the ids returned are a sublist of the ids of the records.
    The world is as it was. *)
Theorem GetAppliedAlertmanagerConfigurations_skips (org limit : Z) (s : St W)
    (configs : list AlertConfiguration) :
  GetAppliedConfigurations org limit (world s) = Ok configs →
  let run := MultiOrgAlertmanager.GetAppliedAlertmanagerConfigurations org limit s in
  let converted := λ config,
    (notifier.gettableUserConfigFromAMConfigString org
       (ac_AlertmanagerConfiguration config) s).1 in
  run.1 = Ok (omap (λ config, historic config (converted config)) configs) ∧
  ghuc_ID <$> omap (λ config, historic config (converted config)) configs
    `sublist_of` ac_ID <$> configs ∧
  world run.2 = world s.
Proof.
  intros Hconfigs run converted. subst run.
  unfold MultiOrgAlertmanager.GetAppliedAlertmanagerConfigurations.
  rewrite M_bind_run. unfold MultiOrgAlertmanager.call_GetAppliedConfigurations.
  cbn [fst snd]. rewrite Hconfigs. rewrite M_bind_run.
  destruct (applied_configurations_loop org configs [] s s eq_refl) as (Hres & Hw).
  unfold mret, M_ret. cbn [fst snd]. rewrite Hres, Hw. cbn [app].
  split; [done|]. split; [|done].
  clear. induction configs as [|config configs IH]; [done|].
  cbn [omap list_omap fmap list_fmap]. unfold historic at 1.
  destruct (converted config); cbn.
  - by apply sublist_skip.
  - by apply sublist_cons.
Qed.

Lemma ended_after (cleanup : M W (option error)) (s s5 : St W) :
  only (λ _, True) s s5 →
  (∃ c, c ∈ calls_since s s5 ∧ applied c = true) →
  reports cleanup →
  ended s
    (notifier.report_cleanPermissions (cleanup s5).1 (cleanup s5).2).2
    (notifier.report_cleanPermissions (cleanup s5).1 (cleanup s5).2).1.
Proof.
  intros (pre & Hpre & _) (c & Hin & Hc) Hreports.
  rewrite (calls_since_app s s5 pre Hpre) in Hin.
  destruct (Hreports s5) as (made & Hmade & _).
  destruct (cleanup s5) as [err s6]. cbn [fst snd] in *.
  right. split; [apply report_cleanPermissions_nil|].
  exists c. split; [|done].
  unfold notifier.report_cleanPermissions, notifier.logger_Error, mbind, M_bind, mret, M_ret.
  destruct err as [err|]; cbn [fst snd].
  - rewrite (calls_since_app s _
               (pre ++ made ++ [LogError "Failed to clean permissions for receivers" (Some err)]))
      by (cbn; by rewrite Hmade, Hpre, <- !app_assoc).
    set_solver.
  - rewrite (calls_since_app s s6 (pre ++ made)) by (by rewrite Hmade, Hpre, <- !app_assoc).
    set_solver.
Qed.

(** An activation that fails has had no configuration accepted and has
    made no permission call; one that returns [nil] has had a configuration
    accepted; one that could not read the latest configuration makes no
    permission call. *)
Lemma ActivateHistoricalConfiguration_ends (orgId id : Z) (s : St W) :
  let run := MultiOrgAlertmanager.ActivateHistoricalConfiguration orgId id s in
  (run.1 ≠ None → Forall inert (calls_since s run.2)) ∧
  (run.1 = None → ∃ c, c ∈ calls_since s run.2 ∧ applied c = true) ∧
  (∀ err, GetLatestAlertmanagerConfiguration orgId (world s) = Err err →
          Forall unrelated (calls_since s run.2)).
Proof.
  cbv zeta.
  assert (Hweak : ∀ s' : St W, only inert s s' → only unrelated s s').
  { intros s'. apply only_weaken, inert_unrelated. }
  assert (Hended : ∀ (s' : St W) (res : option error),
            res ≠ None → only inert s s' →
            (res ≠ None → Forall inert (calls_since s s')) ∧
            (res = None → ∃ c, c ∈ calls_since s s' ∧ applied c = true) ∧
            (∀ err, GetLatestAlertmanagerConfiguration orgId (world s) = Err err →
                    Forall unrelated (calls_since s s'))).
  { intros s' res Herr Hq. split; [intros _; by apply only_calls_since|].
    split; [done|]. intros err _. by apply only_calls_since, Hweak. }
  unfold MultiOrgAlertmanager.ActivateHistoricalConfiguration.
  rewrite ?M_bind_run. unfold MultiOrgAlertmanager.call_GetHistoricalConfiguration.
  cbn [fst snd].
  destruct (GetHistoricalConfiguration orgId id (world s)) as [config|err0];
    [|apply Hended; [done|apply only_refl]].
  destruct (Load _) as [cfg|err1]; [|apply Hended; [done|apply only_refl]].
  rewrite ?M_bind_run. cbn [reading fst snd].
  set (s1 := log (CallAlertmanagerFor orgId) s).
  assert (Hs1 : only inert s s1) by (by apply only_logged; [|apply only_refl]).
  destruct (AlertmanagerFor orgId (world s)) as [am|am|err2]; [| |by apply Hended].
  all: rewrite ?M_bind_run.
  all: cbn [notifier.call_GetLatestAlertmanagerConfiguration reading fst snd].
  all: change (world s1) with (world s).
  all: set (s2 := log (CallGetLatestAlertmanagerConfiguration orgId) s1).
  all: assert (Hs2 : only inert s s2) by by apply only_logged.
  all: rewrite ?M_bind_run; unfold notifier.call_SaveAndApplyConfig.
  all: destruct (am_SaveAndApplyConfig am cfg (world s2)) as [err3 w3].
  all: cbn [fst snd].
  all: destruct err3 as [err3|];
         [rewrite ?M_bind_run; cbn [notifier.logger_Error fst snd mret M_ret];
          apply Hended; [done|];
          apply only_logged; [done|]; apply only_logged; [done|]; by apply only_set_world|].
  all: rewrite ?M_bind_run; cbn [notifier.logger_Info fst snd notifier.is_nil].
  all: set (s4 := log (LogInfo "Applied historical alertmanager configuration")
                    (log (CallSaveAndApplyConfig cfg true) (set_world w3 s2))).
  all: assert (Hs4 : only unrelated s s4)
         by (apply only_logged; [done|]; apply only_logged; [done|];
             apply only_set_world; by apply Hweak).
  all: assert (Happlied : ∃ c, c ∈ calls_since s s4 ∧ applied c = true)
         by (exists (CallSaveAndApplyConfig cfg true); split; [|done];
             destruct Hs2 as (pre & Hpre & _);
             unfold calls_since; subst s4; cbn [calls log set_world]; rewrite Hpre;
             rewrite <- ?app_assoc, drop_app_length; set_solver).
  all: match goal with
       | |- context [notifier.report_cleanPermissions (?m ?s5).1 (?m ?s5).2] =>
           assert (Hend : ended s (notifier.report_cleanPermissions (m s5).1 (m s5).2).2
                                  (notifier.report_cleanPermissions (m s5).1 (m s5).2).1);
           [apply ended_after; [by eapply only_grows|done|];
            destruct (GetLatestAlertmanagerConfiguration orgId (world s));
              [destruct (notifier.extractReceiverNames _);
                 [apply reports_cleanPermissions|apply reports_mret]
              |apply reports_mret]
           |]
       end.
  all: split; [|split].
  all: try (intros Herr; destruct Hend as [[_ Hq]|[Hnil _]];
            [by apply only_calls_since|done]).
  all: try (intros Hnil; by destruct Hend as [[Herr _]|[_ Hc]]).
  all: intros err Hget; rewrite Hget.
  all: unfold mret, M_ret; cbn [fst snd].
  all: by apply only_calls_since, report_unrelated.
Qed.


(** The activation hands the historical configuration to the Alertmanager
    whether the latest configuration could be read or not. *)
Lemma ActivateHistoricalConfiguration_goes_on (orgId id : Z) (s : St W)
    (err : error) (config : AlertConfiguration) (cfg : PostableUserConfig)
    (am : Alertmanager) (res : option error) (w' : W) :
  GetLatestAlertmanagerConfiguration orgId (world s) = Err err →
  GetHistoricalConfiguration orgId id (world s) = Ok config →
  Load (ac_AlertmanagerConfiguration config) = Ok cfg →
  AlertmanagerFor orgId (world s) = AlertmanagerReady am ∨
  AlertmanagerFor orgId (world s) = AlertmanagerNotReady am →
  am_SaveAndApplyConfig am cfg (world s) = (res, w') →
  let run := MultiOrgAlertmanager.ActivateHistoricalConfiguration orgId id s in
  CallSaveAndApplyConfig cfg (notifier.is_nil res) ∈ calls_since s run.2 ∧
  world run.2 = w' ∧
  (res = None →
   run.1 = None ∧
   LogError "Failed to clean permissions for receivers" (Some err) ∈ calls_since s run.2) ∧
  (∀ refusal, res = Some refusal → run.1 = Some (AlertmanagerConfigRejectedError refusal)).
Proof.
  intros Hget Hhist Hload Ham Happly run. subst run.
  unfold MultiOrgAlertmanager.ActivateHistoricalConfiguration.
  rewrite ?M_bind_run. unfold MultiOrgAlertmanager.call_GetHistoricalConfiguration.
  cbn [fst snd]. rewrite Hhist, Hload.
  rewrite ?M_bind_run. cbn [reading fst snd].
  destruct (AlertmanagerFor orgId (world s)) as [am0|am0|err0] eqn:Hfound.
  3:{ by destruct Ham. }
  all: assert (am0 = am) as -> by (destruct Ham as [Ham|Ham]; congruence).
  all: rewrite ?M_bind_run.
  all: cbn [notifier.call_GetLatestAlertmanagerConfiguration reading fst snd world log].
  all: rewrite Hget.
  all: rewrite ?M_bind_run; unfold notifier.call_SaveAndApplyConfig.
  all: cbn [world log]; rewrite Happly; cbn [fst snd].
  all: destruct res as [refusal|]; cbn [notifier.is_nil].
  all: rewrite ?M_bind_run;
         cbn [notifier.logger_Error notifier.logger_Info notifier.report_cleanPermissions
              fst snd mret M_ret].
  all: unfold mret, M_ret, mbind, M_bind, notifier.logger_Error; cbn [fst snd].
  all: split; [|split; [done|split]].
  all: try (intros refusal' [= <-]; done).
  all: try done.
  all: try (intros _; split; [done|]).
  all: unfold calls_since; cbn [calls log set_world];
         rewrite <- ?app_assoc, drop_app_length; set_solver.
Qed.

(** X19. [ActivateHistoricalConfiguration] and its outcome.  When it returns
    an error, the live Alertmanager has accepted no configuration and no
    permission was deleted or installed; when it returns [nil], the live
    Alertmanager has accepted the historical configuration.  When the
    latest configuration cannot be read before the activation, the call
    makes no permission call at all, and it still goes on: once the
    historical record is found and loads and the organisation has an
    Alertmanager, ready or not, that Alertmanager is handed the loaded
    configuration; if it accepts, the call returns [nil] and the log has
    the entry "Failed to clean permissions for receivers" with the error
    of the read; if it refuses, the call returns the refusal as an
    [AlertmanagerConfigRejectedError]. *)
Theorem ActivateHistoricalConfiguration_outcome (orgId id : Z) (s : St W) :
  let run := MultiOrgAlertmanager.ActivateHistoricalConfiguration orgId id s in
  (run.1 ≠ None → Forall inert (calls_since s run.2)) ∧
  (run.1 = None → ∃ c, c ∈ calls_since s run.2 ∧ applied c = true) ∧
  (∀ err, GetLatestAlertmanagerConfiguration orgId (world s) = Err err →
          Forall unrelated (calls_since s run.2)) ∧
  (∀ err config cfg am res w',
     GetLatestAlertmanagerConfiguration orgId (world s) = Err err →
     GetHistoricalConfiguration orgId id (world s) = Ok config →
     Load (ac_AlertmanagerConfiguration config) = Ok cfg →
     AlertmanagerFor orgId (world s) = AlertmanagerReady am ∨
     AlertmanagerFor orgId (world s) = AlertmanagerNotReady am →
     am_SaveAndApplyConfig am cfg (world s) = (res, w') →
     CallSaveAndApplyConfig cfg (notifier.is_nil res) ∈ calls_since s run.2 ∧
     world run.2 = w' ∧
     (res = None →
      run.1 = None ∧
      LogError "Failed to clean permissions for receivers" (Some err)
        ∈ calls_since s run.2) ∧
     (∀ refusal, res = Some refusal →
                 run.1 = Some (AlertmanagerConfigRejectedError refusal))).
Proof.
  intros run.
  destruct (ActivateHistoricalConfiguration_ends orgId id s) as (Herr & Hnil & Hunread).
  split; [exact Herr|]. split; [exact Hnil|]. split; [exact Hunread|].
  intros err config cfg am res w' Hget Hhist Hload Ham Happly.
  exact (ActivateHistoricalConfiguration_goes_on orgId id s err config cfg am res w'
           Hget Hhist Hload Ham Happly).
Qed.

(** X20. [ActivateHistoricalConfiguration] end to end.  When the historical
    record is found and loads, the organisation has an Alertmanager, ready
    or not, that accepts the loaded configuration, and the latest
    configuration and the text of the historical record both yield their
    receiver names: the call returns [nil], the Alertmanager was handed the
    loaded configuration, and the permission calls are, up to order, one
    deletion for each receiver name of the latest configuration that the
    historical one does not have, and one default install for each name
    of the historical one that the latest did not have. *)
Theorem ActivateHistoricalConfiguration_reconciles (orgId id : Z) (s : St W)
    (config previousConfig : AlertConfiguration) (cfg : PostableUserConfig)
    (am : Alertmanager) (w' : W) (previousReceiverNames newReceiverNames : gset string) :
  GetHistoricalConfiguration orgId id (world s) = Ok config →
  Load (ac_AlertmanagerConfiguration config) = Ok cfg →
  AlertmanagerFor orgId (world s) = AlertmanagerReady am ∨
  AlertmanagerFor orgId (world s) = AlertmanagerNotReady am →
  GetLatestAlertmanagerConfiguration orgId (world s) = Ok previousConfig →
  am_SaveAndApplyConfig am cfg (world s) = (None, w') →
  notifier.extractReceiverNames (ac_AlertmanagerConfiguration previousConfig)
    = Ok previousReceiverNames →
  notifier.extractReceiverNames (ac_AlertmanagerConfiguration config)
    = Ok newReceiverNames →
  let run := MultiOrgAlertmanager.ActivateHistoricalConfiguration orgId id s in
  let made := calls_since s run.2 in
  let uid_of := λ receiverName, (orgId, NameToUid receiverName) in
  run.1 = None ∧
  CallSaveAndApplyConfig cfg true ∈ made ∧
  deletions made ≡ₚ uid_of <$> elements (previousReceiverNames ∖ newReceiverNames) ∧
  default_installs made ≡ₚ uid_of <$> elements (newReceiverNames ∖ previousReceiverNames).
Proof.
  intros Hhist Hload Ham Hget Happly Hprev Hnew run made uid_of.
  set (s5 := log (LogInfo "Applied historical alertmanager configuration")
               (log (CallSaveAndApplyConfig cfg true)
                  (set_world w'
                     (log (CallGetLatestAlertmanagerConfiguration orgId)
                        (log (CallAlertmanagerFor orgId) s))))).
  assert (Hs5 : only unrelated s s5).
  { apply only_logged; [done|]. apply only_logged; [done|]. apply only_set_world.
    apply only_logged; [done|]. apply only_logged; [done|]. apply only_refl. }
  pose proof (reconcile_tail orgId previousConfig previousReceiverNames newReceiverNames s s5
                Hprev Hs5) as Htail.
  cbv zeta in Htail.
  assert (Hrun : run =
    notifier.report_cleanPermissions
      (notifier.cleanPermissions orgId previousConfig newReceiverNames s5).1
      (notifier.cleanPermissions orgId previousConfig newReceiverNames s5).2).
  { subst run. unfold MultiOrgAlertmanager.ActivateHistoricalConfiguration.
    rewrite ?M_bind_run. unfold MultiOrgAlertmanager.call_GetHistoricalConfiguration.
    cbn [fst snd]. rewrite Hhist, Hload.
    rewrite ?M_bind_run. cbn [reading fst snd].
    destruct Ham as [Ham|Ham]; rewrite Ham.
    all: rewrite ?M_bind_run.
    all: cbn [notifier.call_GetLatestAlertmanagerConfiguration reading fst snd world log].
    all: rewrite Hget.
    all: rewrite ?M_bind_run; unfold notifier.call_SaveAndApplyConfig.
    all: cbn [world log]; rewrite Happly.
    all: cbn [fst snd notifier.is_nil].
    all: rewrite ?M_bind_run; cbn [notifier.logger_Info fst snd].
    all: by rewrite Hnew. }
  clearbody run. subst run. fold made in Htail.
  destruct Htail as (Hnil & (more & Hmore & _) & Hdel & Hdef).
  split; [done|]. split; [|split; [rewrite Hdel|rewrite Hdef]; by rewrite range_set_elements].
  subst made. unfold calls_since. rewrite Hmore. subst s5. cbn [calls log set_world].
  rewrite <- ?app_assoc, drop_app_length. set_solver.
Qed.

End History.

(** ** The notification policy service: guards, failures, resets *)

Section PolicyGuards.
Context {W Rev : Type}.
Context `{!legacy_storage.ConfigRevisions Rev, !revision.ManagedRoutes Rev,
          !provisioning.alertmanagerConfigStore W Rev, !ProvisioningStore W,
          !provisioning.TransactionManager W, !provisioning.PolicySettings}.

(** X21. A routing tree that the revision does not have.  [GetManagedRoute]
    fails with the not-found error that names the tree asked for, the
    user-defined one for the empty name; [DeleteManagedRoute] fails with
    the not-found error without a message; [UpdateManagedRoute], for a
    subtree that passes validation, fails with a plain formatted error and
    not with the not-found error.  Each has read the configuration store
    once and done nothing else. *)
Theorem route_not_found (orgID : Z) (name : string) (subtree : Route) (p : Provenance)
    (version : string) (s : St W) (rev : Rev) :
  provisioning.Get orgID (world s) = Ok rev →
  legacy_storage.GetManagedRoute (provisioning.default_name name) rev = None →
  provisioning.Route_Validate subtree = None →
  provisioning.GetManagedRoute orgID name s
    = (Err (ErrRouteNotFound "route %q not found" [provisioning.default_name name]),
       log (CallConfigStoreGet orgID) s) ∧
  provisioning.DeleteManagedRoute orgID name p version s
    = (Some (ErrRouteNotFound "" []), log (CallConfigStoreGet orgID) s) ∧
  provisioning.UpdateManagedRoute orgID name subtree p version s
    = (Err (Errorf "failed to get existing named route %q: %w" [provisioning.default_name name]),
       log (CallConfigStoreGet orgID) s).
Proof.
  intros Hget Hnone Hvalid.
  unfold provisioning.GetManagedRoute, provisioning.DeleteManagedRoute,
    provisioning.UpdateManagedRoute.
  rewrite Hvalid, !M_bind_run. cbn [provisioning.configStore_Get reading fst snd].
  by rewrite Hget, Hnone.
Qed.

(** What the reading steps before the transaction leave of the world. *)
Lemma checkOptimisticConcurrency_reads (current : legacy_storage.ManagedRoute)
    (provenance : Provenance) (desiredVersion action : string) (s : St W) :
  world (provisioning.checkOptimisticConcurrency current provenance desiredVersion action s).2
    = world s ∧
  ((provisioning.checkOptimisticConcurrency current provenance desiredVersion action s).1 = None →
   desiredVersion = "" ∨ legacy_storage.mr_Version current = desiredVersion).
Proof.
  unfold provisioning.checkOptimisticConcurrency.
  case_bool_decide as Hgiven.
  - case_bool_decide; (split; [done|intros _; by left]).
  - case_bool_decide as Hdiff.
    + by split.
    + split; [done|]. intros _. right.
      destruct (decide (legacy_storage.mr_Version current = desiredVersion)); [done|].
      by destruct Hdiff.
Qed.

(** The transaction keeps nothing of a body that fails. *)
Definition atomic : Prop :=
  ∀ (body : M W (option error)) (s : St W),
    (provisioning.InTransaction body s).1 ≠ None →
    world (provisioning.InTransaction body s).2 = world s.

Lemma DeleteManagedRoute_failed (orgID : Z) (name : string) (p : Provenance)
    (version : string) (s : St W) :
  atomic →
  (provisioning.DeleteManagedRoute orgID name p version s).1 ≠ None →
  world (provisioning.DeleteManagedRoute orgID name p version s).2 = world s.
Proof.
  intros Hatomic. unfold provisioning.DeleteManagedRoute.
  rewrite M_bind_run. cbn [provisioning.configStore_Get reading fst snd].
  destruct (provisioning.Get orgID (world s)) as [revision|err]; [|done].
  destruct (legacy_storage.GetManagedRoute _ revision) as [existing|]; [|done].
  rewrite M_bind_run.
  destruct (checkOptimisticConcurrency_reads existing p version "delete"
              (log (CallConfigStoreGet orgID) s)) as (Hw1 & _).
  destruct (provisioning.checkOptimisticConcurrency existing p version "delete" _)
    as [err1 s1]. cbn [fst snd world log] in *.
  destruct err1 as [err1|]; [done|].
  rewrite M_bind_run.
  cbn [provisioning.provenanceStore_GetProvenance reading fst snd].
  destruct (GetProvenance _ orgID (world s1)) as [storedProvenance|err2]; [|done].
  destruct (provisioning.validator storedProvenance p) as [err3|]; [done|].
  rewrite M_bind_run.
  assert (Htx : ∀ (body : M W (option error)) (s2 : St W),
            world s2 = world s →
            (provisioning.InTransaction body s2).1 ≠ None →
            world (provisioning.InTransaction body s2).2 = world s).
  { intros body s2 Hw2 Herr. by rewrite Hatomic. }
  case_bool_decide.
  - destruct (legacy_storage.DeserializeAlertmanagerConfig _) as [defaultCfg|err4];
      [|done].
    destruct (cfg_Route _) as [Route|]; [|done].
    destruct (legacy_storage.UpdateNamedRoute _ Route revision) as [[upd|err5] revision'];
      [|done].
    unfold mret, M_ret. cbn [fst snd].
    destruct (legacy_storage.GetMergedAlertmanagerConfig revision') as [err6|]; [done|].
    by apply Htx.
  - unfold mret, M_ret. cbn [fst snd].
    destruct (legacy_storage.GetMergedAlertmanagerConfig _) as [err6|]; [done|].
    by apply Htx.
Qed.

Lemma UpdateManagedRoute_failed (orgID : Z) (name : string) (subtree : Route)
    (p : Provenance) (version : string) (s : St W) (err : error) :
  atomic →
  (provisioning.UpdateManagedRoute orgID name subtree p version s).1 = Err err →
  world (provisioning.UpdateManagedRoute orgID name subtree p version s).2 = world s.
Proof.
  intros Hatomic. unfold provisioning.UpdateManagedRoute.
  destruct (provisioning.Route_Validate subtree) as [err0|]; [done|].
  rewrite M_bind_run. cbn [provisioning.configStore_Get reading fst snd].
  destruct (provisioning.Get orgID (world s)) as [revision|err1]; [|done].
  destruct (legacy_storage.GetManagedRoute _ revision) as [existing|]; [|done].
  rewrite M_bind_run.
  destruct (checkOptimisticConcurrency_reads existing p version "update"
              (log (CallConfigStoreGet orgID) s)) as (Hw1 & _).
  destruct (provisioning.checkOptimisticConcurrency existing p version "update" _)
    as [err2 s1]. cbn [fst snd world log] in *.
  destruct err2 as [err2|]; [done|].
  rewrite M_bind_run.
  cbn [provisioning.provenanceStore_GetProvenance reading fst snd].
  destruct (GetProvenance _ orgID (world s1)) as [storedProvenance|err3]; [|done].
  destruct (provisioning.validator storedProvenance p) as [err4|]; [done|].
  destruct (legacy_storage.UpdateNamedRoute _ subtree revision) as [[upd|err5] revision'];
    [|done].
  destruct (legacy_storage.GetMergedAlertmanagerConfig revision') as [err6|]; [done|].
  rewrite M_bind_run.
  match goal with
  | |- context [provisioning.InTransaction ?body ?s2] =>
      pose proof (Hatomic body s2) as Htx;
      destruct (provisioning.InTransaction body s2) as [[err7|] s3]
  end; [|done].
  unfold mret, M_ret. cbn [fst snd world log] in *. intros _. rewrite Htx by done. done.
Qed.

Lemma CreateManagedRoute_failed (orgID : Z) (name : string) (subtree : Route)
    (p : Provenance) (s : St W) (err : error) :
  atomic →
  (NotificationPolicyService.CreateManagedRoute orgID name subtree p s).1 = Err err →
  world (NotificationPolicyService.CreateManagedRoute orgID name subtree p s).2 = world s.
Proof.
  intros Hatomic. unfold NotificationPolicyService.CreateManagedRoute.
  destruct (provisioning.Route_Validate subtree) as [err0|]; [done|].
  rewrite M_bind_run. cbn [provisioning.configStore_Get reading fst snd].
  destruct (provisioning.Get orgID (world s)) as [revision|err1]; [|done].
  destruct (revision.CreateManagedRoute name subtree revision) as [[created|err5] revision'];
    [|done].
  destruct (legacy_storage.GetMergedAlertmanagerConfig revision') as [err6|]; [done|].
  rewrite M_bind_run.
  match goal with
  | |- context [provisioning.InTransaction ?body ?s2] =>
      pose proof (Hatomic body s2) as Htx;
      destruct (provisioning.InTransaction body s2) as [[err7|] s3]
  end; [|done].
  unfold mret, M_ret. cbn [fst snd world log] in *. intros _. by rewrite Htx.
Qed.

(** X22. A write of the policy service that fails changes nothing.  With a
    transaction manager that keeps nothing of a body that fails, whenever
    [DeleteManagedRoute], [UpdateManagedRoute] or [CreateManagedRoute]
    returns an error, whichever check or store raised it, the world is the
    one the call started from. *)
Theorem failed_write_leaves_the_world (orgID : Z) (name : string) (subtree : Route)
    (p : Provenance) (version : string) (s : St W) :
  atomic →
  let deleted := provisioning.DeleteManagedRoute orgID name p version s in
  let updated := provisioning.UpdateManagedRoute orgID name subtree p version s in
  let created := NotificationPolicyService.CreateManagedRoute orgID name subtree p s in
  (deleted.1 ≠ None → world deleted.2 = world s) ∧
  (∀ err, updated.1 = Err err → world updated.2 = world s) ∧
  (∀ err, created.1 = Err err → world created.2 = world s).
Proof.
  intros Hatomic deleted updated created.
  split; [by apply DeleteManagedRoute_failed|].
  split; intros err.
  - by apply UpdateManagedRoute_failed.
  - by apply CreateManagedRoute_failed.
Qed.

(** X23. [UpdateManagedRoute] returns a route only when every guard has
    passed: the subtree is valid, the revision has the tree, the version
    token is empty or is the version of the stored tree, the validator
    allows the change from the stored provenance to the given one, and the
    updated revision merges with the extra configuration.  The route
    returned is the one the revision made of the subtree, and it carries
    the provenance that was stored before the call, not the one given. *)
Theorem UpdateManagedRoute_guards (orgID : Z) (name : string) (subtree : Route)
    (p : Provenance) (version : string) (s s' : St W) (updated : legacy_storage.ManagedRoute) :
  provisioning.UpdateManagedRoute orgID name subtree p version s = (Ok updated, s') →
  provisioning.Route_Validate subtree = None ∧
  ∃ revision existing storedProvenance made revision',
    provisioning.Get orgID (world s) = Ok revision ∧
    legacy_storage.GetManagedRoute (provisioning.default_name name) revision = Some existing ∧
    (version = "" ∨ legacy_storage.mr_Version existing = version) ∧
    GetProvenance (legacy_storage.ManagedRoute_Provisionable existing) orgID (world s)
      = Ok storedProvenance ∧
    provisioning.validator storedProvenance p = None ∧
    legacy_storage.UpdateNamedRoute (provisioning.default_name name) subtree revision
      = (Ok made, revision') ∧
    legacy_storage.GetMergedAlertmanagerConfig revision' = None ∧
    updated = legacy_storage.mr_set_Provenance storedProvenance made.
Proof.
  unfold provisioning.UpdateManagedRoute.
  destruct (provisioning.Route_Validate subtree) as [err0|]; [done|].
  rewrite M_bind_run. cbn [provisioning.configStore_Get reading fst snd].
  destruct (provisioning.Get orgID (world s)) as [revision|err1]; [|done].
  destruct (legacy_storage.GetManagedRoute _ revision) as [existing|] eqn:Hexisting; [|done].
  rewrite M_bind_run.
  destruct (checkOptimisticConcurrency_reads existing p version "update"
              (log (CallConfigStoreGet orgID) s)) as (Hw1 & Hversion).
  destruct (provisioning.checkOptimisticConcurrency existing p version "update" _)
    as [err2 s1]. cbn [fst snd world log] in *.
  destruct err2 as [err2|]; [done|].
  rewrite M_bind_run.
  cbn [provisioning.provenanceStore_GetProvenance reading fst snd].
  rewrite Hw1.
  destruct (GetProvenance _ orgID (world s)) as [storedProvenance|err3] eqn:Hstored; [|done].
  destruct (provisioning.validator storedProvenance p) as [err4|] eqn:Hallowed; [done|].
  destruct (legacy_storage.UpdateNamedRoute _ subtree revision) as [[made|err5] revision']
    eqn:Hmade; [|done].
  destruct (legacy_storage.GetMergedAlertmanagerConfig revision') as [err6|] eqn:Hmerged;
    [done|].
  rewrite M_bind_run.
  match goal with
  | |- context [provisioning.InTransaction ?body ?s2] =>
      destruct (provisioning.InTransaction body s2) as [[err7|] s3]
  end; [done|].
  intros [= <- <-]. split; [done|].
  exists revision, existing, storedProvenance, made, revision'.
  repeat split; auto.
Qed.

Lemma DeleteManagedRoute_default_parsed (orgID : Z) (name : string) (p : Provenance)
    (version : string) (s s' : St W) :
  provisioning.DeleteManagedRoute orgID name p version s = (None, s') →
  provisioning.default_name name = legacy_storage.UserDefinedRoutingTreeName →
  ∃ defaultCfg Route,
    legacy_storage.DeserializeAlertmanagerConfig provisioning.DefaultConfiguration
      = Ok defaultCfg ∧
    cfg_Route (paac_Config (puc_AlertmanagerConfig defaultCfg)) = Some Route.
Proof.
  intros Hrun Hname. revert Hrun. unfold provisioning.DeleteManagedRoute.
  rewrite M_bind_run. cbn [provisioning.configStore_Get reading fst snd].
  destruct (provisioning.Get orgID (world s)) as [revision|err]; [|done].
  destruct (legacy_storage.GetManagedRoute _ revision) as [existing|]; [|done].
  rewrite M_bind_run.
  destruct (provisioning.checkOptimisticConcurrency existing p version "delete" _)
    as [[err1|] s1]; [done|]. cbn [fst snd].
  rewrite M_bind_run.
  cbn [provisioning.provenanceStore_GetProvenance reading fst snd].
  destruct (GetProvenance _ orgID (world s1)) as [storedProvenance|err2]; [|done].
  destruct (provisioning.validator storedProvenance p) as [err3|]; [done|].
  rewrite M_bind_run. rewrite bool_decide_eq_true_2 by done.
  destruct (legacy_storage.DeserializeAlertmanagerConfig _) as [defaultCfg|err4] eqn:Hcfg;
    [|done].
  destruct (cfg_Route _) as [Route|] eqn:Hroute; [|done].
  intros _. by exists defaultCfg, Route.
Qed.

(** X24. [DeleteManagedRoute] returns [nil] only when every guard has
    passed: the revision has the tree, the version token is empty or is the
    version of the stored tree, the validator allows the change from the
    stored provenance to the given one, and the changed revision merges
    with the extra configuration.  The user-defined tree, asked for by its
    name or by the empty name, is not removed from the revision: it is set
    to the route of the default configuration; a tree of another name is
    removed. *)
Theorem DeleteManagedRoute_guards (orgID : Z) (name : string) (p : Provenance)
    (version : string) (s s' : St W) :
  provisioning.DeleteManagedRoute orgID name p version s = (None, s') →
  ∃ revision existing storedProvenance revision',
    provisioning.Get orgID (world s) = Ok revision ∧
    legacy_storage.GetManagedRoute (provisioning.default_name name) revision = Some existing ∧
    (version = "" ∨ legacy_storage.mr_Version existing = version) ∧
    GetProvenance (legacy_storage.ManagedRoute_Provisionable existing) orgID (world s)
      = Ok storedProvenance ∧
    provisioning.validator storedProvenance p = None ∧
    legacy_storage.GetMergedAlertmanagerConfig revision' = None ∧
    (provisioning.default_name name = legacy_storage.UserDefinedRoutingTreeName →
     ∃ defaultCfg Route made,
       legacy_storage.DeserializeAlertmanagerConfig provisioning.DefaultConfiguration
         = Ok defaultCfg ∧
       cfg_Route (paac_Config (puc_AlertmanagerConfig defaultCfg)) = Some Route ∧
       legacy_storage.UpdateNamedRoute legacy_storage.UserDefinedRoutingTreeName Route revision
         = (Ok made, revision')) ∧
    (provisioning.default_name name ≠ legacy_storage.UserDefinedRoutingTreeName →
     revision' = legacy_storage.DeleteManagedRoute (provisioning.default_name name) revision).
Proof.
  unfold provisioning.DeleteManagedRoute.
  rewrite M_bind_run. cbn [provisioning.configStore_Get reading fst snd].
  destruct (provisioning.Get orgID (world s)) as [revision|err]; [|done].
  destruct (legacy_storage.GetManagedRoute _ revision) as [existing|] eqn:Hexisting; [|done].
  rewrite M_bind_run.
  destruct (checkOptimisticConcurrency_reads existing p version "delete"
              (log (CallConfigStoreGet orgID) s)) as (Hw1 & Hversion).
  destruct (provisioning.checkOptimisticConcurrency existing p version "delete" _)
    as [err1 s1]. cbn [fst snd world log] in *.
  destruct err1 as [err1|]; [done|].
  rewrite M_bind_run.
  cbn [provisioning.provenanceStore_GetProvenance reading fst snd].
  rewrite Hw1.
  destruct (GetProvenance _ orgID (world s)) as [storedProvenance|err2] eqn:Hstored; [|done].
  destruct (provisioning.validator storedProvenance p) as [err3|] eqn:Hallowed; [done|].
  rewrite M_bind_run.
  case_bool_decide as Hname.
  - destruct (legacy_storage.DeserializeAlertmanagerConfig _) as [defaultCfg|err4] eqn:Hcfg;
      [|done].
    destruct (cfg_Route _) as [Route|] eqn:Hroute; [|done].
    destruct (legacy_storage.UpdateNamedRoute _ Route revision) as [[made|err5] revision']
      eqn:Hmade; [|done].
    unfold mret, M_ret. cbn [fst snd].
    destruct (legacy_storage.GetMergedAlertmanagerConfig revision') as [err6|] eqn:Hmerged;
      [done|].
    intros _. exists revision, existing, storedProvenance, revision'.
    repeat split; auto; [|done]. intros _. by exists defaultCfg, Route, made.
  - unfold mret, M_ret. cbn [fst snd].
    destruct (legacy_storage.GetMergedAlertmanagerConfig _) as [err6|] eqn:Hmerged; [done|].
    intros _.
    exists revision, existing, storedProvenance,
      (legacy_storage.DeleteManagedRoute (provisioning.default_name name) revision).
    repeat split; auto. done.
Qed.

(** X25. [CreateManagedRoute] refuses a subtree that fails validation with
    the invalid-format error, before it reads anything; and it returns a
    route only when the subtree is valid, the revision has created the
    route under the name given, the empty name not being replaced by the
    user-defined one, and the revision with the new route merges with the
    extra configuration.  The route returned is the one the revision
    created. *)
Theorem CreateManagedRoute_guards (orgID : Z) (name : string) (subtree : Route)
    (p : Provenance) (s : St W) :
  let run := NotificationPolicyService.CreateManagedRoute orgID name subtree p s in
  (∀ err, provisioning.Route_Validate subtree = Some err →
          run = (Err (ErrRouteInvalidFormat err), s)) ∧
  (∀ created, run.1 = Ok created →
     provisioning.Route_Validate subtree = None ∧
     ∃ revision revision',
       provisioning.Get orgID (world s) = Ok revision ∧
       revision.CreateManagedRoute name subtree revision = (Ok created, revision') ∧
       legacy_storage.GetMergedAlertmanagerConfig revision' = None).
Proof.
  cbv zeta. unfold NotificationPolicyService.CreateManagedRoute. split.
  - by intros err ->.
  - intros created.
    destruct (provisioning.Route_Validate subtree) as [err0|]; [done|].
    rewrite M_bind_run. cbn [provisioning.configStore_Get reading fst snd].
    destruct (provisioning.Get orgID (world s)) as [revision|err1]; [|done].
    destruct (revision.CreateManagedRoute name subtree revision) as [[made|err5] revision']
      eqn:Hmade; [|done].
    destruct (legacy_storage.GetMergedAlertmanagerConfig revision') as [err6|] eqn:Hmerged;
      [done|].
    rewrite M_bind_run.
    match goal with
    | |- context [provisioning.InTransaction ?body ?s2] =>
        destruct (provisioning.InTransaction body s2) as [[err7|] s3]
    end; [done|].
    intros [= <-]. split; [done|]. by exists revision, revision'.
Qed.

(** X26. [GetManagedRoutes], once the revision and the provenances of
    routes are read: it returns the routes of the revision, each once and
    in some order, each with the provenance stored under its resource id
    in place of the one it had, and with no provenance when the store has
    none for it.  The world is as it was. *)
Theorem GetManagedRoutes_provenances (orgID : Z) (s : St W) (rev : Rev)
    (provenances : gmap string Provenance) :
  provisioning.Get orgID (world s) = Ok rev →
  GetProvenances orgID
      (ResourceType (legacy_storage.ManagedRoute_Provisionable revision.ManagedRoute_zero))
      (world s)
    = Ok provenances →
  let run := NotificationPolicyService.GetManagedRoutes orgID s in
  let stored := λ mr,
    default ProvenanceNone
      (provenances !! ResourceID (legacy_storage.ManagedRoute_Provisionable mr)) in
  world run.2 = world s ∧
  ∃ managedRoutes,
    run.1 = Ok managedRoutes ∧
    managedRoutes
      ≡ₚ (λ mr, legacy_storage.mr_set_Provenance (stored mr) mr)
           <$> revision.GetManagedRoutes rev.
Proof.
  intros Hget Hprovs run stored. subst run.
  unfold NotificationPolicyService.GetManagedRoutes.
  rewrite M_bind_run. cbn [provisioning.configStore_Get reading fst snd]. rewrite Hget.
  rewrite M_bind_run.
  cbn [NotificationPolicyService.provenanceStore_GetProvenances reading fst snd world log].
  rewrite Hprovs. unfold mret, M_ret. cbn [fst snd world log].
  split; [done|]. eexists. split; [done|].
  rewrite revision.Sort_Permutation.
  assert (Hsame : NotificationPolicyService.with_provenance provenances
                    <$> revision.GetManagedRoutes rev
                  = (λ mr, legacy_storage.mr_set_Provenance (stored mr) mr)
                      <$> revision.GetManagedRoutes rev).
  { apply list_fmap_ext. intros i mr _.
    unfold NotificationPolicyService.with_provenance, stored.
    by destruct (provenances !! _). }
  by rewrite Hsame.
Qed.

(** X27. [ResetPolicyTree] is the deletion of the user-defined tree without
    version token.  It fails exactly when that deletion fails, with the
    error of the deletion; when the deletion returns [nil], the default
    configuration has parsed and has a route, so that the second parse
    cannot fail, and the route returned is that one.  In both cases the
    state is the one the deletion left. *)
Theorem ResetPolicyTree_is_the_deletion (orgID : Z) (provenance : Provenance) (s : St W) :
  let deleted :=
    provisioning.DeleteManagedRoute orgID legacy_storage.UserDefinedRoutingTreeName
      provenance "" s in
  let reset := NotificationPolicyService.ResetPolicyTree orgID provenance s in
  reset.2 = deleted.2 ∧
  match deleted.1 with
  | Some err => reset.1 = Err err
  | None =>
      ∃ defaultCfg route,
        legacy_storage.DeserializeAlertmanagerConfig provisioning.DefaultConfiguration
          = Ok defaultCfg ∧
        cfg_Route (paac_Config (puc_AlertmanagerConfig defaultCfg)) = Some route ∧
        reset.1 = Ok route
  end.
Proof.
  cbv zeta. unfold NotificationPolicyService.ResetPolicyTree, mbind, M_bind.
  destruct (provisioning.DeleteManagedRoute orgID legacy_storage.UserDefinedRoutingTreeName
              provenance "" s) as [[err|] s1] eqn:Hdeleted; cbn [fst snd].
  { done. }
  destruct (DeleteManagedRoute_default_parsed _ _ _ _ _ _ Hdeleted eq_refl)
    as (defaultCfg & Route & Hcfg & Hroute).
  rewrite Hcfg, Hroute. unfold mret, M_ret. cbn [fst snd].
  split; [done|]. by exists defaultCfg, Route.
Qed.

Lemma default_name_user_defined :
  provisioning.default_name "" = legacy_storage.UserDefinedRoutingTreeName ∧
  provisioning.default_name legacy_storage.UserDefinedRoutingTreeName
    = legacy_storage.UserDefinedRoutingTreeName.
Proof.
  unfold provisioning.default_name. split; [done|]. by case_bool_decide.
Qed.

(** X28. The tree without a name.  For [GetManagedRoute],
    [DeleteManagedRoute] and [UpdateManagedRoute] the empty name and the
    name of the user-defined tree are the same request, with the same
    result and the same calls; [GetPolicyTree] and [UpdatePolicyTree] are
    those requests too, their result being the route and the version of
    the managed route returned. *)
Theorem empty_name_is_the_user_defined_tree (orgID : Z) (subtree : Route) (p : Provenance)
    (version : string) (s : St W) :
  let pair := λ (r : result legacy_storage.ManagedRoute * St W),
    (match r.1 with
     | Ok r => Ok (revision.AsAMRoute r, legacy_storage.mr_Version r)
     | Err err => Err err
     end, r.2) in
  provisioning.GetManagedRoute orgID "" s
    = provisioning.GetManagedRoute orgID legacy_storage.UserDefinedRoutingTreeName s ∧
  provisioning.DeleteManagedRoute orgID "" p version s
    = provisioning.DeleteManagedRoute orgID legacy_storage.UserDefinedRoutingTreeName
        p version s ∧
  provisioning.UpdateManagedRoute orgID "" subtree p version s
    = provisioning.UpdateManagedRoute orgID legacy_storage.UserDefinedRoutingTreeName
        subtree p version s ∧
  NotificationPolicyService.GetPolicyTree orgID s
    = pair (provisioning.GetManagedRoute orgID "" s) ∧
  NotificationPolicyService.UpdatePolicyTree orgID subtree p version s
    = pair (provisioning.UpdateManagedRoute orgID "" subtree p version s).
Proof.
  destruct default_name_user_defined as (Hempty & Hnamed).
  assert (Hget : provisioning.GetManagedRoute orgID "" s
                 = provisioning.GetManagedRoute orgID legacy_storage.UserDefinedRoutingTreeName s).
  { unfold provisioning.GetManagedRoute. by rewrite Hempty, Hnamed. }
  assert (Hupdate : provisioning.UpdateManagedRoute orgID "" subtree p version s
                    = provisioning.UpdateManagedRoute orgID
                        legacy_storage.UserDefinedRoutingTreeName subtree p version s).
  { unfold provisioning.UpdateManagedRoute. by rewrite Hempty, Hnamed. }
  split; [done|]. split.
  { unfold provisioning.DeleteManagedRoute. by rewrite Hempty, Hnamed. }
  split; [done|]. split.
  - unfold NotificationPolicyService.GetPolicyTree, mbind, M_bind. rewrite Hget.
    by destruct (provisioning.GetManagedRoute orgID _ s) as [[r|err] s1].
  - unfold NotificationPolicyService.UpdatePolicyTree, mbind, M_bind. rewrite Hupdate.
    by destruct (provisioning.UpdateManagedRoute orgID _ subtree p version s)
      as [[r|err] s1].
Qed.

End PolicyGuards.

(** ** [GetAlertmanagerConfiguration], end to end *)

Section ReadEndToEnd.
Context {W : Type}.
Context `{!External, !ConfigurationStore W, !ProvisioningStore W, !Crypto W,
          !Alertmanagers W}.

(** The conversion fails only on a stored secret that does not decrypt. *)
Lemma gettable_managed_fails (prs : list PostableGrafanaReceiver) (w : W) (err : error) :
  notifier.gettable_managed prs w = Err err →
  ∃ pr k err0,
    pr ∈ prs ∧ is_Some (pgr_SecureSettings pr !! k) ∧ getDecryptedSecret pr k w = Err err0.
Proof.
  revert err. induction prs as [|pr prs IH]; intros err; cbn; [done|].
  pose proof (secureFields_of_acc pr (map_to_list (pgr_SecureSettings pr)).*1 ∅ w) as Hacc.
  destruct (notifier.secureFields_of pr _ ∅ w) as [m|err1].
  - destruct (notifier.gettable_managed prs w) as [receivers|err2]; [done|].
    intros _. destruct (IH err2 eq_refl) as (pr' & k & err0 & Hin & Hk & Hfail).
    exists pr', k, err0. split; [by right|done].
  - intros _. destruct Hacc as (k & err0 & Hin & Hfail & _).
    exists pr, k, err0. split; [by left|]. split; [|done].
    apply list_elem_of_fmap in Hin as ([k' v] & -> & Hin).
    apply elem_of_map_to_list in Hin. by eexists.
Qed.

Lemma gettable_receivers_fails (recvs : list PostableApiReceiver) (w : W) (err : error) :
  notifier.gettable_receivers recvs w = Err err →
  ∃ recv pr k err0,
    recv ∈ recvs ∧ pr ∈ par_GrafanaManagedReceivers recv ∧
    is_Some (pgr_SecureSettings pr !! k) ∧ getDecryptedSecret pr k w = Err err0.
Proof.
  revert err. induction recvs as [|recv recvs IH]; intros err; cbn; [done|].
  destruct (notifier.gettable_managed (par_GrafanaManagedReceivers recv) w)
    as [receivers|err1] eqn:Hmanaged.
  - destruct (notifier.gettable_receivers recvs w) as [rest|err2]; [done|].
    intros _. destruct (IH err2 eq_refl) as (recv' & pr & k & err0 & Hin & Hrest).
    exists recv', pr, k, err0. split; [by right|done].
  - intros _. destruct (gettable_managed_fails _ _ _ Hmanaged) as (pr & k & err0 & Hin & Hrest).
    exists recv, pr, k, err0. split; [by left|done].
Qed.

(** What a conversion that succeeds returns. *)
Lemma gettable_receivers_converted (recvs : list PostableApiReceiver) (w : W)
    (converted : list GettableApiReceiver) :
  notifier.gettable_receivers recvs w = Ok converted →
  Forall2 (λ recv gettableApiReceiver,
             gar_Name gettableApiReceiver = par_Name recv ∧
             Forall2 (gettable_of w) (par_GrafanaManagedReceivers recv)
                     (gar_GrafanaManagedReceivers gettableApiReceiver))
          recvs converted.
Proof.
  revert converted. induction recvs as [|recv recvs IH]; intros converted; cbn.
  - intros [= <-]. constructor.
  - pose proof (gettable_managed_shape (par_GrafanaManagedReceivers recv) w) as Hmanaged.
    destruct (notifier.gettable_managed _ w) as [receivers|err]; [|done].
    destruct (notifier.gettable_receivers recvs w) as [rest|err]; [|done].
    intros [= <-]. constructor; [done|]. by apply IH.
Qed.

(** X29. [GetAlertmanagerConfiguration] without generated routes, end to
    end.  When the latest configuration is read and loads, its extra
    configurations decrypt, its receivers are re-encrypted, every stored
    secret decrypts and the four kinds of provenance are read: the call
    returns a configuration with the template files and the extra
    configurations of the decrypted one, the template and mute-timing
    provenances of the store, and the receivers in order and by name, each
    contact point with the UID, name, type, settings and resolve flag it is
    stored with, its secrets reduced to the flags of those that are not
    empty, and the provenance stored for its UID, none when there is
    none. *)
Theorem GetAlertmanagerConfiguration_returns (org : Z) (s : St W)
    (amConfig : AlertConfiguration) (cfg decrypted : PostableUserConfig)
    (Receivers : list PostableApiReceiver) (cpProvs tmplProvs mtProvs : gmap string Provenance) :
  GetLatestAlertmanagerConfiguration org (world s) = Ok amConfig →
  Load (ac_AlertmanagerConfiguration amConfig) = Ok cfg →
  DecryptExtraConfigs cfg (world s) = Ok decrypted →
  EncryptReceiverConfigSettings (paac_Receivers (puc_AlertmanagerConfig decrypted))
      (λ payload, Encrypt payload (world s))
    = Ok Receivers →
  (∀ recv pr k,
     recv ∈ Receivers → pr ∈ par_GrafanaManagedReceivers recv →
     is_Some (pgr_SecureSettings pr !! k) →
     ∃ decryptedValue, getDecryptedSecret pr k (world s) = Ok decryptedValue) →
  (∀ route,
     cfg_Route (paac_Config (puc_AlertmanagerConfig decrypted)) = Some route →
     ∃ provenance, GetProvenance (Route_Provisionable route) org (world s) = Ok provenance) →
  GetProvenances org EmbeddedContactPoint_ResourceType (world s) = Ok cpProvs →
  GetProvenances org NotificationTemplate_ResourceType (world s) = Ok tmplProvs →
  GetProvenances org MuteTimeInterval_ResourceType (world s) = Ok mtProvs →
  ∃ out,
    (notifier.GetAlertmanagerConfiguration org false s).1 = Ok out ∧
    guc_TemplateFiles out = puc_TemplateFiles decrypted ∧
    guc_ExtraConfigs out = puc_ExtraConfigs decrypted ∧
    guc_TemplateFileProvenances out = tmplProvs ∧
    gaac_MuteTimeProvenances (guc_AlertmanagerConfig out) = mtProvs ∧
    Forall2 (λ recv receiver,
               gar_Name receiver = par_Name recv ∧
               Forall2 (λ pr contactPoint,
                          ∃ gr, gettable_of (world s) pr gr ∧
                                contactPoint = with_stored_provenance cpProvs gr)
                       (par_GrafanaManagedReceivers recv)
                       (gar_GrafanaManagedReceivers receiver))
            Receivers (gaac_Receivers (guc_AlertmanagerConfig out)).
Proof.
  intros Hget Hload Hdecrypted Hencrypted Hsecrets Hroute Hcp Htmpl Hmt.
  destruct (notifier.gettable_receivers Receivers (world s)) as [converted|err] eqn:Hconverted.
  2:{ destruct (gettable_receivers_fails _ _ _ Hconverted)
        as (recv & pr & k & err0 & Hrecv & Hpr & Hk & Hfail).
      destruct (Hsecrets recv pr k Hrecv Hpr Hk) as (v & Hv). congruence. }
  pose proof (gettable_receivers_converted _ _ _ Hconverted) as Hshape.
  set (result :=
         {| guc_TemplateFiles := puc_TemplateFiles decrypted;
            guc_TemplateFileProvenances := ∅;
            guc_AlertmanagerConfig :=
              {| gaac_Config := paac_Config (puc_AlertmanagerConfig decrypted);
                 gaac_MuteTimeProvenances := ∅;
                 gaac_Receivers := converted |};
            guc_ExtraConfigs := puc_ExtraConfigs decrypted |}).
  set (s4 := log CallCrypto (log CallCrypto (log CallCrypto
               (log (CallGetLatestAlertmanagerConfiguration org) s)))).
  assert (Hrun : (notifier.GetAlertmanagerConfiguration org false s).1
                 = (notifier.mergeProvenance result org s4).1).
  { unfold notifier.GetAlertmanagerConfiguration.
    rewrite ?M_bind_run.
    cbn [notifier.call_GetLatestAlertmanagerConfiguration reading fst snd].
    rewrite Hget. rewrite ?M_bind_run.
    unfold notifier.gettableUserConfigFromAMConfigString. rewrite Hload.
    rewrite ?M_bind_run. cbn [reading fst snd world log]. rewrite Hdecrypted.
    rewrite ?M_bind_run. cbn [reading fst snd world log]. rewrite Hencrypted.
    rewrite ?M_bind_run. cbn [reading fst snd world log]. rewrite Hconverted.
    fold s4. change (notifier.guc_set_Receivers converted _) with result.
    by destruct (notifier.mergeProvenance result org s4) as [[out|err] s5]. }
  assert (Hmerged : ∃ routed,
            (notifier.mergeProvenance result org s4).1
              = Ok (notifier.guc_set_MuteTimeProvenances mtProvs
                      (notifier.guc_set_TemplateFileProvenances tmplProvs
                         (notifier.guc_set_Receivers
                            (notifier.merge_contactPoints cpProvs
                               (gaac_Receivers (guc_AlertmanagerConfig routed)))
                            routed))) ∧
            gaac_Receivers (guc_AlertmanagerConfig routed) = converted ∧
            guc_TemplateFiles routed = puc_TemplateFiles decrypted ∧
            guc_ExtraConfigs routed = puc_ExtraConfigs decrypted).
  { destruct (cfg_Route (paac_Config (puc_AlertmanagerConfig decrypted))) as [route|]
      eqn:Hr.
    - destruct (Hroute route eq_refl) as (provenance & Hprov).
      exists (notifier.guc_set_Route (route_set_Provenance provenance route) result).
      split; [|done].
      apply mergeProvenance_merges; [|done..].
      subst result. cbn. rewrite Hr. by exists provenance.
    - exists result. split; [|done].
      apply mergeProvenance_merges; [|done..].
      subst result. cbn. by rewrite Hr. }
  destruct Hmerged as (routed & Hmerged & Hreceivers & Hfiles & Hextra).
  eexists. split; [by rewrite Hrun, Hmerged|].
  cbn. rewrite Hreceivers. split; [done|]. split; [done|]. split; [done|]. split; [done|].
  clear -Hshape. unfold notifier.merge_contactPoints.
  induction Hshape as [|recv g Receivers converted (Hname & Hmanaged) _ IH]; [constructor|].
  rewrite fmap_cons. constructor; [|done]. cbn. split; [done|].
  clear -Hmanaged.
  induction Hmanaged as [|pr gr prs grs Hgr _ IH]; [constructor|].
  rewrite fmap_cons. constructor; [|done]. by exists gr.
Qed.

(** X30. The generated routes are added at the end, and only there.
    [GetAlertmanagerConfiguration] with generated routes is the call
    without them followed by [AddAutogenConfig] on the Alertmanager
    configuration of its result: it fails when the call without them
    fails, with the same error, or when [AddAutogenConfig] fails, with that
    error; otherwise its result differs from that of the call without them
    in the Alertmanager configuration only.  Neither call changes the
    world. *)
Theorem GetAlertmanagerConfiguration_withAutogen (org : Z) (s : St W) :
  let plain := notifier.GetAlertmanagerConfiguration org false s in
  let generated := notifier.GetAlertmanagerConfiguration org true s in
  world plain.2 = world s ∧
  world generated.2 = world s ∧
  generated.1
    = match plain.1 with
      | Err err => Err err
      | Ok cfg =>
          match AddAutogenConfig org (guc_AlertmanagerConfig cfg) (world s) with
          | Err err => Err err
          | Ok AlertmanagerConfig =>
              Ok (notifier.guc_set_AlertmanagerConfig AlertmanagerConfig cfg)
          end
      end.
Proof.
  cbv zeta. unfold notifier.GetAlertmanagerConfiguration.
  rewrite ?M_bind_run.
  cbn [notifier.call_GetLatestAlertmanagerConfiguration reading fst snd].
  destruct (GetLatestAlertmanagerConfiguration org (world s)) as [amConfig|err]; [|done].
  rewrite ?M_bind_run.
  destruct (gettableUserConfigFromAMConfigString_reads org
              (ac_AlertmanagerConfiguration amConfig)
              (log (CallGetLatestAlertmanagerConfiguration org) s) s eq_refl) as (_ & Hworld).
  destruct (notifier.gettableUserConfigFromAMConfigString org _ _) as [[cfg|err] s1];
    cbn [fst snd] in *; [|done].
  rewrite ?M_bind_run. cbn [reading fst snd world log]. rewrite Hworld.
  unfold mret, M_ret. cbn [fst snd].
  by destruct (AddAutogenConfig org (guc_AlertmanagerConfig cfg) (world s)).
Qed.

End ReadEndToEnd.

(* ================================================================== *)
(** * Examples on a small world *)
(* ================================================================== *)

Module example.

(** A world with one organisation, number 1: the raw text of its latest
    configuration, whether the permission service refuses deletions, and
    whether the provenance store fails on template provenances. *)
Record World : Type := {
  latest : string;
  deny_deletions : bool;
  templates_down : bool
}.

(** The document that the text [stored] stands for: three named receivers
    amid sections of the wrong shape. *)
Definition stored_document : json :=
  JObject
    [("template_files", JNumber "7");
     ("alertmanager_config",
      JObject
        [("route", JArray [JString "not a route"]);
         ("receivers",
          JArray
            [JObject [("name", JString "A");
                      ("grafana_managed_receiver_configs", JBool true)];
             JObject [("email_configs", JNumber "0"); ("name", JString "B")];
             JObject [("name", JString "C")]]);
         ("time_intervals", JString "oops")]);
     ("extra_config", JNull)].

Definition contact (uid name : string) : PostableGrafanaReceiver :=
  {| pgr_UID := uid; pgr_Name := name; pgr_Type := "email";
     pgr_DisableResolveMessage := false; pgr_Settings := "{}";
     pgr_SecureSettings := ∅ |}.

Definition receiver (name : string) (grs : list PostableGrafanaReceiver) : PostableApiReceiver :=
  {| par_Name := name; par_Receiver := ""; par_GrafanaManagedReceivers := grs |}.

Definition posted (names : list string) (rules : list InhibitRule) : PostableUserConfig :=
  {| puc_TemplateFiles := ∅;
     puc_AlertmanagerConfig :=
       {| paac_Config := {| cfg_Route := Some {| route_Receiver := "A"; route_Spec := "";
                                                 route_Provenance := "" |};
                            cfg_InhibitRules := rules;
                            cfg_Rest := "" |};
          paac_Receivers := (λ n, receiver n [contact "" n]) <$> names |};
     puc_ExtraConfigs := [{| Identifier := "mimir"; ec_Spec := "old" |}] |}.

(** The path of a type error, written with the names of the fields and
    the indices of the elements, separated by dots. *)
Definition dotted (path : list path_step) : string :=
  String.concat "."
    ((λ step, match step with
              | Member name => name
              | Index i => pretty i
              end) <$> path).

(** The functions outside the two files, for a generator [uids]. *)
Definition external (uids : nat → string) : External :=
  {| json_parse := λ raw, if bool_decide (raw = "stored") then Some stored_document else None;
     foldName := λ key, key;
     UnmarshalTypeError_Field := dotted;
     Load := λ raw, if bool_decide (raw = "stored") then Ok (posted ["A"; "B"; "C"] [])
                    else Err (ErrOpaque "unreadable");
     receiver_Type := λ r, match par_GrafanaManagedReceivers r with
                           | [] => AlertmanagerReceiverType
                           | _ => GrafanaReceiverType
                           end;
     NameToUid := λ name, name;
     range_set := elements;
     range_set_elements := λ X, reflexivity _;
     short_uid := uids;
     EncryptReceiverConfigSettings := λ receivers _, Ok receivers;
     Route_Provisionable := λ _, {| ResourceType := "route"; ResourceID := "" |};
     EmbeddedContactPoint_ResourceType := "contactPoint";
     NotificationTemplate_ResourceType := "template";
     MuteTimeInterval_ResourceType := "muteTiming" |}.

(** A generator that never repeats itself: "a", "b", "c", ... *)
Definition letters (n : nat) : string := String (Ascii.ascii_of_nat (97 + n)) EmptyString.

(** A generator stuck on one identifier. *)
Definition stuck (n : nat) : string := "same".

(** A generator that repeats its first identifier four more times before
    it goes on with "f", "g", ... *)
Definition repeating (n : nat) : string := if (n <? 5)%nat then "same" else letters n.

#[export] Instance configurationStore : ConfigurationStore World :=
  {| GetLatestAlertmanagerConfiguration := λ org w,
       if bool_decide (org = 1)
       then Ok {| ac_ID := 1; ac_AlertmanagerConfiguration := latest w;
                  ac_OrgID := 1; ac_LastApplied := 0 |}
       else Err ErrNoAlertmanagerConfiguration |}.

#[export] Instance provisioningStore : ProvisioningStore World :=
  {| GetProvenance := λ _ _ _, Ok "api";
     GetProvenances := λ _ resourceType w,
       if templates_down w && bool_decide (resourceType = "template")
       then Err (ErrOpaque "provenance store unavailable")
       else Ok ∅;
     SetProvenance := λ _ _ _ w, (None, w);
     DeleteProvenance := λ _ _ w, (None, w) |}.

#[export] Instance crypto : Crypto World :=
  {| ProcessSecureSettings := λ _ receivers _, Ok receivers;
     DecryptExtraConfigs := λ cfg _, Ok cfg;
     Encrypt := λ payload _, Ok payload;
     getDecryptedSecret := λ _ _ _, Ok "secret" |}.

#[export] Instance receiverPermissions : ReceiverPermissions World :=
  {| DeleteResourcePermissions := λ _ _ w,
       (if deny_deletions w then Some (ErrOpaque "denied") else None, w);
     SetDefaultPermissions := λ _ _ w, w |}.

#[export] Instance alertmanagers : Alertmanagers World :=
  {| Alertmanager := unit;
     alertmanagerForOrg := λ _ _, Ok tt;
     AlertmanagerFor := λ _ _, AlertmanagerReady tt;
     am_SaveAndApplyConfig := λ _ _ w, (None, w);
     am_SaveAndApplyDefaultConfig := λ _ w, (None, w);
     AddAutogenConfig := λ _ cfg _, Ok cfg |}.

Definition start (w : World) : St World := {| world := w; uid_draws := 0; calls := [] |}.

(** The stored configuration names A, B and C and deletions are refused. *)
Definition refusing : World :=
  {| latest := "stored"; deny_deletions := true; templates_down := false |}.

(** The same with a provenance store that fails on templates. *)
Definition degraded : World :=
  {| latest := "stored"; deny_deletions := false; templates_down := true |}.

(** The stored configuration is not JSON. *)
Definition garbled : World :=
  {| latest := "garbled"; deny_deletions := false; templates_down := false |}.

End example.

Section Examples.
Import example.

(** A text that is not JSON is refused as a whole. *)
Example extractReceiverNames_syntax_error :
  notifier.extractReceiverNames (H := external letters) "receivers: [A, B"
    = Err (fmt_Errorf "unable to parse Alertmanager configuration" SyntaxError).
Proof. reflexivity. Qed.

(** A [receivers] member of the wrong kind is a type error, and the decoder
    keeps the first one it meets. *)
Example decode_receivers_of_wrong_kind :
  notifier.decode_receiverUserConfig (H := external letters)
    (JObject [("alertmanager_config",
               JObject [("receivers", JString "A,B"); ("receivers", JNumber "3")])])
    = ({| notifier.sl_elems := []; notifier.sl_stale := [] |},
       Some (UnmarshalTypeError "string" "alertmanager_config.receivers")).
Proof. reflexivity. Qed.

(** A [name] of the wrong kind in the second receiver: the type error has
    the path to it, and the decoder goes on. *)
Example decode_name_of_wrong_kind :
  notifier.decode_receiverUserConfig (H := external letters)
    (JObject [("alertmanager_config",
               JObject [("receivers",
                         JArray [JObject [("name", JString "A")];
                                 JObject [("name", JNumber "7")];
                                 JObject [("name", JString "C")]])])])
    = ({| notifier.sl_elems := ["A"; ""; "C"]; notifier.sl_stale := [] |},
       Some (UnmarshalTypeError "number" "alertmanager_config.receivers.1.name")).
Proof. reflexivity. Qed.

(** Three [receivers] members: the second leaves the slice shorter, and the
    third is decoded over the element that the first has left behind. *)
Example decode_receivers_over_stale :
  notifier.decode_receiverUserConfig (H := external letters)
    (JObject [("alertmanager_config",
               JObject [("receivers",
                         JArray [JObject [("name", JString "A")];
                                 JObject [("name", JString "B")]]);
                        ("receivers", JArray [JObject []]);
                        ("receivers", JArray [JObject []; JObject []])])])
    = ({| notifier.sl_elems := ["A"; "B"]; notifier.sl_stale := [] |}, None).
Proof. reflexivity. Qed.

Lemma stored_document_names :
  receiver_names_at (H := external letters) stored_document ["A"; "B"; "C"].
Proof.
  exists [("template_files", JNumber "7");
          ("alertmanager_config",
           JObject
             [("route", JArray [JString "not a route"]);
              ("receivers",
               JArray
                 [JObject [("name", JString "A");
                           ("grafana_managed_receiver_configs", JBool true)];
                  JObject [("email_configs", JNumber "0"); ("name", JString "B")];
                  JObject [("name", JString "C")]]);
              ("time_intervals", JString "oops")]);
          ("extra_config", JNull)],
         [("route", JArray [JString "not a route"]);
          ("receivers",
           JArray
             [JObject [("name", JString "A");
                       ("grafana_managed_receiver_configs", JBool true)];
              JObject [("email_configs", JNumber "0"); ("name", JString "B")];
              JObject [("name", JString "C")]]);
          ("time_intervals", JString "oops")],
         [JObject [("name", JString "A");
                   ("grafana_managed_receiver_configs", JBool true)];
          JObject [("email_configs", JNumber "0"); ("name", JString "B")];
          JObject [("name", JString "C")]].
  split; [reflexivity|]. split.
  { exists [("template_files", JNumber "7")], "alertmanager_config", [("extra_config", JNull)].
    split; [reflexivity|]. split; [reflexivity|]. repeat constructor. }
  split.
  { exists [("route", JArray [JString "not a route"])], "receivers",
           [("time_intervals", JString "oops")].
    split; [reflexivity|]. split; [reflexivity|]. repeat constructor. }
  constructor.
  { eexists. split; [reflexivity|].
    exists [], "name", [("grafana_managed_receiver_configs", JBool true)].
    split; [reflexivity|]. split; [reflexivity|]. repeat constructor. }
  constructor.
  { eexists. split; [reflexivity|].
    exists [("email_configs", JNumber "0")], "name", [].
    split; [reflexivity|]. split; [reflexivity|]. repeat constructor. }
  constructor; [|constructor].
  eexists. split; [reflexivity|].
  exists [], "name", []. split; [reflexivity|]. split; [reflexivity|]. constructor.
Defined.

(** The names A, B and C come out of a document whose other sections have
    the wrong shape. *)
Lemma extractReceiverNames_resilient_witness :
  notifier.extractReceiverNames (H := external letters) "stored"
    = Ok (list_to_set ["A"; "B"; "C"]).
Proof.
  apply (extractReceiverNames_resilient (H := external letters) "stored" stored_document).
  - reflexivity.
  - exact stored_document_names.
Defined.

Definition previous : AlertConfiguration :=
  {| ac_ID := 1; ac_AlertmanagerConfiguration := "stored"; ac_OrgID := 1; ac_LastApplied := 0 |}.

Lemma previous_names :
  notifier.extractReceiverNames (H := external letters)
      (ac_AlertmanagerConfiguration previous)
    = Ok (list_to_set ["A"; "B"; "C"]).
Proof. vm_compute. reflexivity. Qed.

Lemma NameToUid_inj : Inj (=) (=) (NameToUid (External := external letters)).
Proof. intros a b Hab. exact Hab. Qed.

(** From A, B, C to B, C, D, with a permission service that refuses every
    deletion: one deletion for A, one install for D, nothing for B and C. *)
Lemma cleanPermissions_reconciles_witness :
  let made :=
    calls_since (start refusing)
      (notifier.cleanPermissions (H := external letters) 1 previous
         (list_to_set ["B"; "C"; "D"]) (start refusing)).2 in
  occurrences (1, "A") (deletions made) = 1%nat ∧
  occurrences (1, "D") (default_installs made) = 1%nat ∧
  occurrences (1, "B") (deletions made) = 0%nat ∧
  occurrences (1, "B") (default_installs made) = 0%nat ∧
  occurrences (1, "C") (deletions made) = 0%nat ∧
  occurrences (1, "C") (default_installs made) = 0%nat.
Proof.
  destruct (cleanPermissions_reconciles (W := World) (H := external letters) 1 previous
              (list_to_set ["A"; "B"; "C"]) (list_to_set ["B"; "C"; "D"]) (start refusing)
              previous_names) as (_ & _ & _ & Hcount).
  specialize (Hcount NameToUid_inj).
  exact (conj (proj1 (Hcount "A")) (conj (proj2 (Hcount "D"))
          (conj (proj1 (Hcount "B")) (conj (proj2 (Hcount "B"))
             (conj (proj1 (Hcount "C")) (proj2 (Hcount "C"))))))).
Defined.

(** A configuration with one inhibition rule is refused at once. *)
Lemma SaveAndApplyAlertmanagerConfiguration_inhibit_rules_witness :
  notifier.SaveAndApplyAlertmanagerConfiguration (H := external letters) 1
      (posted ["B"; "C"; "D"] [{| inhibit_Spec := "source_match: severity=critical" |}])
      (start refusing)
    = (Some (errors_New "inhibition rules are not supported"), start refusing).
Proof.
  apply (SaveAndApplyAlertmanagerConfiguration_inhibit_rules (W := World)
           (H := external letters)).
  discriminate.
Defined.

(** The posted configuration names B, C and D; the deletion of the
    permissions of A is refused; the write returns [nil] all the same, and
    the refusal is in the log.  Over a stored configuration that is not
    JSON, the posted and the default configuration are applied and the call
    returns [nil]; the log has the error of the extraction of the receiver
    names, wrapped by [cleanPermissions] for the posted one. *)
Lemma write_succeeds_whatever_cleanPermissions_does_witness :
  let run := notifier.SaveAndApplyAlertmanagerConfiguration (H := external letters) 1
               (posted ["B"; "C"; "D"] []) (start refusing) in
  let posted_run := notifier.SaveAndApplyAlertmanagerConfiguration (H := external letters) 1
                      (posted ["B"; "C"; "D"] []) (start garbled) in
  let defaulted_run := notifier.SaveAndApplyDefaultConfig (H := external letters) 1
                         (start garbled) in
  let unparsed := fmt_Errorf "unable to parse Alertmanager configuration" SyntaxError in
  (run.1 = None ∧ ∃ c, c ∈ calls_since (start refusing) run.2 ∧ cleanPermissions_reported c) ∧
  (posted_run.1 = None ∧
   LogError "Failed to clean permissions for receivers"
     (Some (fmt_Errorf "failed to extract receiver names from previous configuration" unparsed))
     ∈ calls_since (start garbled) posted_run.2) ∧
  (defaulted_run.1 = None ∧
   LogError "Failed to clean permissions for receivers" (Some unparsed)
     ∈ calls_since (start garbled) defaulted_run.2).
Proof.
  intros run posted_run defaulted_run unparsed.
  split; [|split].
  - destruct (write_succeeds_whatever_cleanPermissions_does (W := World)
                (H := external letters) 1 (posted ["B"; "C"; "D"] []) (start refusing))
      as (_ & Hreported & _).
    apply Hreported.
    exists (CallDeleteResourcePermissions 1 "A" false).
    split; [|reflexivity].
    apply list_elem_of_In. vm_compute. tauto.
  - destruct (write_succeeds_whatever_cleanPermissions_does (W := World)
                (H := external letters) 1 (posted ["B"; "C"; "D"] []) (start garbled))
      as (Hnil & _ & _ & _ & Hposted & _).
    assert (Happlied : ∃ c, c ∈ calls_since (start garbled) posted_run.2 ∧ applied c = true).
    { eexists. split.
      - apply list_elem_of_In. vm_compute. do 6 right. left. reflexivity.
      - reflexivity. }
    split; [exact (Hnil Happlied)|].
    destruct (Hposted Happlied) as (_ & Hunparsed & _).
    apply (Hunparsed {| ac_ID := 1; ac_AlertmanagerConfiguration := "garbled";
                        ac_OrgID := 1; ac_LastApplied := 0 |}); reflexivity.
  - destruct (write_succeeds_whatever_cleanPermissions_does (W := World)
                (H := external letters) 1 (posted ["B"; "C"; "D"] []) (start garbled))
      as (_ & _ & _ & _ & _ & Hdefaulted).
    destruct (Hdefaulted tt garbled eq_refl eq_refl) as (Hnil & _ & Hread).
    split; [exact Hnil|].
    destruct (Hread {| ac_ID := 1; ac_AlertmanagerConfiguration := "garbled";
                       ac_OrgID := 1; ac_LastApplied := 0 |} eq_refl) as (_ & Hreread).
    destruct (Hreread {| ac_ID := 1; ac_AlertmanagerConfiguration := "garbled";
                         ac_OrgID := 1; ac_LastApplied := 0 |} eq_refl) as (Hnew & _).
    apply Hnew. reflexivity.
Defined.

(** The stored configuration has the extra configuration "mimir": another
    identifier is a conflict that names "mimir", the same identifier
    replaces it. *)
Lemma SaveAndApplyExtraConfiguration_single_witness :
  let other := {| Identifier := "other"; ec_Spec := "new" |} in
  let same := {| Identifier := "mimir"; ec_Spec := "new" |} in
  let refused := notifier.SaveAndApplyExtraConfiguration (H := external letters) 1 other
                   (start refusing) in
  let replaced := notifier.SaveAndApplyExtraConfiguration (H := external letters) 1 same
                    (start refusing) in
  (∃ existing,
     existing ∈ puc_ExtraConfigs (posted ["A"; "B"; "C"] []) ∧
     Identifier existing ≠ "other" ∧
     refused.1 = Some (fmt_Errorf "failed to apply extra configuration"
                         (ErrAlertmanagerMultipleExtraConfigsUnsupported (Identifier existing))) ∧
     refused.2 = log (CallGetLatestAlertmanagerConfiguration 1) (start refusing)) ∧
  replaced.1 = None ∧
  CallSaveAndApplyConfig (puc_set_ExtraConfigs [same] (posted ["A"; "B"; "C"] [])) true
    ∈ calls_since (start refusing) replaced.2.
Proof.
  intros other same refused replaced.
  assert (Hget : GetLatestAlertmanagerConfiguration 1 (world (start refusing)) = Ok previous)
    by reflexivity.
  assert (Hload : Load (External := external letters) (ac_AlertmanagerConfiguration previous)
                    = Ok (posted ["A"; "B"; "C"] [])) by reflexivity.
  assert (Hsome : puc_ExtraConfigs (posted ["A"; "B"; "C"] []) ≠ []) by discriminate.
  split.
  - destruct (SaveAndApplyExtraConfiguration_single (W := World) (H := external letters)
                1 other (start refusing) previous (posted ["A"; "B"; "C"] [])
                Hget Hload Hsome) as (Hconflict & _).
    apply Hconflict.
    exists {| Identifier := "mimir"; ec_Spec := "old" |}.
    split; [by left|discriminate].
  - destruct (SaveAndApplyExtraConfiguration_single (W := World) (H := external letters)
                1 same (start refusing) previous (posted ["A"; "B"; "C"] [])
                Hget Hload Hsome) as (_ & Hreplace).
    destruct (Hreplace) with (am := tt) (w' := refusing) as (Hnil & _ & Hin & _).
    + intros c Hc. apply list_elem_of_singleton in Hc as ->. reflexivity.
    + left. reflexivity.
    + reflexivity.
    + exact (conj Hnil Hin).
Defined.

(** The calls of the reconciliation from A, B, C to B, C, D, in order. *)
Example cleanPermissions_calls :
  calls (notifier.cleanPermissions (H := external letters) 1 previous
           (list_to_set ["B"; "C"; "D"]) (start refusing)).2
    = [CallDeleteResourcePermissions 1 "A" false; CallSetDefaultPermissions 1 "D"].
Proof. vm_compute. reflexivity. Qed.

Definition five_without_UID : list PostableApiReceiver :=
  [receiver "first" [contact "" "a"; contact "" "b"];
   receiver "upstream" [];
   receiver "second" [contact "" "c"; contact "" "d"; contact "" "e"]].

(** The UIDs that the generator "a", "b", "c", ... leaves, and the five
    generations it took. *)
Example assignReceiverConfigsUIDs_letters :
  let run := notifier.assignReceiverConfigsUIDs (H := external letters)
               five_without_UID (start refusing) in
  run.1.1 = None ∧
  pgr_UID <$> visited_in (H := external letters) five_without_UID run.1.2
    = ["a"; "b"; "c"; "d"; "e"] ∧
  uid_draws run.2 = 5%nat.
Proof. vm_compute. repeat split. Qed.

(** With a generator that does not repeat itself, five receivers without
    UID end up with five different UIDs; with a generator stuck on one
    identifier, the second receiver without UID exhausts its five attempts
    and the call fails; with a generator that repeats its first identifier
    four times, the second receiver without UID takes the identifier of its
    fifth attempt. *)
Lemma assignReceiverConfigsUIDs_distinct_witness :
  NoDup (pgr_UID <$>
           visited_in (H := external letters) five_without_UID
             (notifier.assignReceiverConfigsUIDs (H := external letters)
                five_without_UID (start refusing)).1.2) ∧
  (notifier.assignReceiverConfigsUIDs (H := external stuck)
     five_without_UID (start refusing)).1.1 = Some notifier.errUIDRetriesExhausted ∧
  visited_in (H := external repeating) five_without_UID
    (notifier.assignReceiverConfigsUIDs (H := external repeating)
       five_without_UID (start refusing)).1.2 !! 1%nat
    = Some (contact "f" "b").
Proof.
  split; [|split].
  - destruct (assignReceiverConfigsUIDs_distinct (W := World) (H := external letters)
                five_without_UID (start refusing)) as (_ & _ & Hok & _ & _).
    destruct (Hok eq_refl) as (_ & Hdistinct).
    apply Hdistinct. repeat constructor.
  - destruct (assignReceiverConfigsUIDs_distinct (W := World) (H := external stuck)
                five_without_UID (start refusing)) as (_ & _ & _ & _ & Hfail & _).
    apply (Hfail [contact "" "a"] (contact "" "b")
                 [contact "" "c"; contact "" "d"; contact "" "e"]
                 [contact "same" "a"] {["same"]}
                 {| world := refusing; uid_draws := 1;
                    calls := [CallGenerateShortUID "same"] |}).
    + reflexivity.
    + reflexivity.
    + vm_compute. reflexivity.
    + intros k _. apply list_elem_of_In. left. reflexivity.
  - destruct (assignReceiverConfigsUIDs_distinct (W := World) (H := external repeating)
                five_without_UID (start refusing)) as (_ & _ & _ & _ & _ & Htakes & _).
    destruct (Htakes [contact "" "a"] (contact "" "b")
                     [contact "" "c"; contact "" "d"; contact "" "e"]
                     [contact "same" "a"] {["same"]}
                     {| world := refusing; uid_draws := 1;
                        calls := [CallGenerateShortUID "same"] |} 4%nat) as (Hfifth & _).
    + reflexivity.
    + reflexivity.
    + vm_compute. reflexivity.
    + lia.
    + intros j Hj. apply list_elem_of_In. left.
      do 4 (destruct j as [|j]; [reflexivity|]). lia.
    + intros Hin. apply list_elem_of_In in Hin. vm_compute in Hin. destruct Hin as [Hin|[]].
      discriminate.
    + discriminate.
    + exact Hfifth.
Defined.

(** C9, where the code departs from it. The stored configuration loads and
    the provenance store fails on the template provenances:
    [GetAlertmanagerConfiguration] returns the zero configuration and no
    error, where the reads of the route and contact-point provenances would
    have returned the error. *)
Theorem GetAlertmanagerConfiguration_swallows_provenance_failure :
  GetProvenances 1 (NotificationTemplate_ResourceType (External := external letters)) degraded
    = Err (ErrOpaque "provenance store unavailable") ∧
  Load (External := external letters) (latest degraded) = Ok (posted ["A"; "B"; "C"] []) ∧
  (notifier.GetAlertmanagerConfiguration (H := external letters) 1 false (start degraded)).1
    = Ok GettableUserConfig_zero.
Proof. split; [reflexivity|]. split; [reflexivity|]. vm_compute. reflexivity. Qed.

End Examples.

(** ** Examples on the modelled stores *)

Module example_policy.

Definition custom_route : Route :=
  {| route_Receiver := "ops"; route_Spec := "v1"; route_Provenance := "" |}.

Definition team_route : Route :=
  {| route_Receiver := "team-a-pager"; route_Spec := "v7"; route_Provenance := "" |}.

Definition default_route : Route :=
  {| route_Receiver := "grafana-default-email"; route_Spec := "v0"; route_Provenance := "" |}.

(** A subtree without default receiver, which validation refuses. *)
Definition unroutable : Route :=
  {| route_Receiver := ""; route_Spec := "v2"; route_Provenance := "" |}.

Definition default_configuration : PostableUserConfig :=
  {| puc_TemplateFiles := ∅;
     puc_AlertmanagerConfig :=
       {| paac_Config := {| cfg_Route := Some default_route; cfg_InhibitRules := [];
                            cfg_Rest := "" |};
          paac_Receivers := [] |};
     puc_ExtraConfigs := [] |}.

(** The version token of a tree is a text kept with it; everything merges;
    the default configuration parses. *)
#[export] Instance parameters : store_model.Parameters :=
  {| store_model.route_version := route_Spec;
     store_model.merge_error := λ _, None;
     store_model.deserialize := λ _, Ok default_configuration |}.

(** Every provenance transition is allowed; a root route must name a
    receiver. *)
#[export] Instance settings : provisioning.PolicySettings :=
  {| provisioning.DefaultConfiguration := "default";
     provisioning.validator := λ _ _, None;
     provisioning.Route_Validate := λ r,
       if bool_decide (route_Receiver r = "")
       then Some (errors_New "default receiver must be set")
       else None |}.

Definition trees : gmap string Route :=
  {[ "user-defined" := custom_route; "team-a" := team_route ]}.

(** Organisation 1 has the user-defined tree and the tree "team-a". *)
Definition start : St store_model.World :=
  {| world := {| store_model.revisions_of := {[ 1 := trees ]};
                 store_model.provenances_of := ∅ |};
     uid_draws := 0;
     calls := [] |}.

End example_policy.

Section PolicyExamples.
Import store_model example_policy.

(** The stored user-defined tree has version "v1"; an update and a delete
    that carry the token "v0" fail with the conflict and change nothing. *)
Lemma stale_version_leaves_stores_unchanged_witness :
  provisioning.DeleteManagedRoute 1 "" "api" "v0" start
    = (Some (version_conflict "v0" "v1"), log (CallConfigStoreGet 1) start) ∧
  provisioning.UpdateManagedRoute 1 "" team_route "api" "v0" start
    = (Err (version_conflict "v0" "v1"), log (CallConfigStoreGet 1) start).
Proof.
  assert (Hget : provisioning.Get 1 (world start) = Ok trees) by reflexivity.
  assert (Hroute : legacy_storage.GetManagedRoute (provisioning.default_name "") trees
                     = Some (managed "user-defined" custom_route)) by reflexivity.
  exact (stale_version_leaves_stores_unchanged (W := World) (Rev := gmap string Route)
           1 "" team_route "api" "v0" start trees (managed "user-defined" custom_route)
           Hget Hroute ltac:(discriminate) ltac:(discriminate)).
Defined.

(** The same stale token with a subtree that validation refuses: the update
    fails with the invalid-format error, not with a version conflict. *)
Lemma stale_version_invalid_subtree_counterexample :
  legacy_storage.mr_Version (managed "user-defined" custom_route) = "v1" ∧
  provisioning.Get 1 (world start) = Ok trees ∧
  legacy_storage.GetManagedRoute "user-defined" trees
    = Some (managed "user-defined" custom_route) ∧
  provisioning.UpdateManagedRoute 1 "user-defined" unroutable "api" "v0" start
    = (Err (ErrRouteInvalidFormat (errors_New "default receiver must be set")), start) ∧
  ¬ (∃ format args,
       (provisioning.UpdateManagedRoute 1 "user-defined" unroutable "api" "v0" start).1
         = Err (ErrVersionConflict format args)).
Proof.
  split; [reflexivity|]. split; [reflexivity|]. split; [reflexivity|].
  split; [reflexivity|]. intros (format & args & Hconflict). discriminate Hconflict.
Qed.

(** Deleting the user-defined tree leaves the default route under its
    name; deleting the tree "team-a" leaves nothing under that name. *)
Lemma DeleteManagedRoute_then_GetManagedRoute_witness :
  (provisioning.GetManagedRoute 1 ""
     (provisioning.DeleteManagedRoute 1 "" "api" "" start).2).1
    = Ok (managed "user-defined" default_route) ∧
  (provisioning.GetManagedRoute 1 "team-a"
     (provisioning.DeleteManagedRoute 1 "team-a" "api" "v7" start).2).1
    = Err (ErrRouteNotFound "route %q not found" ["team-a"]).
Proof.
  split.
  - assert (Hrun : provisioning.DeleteManagedRoute 1 "" "api" "" start
                     = (None, (provisioning.DeleteManagedRoute 1 "" "api" "" start).2))
      by (vm_compute; reflexivity).
    destruct (DeleteManagedRoute_then_GetManagedRoute 1 "" "api" "" start _ Hrun)
      as (Hreset & _).
    destruct (Hreset eq_refl) as (defaultCfg & Route & Hcfg & Hroute & Hget).
    injection Hcfg as <-. injection Hroute as <-. exact Hget.
  - assert (Hrun : provisioning.DeleteManagedRoute 1 "team-a" "api" "v7" start
                     = (None, (provisioning.DeleteManagedRoute 1 "team-a" "api" "v7" start).2))
      by (vm_compute; reflexivity).
    destruct (DeleteManagedRoute_then_GetManagedRoute 1 "team-a" "api" "v7" start _ Hrun)
      as (_ & Hremoved).
    apply Hremoved. discriminate.
Defined.

End PolicyExamples.

(** ** Examples: more documents, the history, a refusing Alertmanager *)

Module example_history.
Import example.

(** An older configuration, with the receivers B, C and D. *)
Definition older_document : json :=
  JObject
    [("alertmanager_config",
      JObject
        [("receivers",
          JArray [JObject [("name", JString "B")];
                  JObject [("name", JString "C")];
                  JObject [("name", JString "D")]])])].

(** Receivers that are [null], have a [null] name or no name, and one named
    A. *)
Definition sparse_document : json :=
  JObject
    [("alertmanager_config",
      JObject
        [("receivers",
          JArray [JNull;
                  JObject [("name", JNull)];
                  JObject [("email_configs", JNumber "0")];
                  JObject [("name", JString "A")]])])].

(** A receiver whose name is a number, between two that are well-formed. *)
Definition numbered_document : json :=
  JObject
    [("alertmanager_config",
      JObject
        [("receivers",
          JArray [JObject [("name", JString "A")];
                  JObject [("name", JNumber "7")];
                  JObject [("name", JString "C")]])])].

Definition documents (raw : string) : option json :=
  if bool_decide (raw = "stored") then Some stored_document
  else if bool_decide (raw = "older") then Some older_document
  else if bool_decide (raw = "sparse") then Some sparse_document
  else if bool_decide (raw = "numbered") then Some numbered_document
  else if bool_decide (raw = "null") then Some JNull
  else None.

(** The functions outside the two files, with these documents. *)
Definition library : External :=
  {| json_parse := documents;
     foldName := λ key, key;
     UnmarshalTypeError_Field := dotted;
     Load := λ raw,
       if bool_decide (raw = "stored") then Ok (posted ["A"; "B"; "C"] [])
       else if bool_decide (raw = "older") then Ok (posted ["B"; "C"; "D"] [])
       else Err (ErrOpaque "unreadable");
     receiver_Type := λ r, match par_GrafanaManagedReceivers r with
                           | [] => AlertmanagerReceiverType
                           | _ => GrafanaReceiverType
                           end;
     NameToUid := λ name, name;
     range_set := elements;
     range_set_elements := λ X, reflexivity _;
     short_uid := letters;
     EncryptReceiverConfigSettings := λ receivers _, Ok receivers;
     Route_Provisionable := λ _, {| ResourceType := "route"; ResourceID := "" |};
     EmbeddedContactPoint_ResourceType := "contactPoint";
     NotificationTemplate_ResourceType := "template";
     MuteTimeInterval_ResourceType := "muteTiming" |}.

Definition record (id : Z) (raw : string) (lastApplied : Z) : AlertConfiguration :=
  {| ac_ID := id; ac_AlertmanagerConfiguration := raw; ac_OrgID := 1;
     ac_LastApplied := lastApplied |}.

(** The history of organisation 1: record 7 is the older configuration,
    record 8 does not load, record 9 is the stored one. *)
#[export] Instance configurationHistory : ConfigurationHistory World :=
  {| GetHistoricalConfiguration := λ _ id _,
       if bool_decide (id = 7) then Ok (record 7 "older" 1700000000)
       else Err (ErrOpaque "no such record");
     GetAppliedConfigurations := λ _ _ _,
       Ok [record 9 "stored" 1700000900; record 8 "garbled" 1700000800;
           record 7 "older" 1700000000] |}.

(** Alertmanagers that refuse every configuration for a receiver that a
    rule still uses. *)
Definition refusal : error :=
  fmt_Errorf "invalid notification settings" (ErrorReceiverDoesNotExist "pager").

Definition refusing_alertmanagers : Alertmanagers World :=
  {| Alertmanager := unit;
     alertmanagerForOrg := λ _ _, Ok tt;
     AlertmanagerFor := λ _ _, AlertmanagerNotReady tt;
     am_SaveAndApplyConfig := λ _ _ w, (Some refusal, w);
     am_SaveAndApplyDefaultConfig := λ _ w, (Some refusal, w);
     AddAutogenConfig := λ _ cfg _, Ok cfg |}.

(** Alertmanagers whose default configuration is the older one, with the
    receivers B, C and D: applying it replaces the stored configuration. *)
Definition defaulting_alertmanagers : Alertmanagers World :=
  {| Alertmanager := unit;
     alertmanagerForOrg := λ _ _, Ok tt;
     AlertmanagerFor := λ _ _, AlertmanagerReady tt;
     am_SaveAndApplyConfig := λ _ _ w, (None, w);
     am_SaveAndApplyDefaultConfig := λ _ w,
       (None, {| latest := "older"; deny_deletions := deny_deletions w;
                 templates_down := templates_down w |});
     AddAutogenConfig := λ _ cfg _, Ok cfg |}.

(** A provenance store with an entry for the contact point "b". *)
Definition provenances_of_b : ProvisioningStore World :=
  {| GetProvenance := λ _ _ _, Ok "api";
     GetProvenances := λ _ resourceType _,
       if bool_decide (resourceType = "contactPoint") then Ok {[ "b" := "file" ]}
       else Ok ∅;
     SetProvenance := λ _ _ _ w, (None, w);
     DeleteProvenance := λ _ _ w, (None, w) |}.

Definition gettable (uid name : string) : GettableGrafanaReceiver :=
  {| ggr_UID := uid; ggr_Name := name; ggr_Type := "email";
     ggr_DisableResolveMessage := false; ggr_Settings := "{}";
     ggr_SecureFields := ∅; ggr_Provenance := "" |}.

Definition read_configuration : GettableUserConfig :=
  {| guc_TemplateFiles := ∅;
     guc_TemplateFileProvenances := ∅;
     guc_AlertmanagerConfig :=
       {| gaac_Config := {| cfg_Route := Some {| route_Receiver := "A"; route_Spec := "";
                                                 route_Provenance := "" |};
                            cfg_InhibitRules := [];
                            cfg_Rest := "" |};
          gaac_MuteTimeProvenances := ∅;
          gaac_Receivers :=
            [{| gar_Name := "A";
                gar_GrafanaManagedReceivers := [gettable "a" "A"; gettable "b" "A"] |}] |};
     guc_ExtraConfigs := [] |}.

End example_history.

Section MoreExamples.
Import example example_history.

(** A document whose receivers are [null], nameless twice, and A; and the
    document [null]. *)
Lemma extractReceiverNames_lenient_witness :
  notifier.extractReceiverNames (H := library) "sparse" = Ok (list_to_set [""; ""; ""; "A"]) ∧
  notifier.extractReceiverNames (H := library) "null" = Ok (list_to_set []).
Proof.
  split.
  - apply (extractReceiverNames_lenient (H := library) "sparse" sparse_document
             [JNull; JObject [("name", JNull)]; JObject [("email_configs", JNumber "0")];
              JObject [("name", JString "A")]]).
    + reflexivity.
    + right. eexists _, _. split; [reflexivity|]. split.
      { left. exists [], "alertmanager_config", []. repeat split; constructor. }
      right. eexists _, _. split; [reflexivity|]. split.
      { left. exists [], "receivers", []. repeat split; constructor. }
      by right.
    + constructor; [constructor|].
      constructor.
      { apply yields_null_name. exists [], "name", []. repeat split; constructor. }
      constructor.
      { apply yields_no_name. by repeat constructor. }
      constructor; [|constructor].
      apply yields_name. exists [], "name", []. repeat split; constructor.
  - apply (extractReceiverNames_lenient (H := library) "null" JNull [] []).
    + reflexivity.
    + by left.
    + constructor.
Defined.

(** A document whose second receiver has the number 7 as its name. *)
Lemma extractReceiverNames_name_of_wrong_kind_witness :
  ∃ field,
    notifier.extractReceiverNames (H := library) "numbered"
      = Err (fmt_Errorf "unable to parse Alertmanager configuration"
               (UnmarshalTypeError "number" field)).
Proof.
  apply (extractReceiverNames_name_of_wrong_kind (H := library) "numbered"
           [("alertmanager_config",
             JObject
               [("receivers",
                 JArray [JObject [("name", JString "A")];
                         JObject [("name", JNumber "7")];
                         JObject [("name", JString "C")]])])]
           [("receivers",
             JArray [JObject [("name", JString "A")];
                     JObject [("name", JNumber "7")];
                     JObject [("name", JString "C")]])]
           [JObject [("name", JString "A")]] [JObject [("name", JString "C")]]
           [("name", JNumber "7")] (JNumber "7") ["A"]).
  - reflexivity.
  - exists [], "alertmanager_config", []. repeat split; constructor.
  - exists [], "receivers", []. repeat split; constructor.
  - constructor; [|constructor].
    apply yields_name. exists [], "name", []. repeat split; constructor.
  - exists [], "name", []. repeat split; constructor.
  - discriminate.
  - discriminate.
Defined.

(** The names A, B and C once more leave the state alone. *)
Lemma cleanPermissions_same_names_witness :
  notifier.cleanPermissions (H := external letters) 1 previous
      (list_to_set ["A"; "B"; "C"]) (start refusing)
    = (None, start refusing).
Proof.
  apply (cleanPermissions_same_names (W := World) (H := external letters)).
  exact previous_names.
Defined.

(** From A, B and C to B, C and D with a permission service that refuses
    deletions: the deletion for A fails and the install for D is made all
    the same; the call returns an error. *)
Lemma cleanPermissions_nil_iff_witness :
  let run := notifier.cleanPermissions (H := external letters) 1 previous
               (list_to_set ["B"; "C"; "D"]) (start refusing) in
  run.1 ≠ None ∧
  deletions (calls_since (start refusing) run.2) = [(1, "A")] ∧
  default_installs (calls_since (start refusing) run.2) = [(1, "D")].
Proof.
  destruct (cleanPermissions_nil_iff (W := World) (H := external letters) 1 previous
              (list_to_set ["B"; "C"; "D"]) (start refusing)) as (Hnil & Hmade).
  destruct (Hmade (list_to_set ["A"; "B"; "C"]) previous_names) as (Hdel & Hdef & _).
  split; [|split].
  - intros Hrun. apply Hnil in Hrun as (_ & Hfailed).
    vm_compute in Hfailed. discriminate.
  - rewrite Hdel. vm_compute. reflexivity.
  - rewrite Hdef. vm_compute. reflexivity.
Defined.

Definition three_with_UID : list PostableApiReceiver :=
  [receiver "first" [contact "x" "a"; contact "y" "b"];
   receiver "upstream" [];
   receiver "second" [contact "x" "c"]].

(** Receivers that have their UIDs, two of them the same one, are left as
    they are. *)
Lemma assignReceiverConfigsUIDs_nothing_missing_witness :
  notifier.assignReceiverConfigsUIDs (H := external letters) three_with_UID (start refusing)
    = ((None, three_with_UID), start refusing).
Proof.
  apply (assignReceiverConfigsUIDs_nothing_missing (W := World) (H := external letters)).
  repeat constructor; discriminate.
Defined.

(** The five receivers without UID all have one after the call. *)
Lemma assignReceiverConfigsUIDs_complete_witness :
  Forall (λ gr, pgr_UID gr ≠ "")
         (visited_in (H := external letters) five_without_UID
            (notifier.assignReceiverConfigsUIDs (H := external letters)
               five_without_UID (start refusing)).1.2).
Proof.
  apply (assignReceiverConfigsUIDs_complete (W := World) (H := external letters)).
  reflexivity.
Defined.

(** Posting B, C and D over the stored A, B and C, with a permission
    service that refuses deletions: the write returns [nil] after one
    deletion, for A, and one install, for D. *)
Lemma SaveAndApplyAlertmanagerConfiguration_reconciles_witness :
  let run := notifier.SaveAndApplyAlertmanagerConfiguration (H := external letters) 1
               (posted ["B"; "C"; "D"] []) (start refusing) in
  run.1 = None ∧
  deletions (calls_since (start refusing) run.2) ≡ₚ [(1, "A")] ∧
  default_installs (calls_since (start refusing) run.2) ≡ₚ [(1, "D")].
Proof.
  assert (Hrules : cfg_InhibitRules
                     (paac_Config (puc_AlertmanagerConfig (posted ["B"; "C"; "D"] []))) = [])
    by reflexivity.
  assert (Hget : GetLatestAlertmanagerConfiguration 1 (world (start refusing)) = Ok previous)
    by reflexivity.
  assert (Hprocessed :
            ProcessSecureSettings 1
              (paac_Receivers (puc_AlertmanagerConfig (posted ["B"; "C"; "D"] [])))
              (world (start refusing))
            = Ok (paac_Receivers (puc_AlertmanagerConfig (posted ["B"; "C"; "D"] []))))
    by reflexivity.
  destruct (SaveAndApplyAlertmanagerConfiguration_reconciles (W := World)
              (H := external letters) (Alertmanagers0 := alertmanagers) 1 (posted ["B"; "C"; "D"] []) (start refusing)
              previous (list_to_set ["A"; "B"; "C"])
              (paac_Receivers (puc_AlertmanagerConfig (posted ["B"; "C"; "D"] [])))
              tt refusing Hrules Hget previous_names Hprocessed)
    as (Hnil & _ & _ & Hdel & Hdef).
  - reflexivity.
  - left. reflexivity.
  - reflexivity.
  - exact (conj Hnil (conj Hdel Hdef)).
Defined.

(** The default configuration, with the receivers B, C and D, applied over
    the stored A, B and C: one deletion, for A, and one install, for D. *)
Lemma SaveAndApplyDefaultConfig_reconciles_witness :
  let run := notifier.SaveAndApplyDefaultConfig (H := library)
               (Alertmanagers0 := defaulting_alertmanagers) 1 (start refusing) in
  run.1 = None ∧
  deletions (calls_since (start refusing) run.2) ≡ₚ [(1, "A")] ∧
  default_installs (calls_since (start refusing) run.2) ≡ₚ [(1, "D")].
Proof.
  set (defaulted := {| latest := "older"; deny_deletions := true; templates_down := false |}).
  assert (Ham : alertmanagerForOrg (Alertmanagers := defaulting_alertmanagers) 1
                  (world (start refusing)) = Ok tt) by reflexivity.
  assert (Hget : GetLatestAlertmanagerConfiguration 1 (world (start refusing)) = Ok previous)
    by reflexivity.
  assert (Happly : am_SaveAndApplyDefaultConfig (Alertmanagers := defaulting_alertmanagers) tt
                     (world (start refusing)) = (None, defaulted)) by reflexivity.
  assert (Hget' : GetLatestAlertmanagerConfiguration 1 defaulted
                  = Ok {| ac_ID := 1; ac_AlertmanagerConfiguration := "older";
                          ac_OrgID := 1; ac_LastApplied := 0 |}) by reflexivity.
  assert (Hprev : notifier.extractReceiverNames (H := library)
                    (ac_AlertmanagerConfiguration previous)
                  = Ok (list_to_set ["A"; "B"; "C"])) by (vm_compute; reflexivity).
  assert (Hnew : notifier.extractReceiverNames (H := library) "older"
                 = Ok (list_to_set ["B"; "C"; "D"])) by (vm_compute; reflexivity).
  exact (SaveAndApplyDefaultConfig_reconciles (W := World) (H := library)
           (Alertmanagers0 := defaulting_alertmanagers) 1
           (start refusing) tt defaulted previous
           {| ac_ID := 1; ac_AlertmanagerConfiguration := "older";
              ac_OrgID := 1; ac_LastApplied := 0 |}
           (list_to_set ["A"; "B"; "C"]) (list_to_set ["B"; "C"; "D"])
           Ham Hget Happly Hget' Hprev Hnew).
Defined.

(** Organisation 2 has no configuration yet; its first configuration is
    applied, and no permission is installed for its receivers. *)
Lemma unreadable_previous_touches_no_permission_witness :
  let run := notifier.SaveAndApplyAlertmanagerConfiguration (H := external letters) 2
               (posted ["B"; "C"; "D"] []) (start refusing) in
  Forall unrelated (calls_since (start refusing) run.2) ∧
  LogError "Failed to clean permissions for receivers" (Some ErrNoAlertmanagerConfiguration)
    ∈ calls_since (start refusing) run.2.
Proof.
  assert (Hget : GetLatestAlertmanagerConfiguration 2 (world (start refusing))
                 = Err ErrNoAlertmanagerConfiguration) by reflexivity.
  destruct (unreadable_previous_touches_no_permission (W := World) (H := external letters) 2
              (posted ["B"; "C"; "D"] []) (start refusing) ErrNoAlertmanagerConfiguration Hget)
    as (Hnone & Hreported & _ & _).
  split; [exact Hnone|]. apply Hreported. reflexivity.
Defined.

(** An Alertmanager, not ready, that refuses the configuration for a
    receiver still in use. *)
Lemma SaveAndApplyAlertmanagerConfiguration_refused_witness :
  (notifier.SaveAndApplyAlertmanagerConfiguration (H := external letters)
     (Alertmanagers0 := refusing_alertmanagers) 1 (posted ["B"; "C"; "D"] [])
     (start refusing)).1
    = Some (ErrAlertmanagerReceiverInUse "pager" refusal).
Proof.
  assert (Hrules : cfg_InhibitRules
                     (paac_Config (puc_AlertmanagerConfig (posted ["B"; "C"; "D"] []))) = [])
    by reflexivity.
  assert (Hprocessed :
            ProcessSecureSettings 1
              (paac_Receivers (puc_AlertmanagerConfig (posted ["B"; "C"; "D"] [])))
              (world (start refusing))
            = Ok (paac_Receivers (puc_AlertmanagerConfig (posted ["B"; "C"; "D"] []))))
    by reflexivity.
  assert (Hprevious :
            match GetLatestAlertmanagerConfiguration 1 (world (start refusing)) with
            | Ok _ => True
            | Err err0 => errors_Is_NoAlertmanagerConfiguration err0 = true
            end) by exact I.
  rewrite (SaveAndApplyAlertmanagerConfiguration_refused (W := World)
             (H := external letters) (ConfigurationStore0 := configurationStore)
             (Crypto0 := crypto) (Alertmanagers0 := refusing_alertmanagers)
             1 (posted ["B"; "C"; "D"] []) (start refusing)
             (paac_Receivers (puc_AlertmanagerConfig (posted ["B"; "C"; "D"] [])))
             tt refusal refusing Hrules Hprevious Hprocessed).
  - reflexivity.
  - reflexivity.
  - right. reflexivity.
  - reflexivity.
Defined.

(** The stored configuration has the extra configuration "mimir";
    deleting "mimir" hands over none, deleting "other" hands over the
    stored configuration as it is. *)
Lemma DeleteExtraConfiguration_hands_the_rest_witness :
  CallSaveAndApplyConfig (puc_set_ExtraConfigs [] (posted ["A"; "B"; "C"] [])) true
    ∈ calls_since (start refusing)
        (notifier.DeleteExtraConfiguration (H := external letters) 1 "mimir"
           (start refusing)).2 ∧
  CallSaveAndApplyConfig (posted ["A"; "B"; "C"] []) true
    ∈ calls_since (start refusing)
        (notifier.DeleteExtraConfiguration (H := external letters) 1 "other"
           (start refusing)).2.
Proof.
  assert (Hget : GetLatestAlertmanagerConfiguration 1 (world (start refusing)) = Ok previous)
    by reflexivity.
  assert (Hload : Load (External := external letters) (ac_AlertmanagerConfiguration previous)
                    = Ok (posted ["A"; "B"; "C"] [])) by reflexivity.
  split.
  - destruct (DeleteExtraConfiguration_hands_the_rest (W := World) (H := external letters)
                (Alertmanagers0 := alertmanagers) 1 "mimir" (start refusing) previous (posted ["A"; "B"; "C"] []) tt None
                refusing Hget Hload) as (_ & _ & Hin & _).
    + left. reflexivity.
    + reflexivity.
    + exact Hin.
  - destruct (DeleteExtraConfiguration_hands_the_rest (W := World) (H := external letters)
                (Alertmanagers0 := alertmanagers) 1 "other" (start refusing) previous (posted ["A"; "B"; "C"] []) tt None
                refusing Hget Hload) as (_ & _ & Hin & _ & _ & _ & Hsame).
    + left. reflexivity.
    + reflexivity.
    + rewrite <- Hsame at 1; [exact Hin|].
      intros ec Hec. apply list_elem_of_singleton in Hec as ->. discriminate.
Defined.

(** A store with the provenance "file" for the contact point "b". *)
Lemma mergeProvenance_fills_witness :
  ∃ out,
    (notifier.mergeProvenance (H := external letters) (ProvisioningStore0 := provenances_of_b)
       read_configuration 1 (start refusing)).1 = Ok out ∧
    Forall2 (λ receiver receiver',
               gar_Name receiver' = gar_Name receiver ∧
               gar_GrafanaManagedReceivers receiver'
                 = with_stored_provenance {[ "b" := "file" ]}
                     <$> gar_GrafanaManagedReceivers receiver)
            (gaac_Receivers (guc_AlertmanagerConfig read_configuration))
            (gaac_Receivers (guc_AlertmanagerConfig out)).
Proof.
  eexists. split; [vm_compute; reflexivity|].
  refine (proj1 (proj2 (proj2 (proj2
            (mergeProvenance_fills (W := World) (H := external letters)
               (ProvisioningStore0 := provenances_of_b)
               read_configuration 1 (start refusing) {[ "b" := "file" ]} ∅ ∅ _ _ _ _ _))))).
  - reflexivity.
  - reflexivity.
  - reflexivity.
  - vm_compute. reflexivity.
Defined.

(** Of the three applied records, the one that does not load is
    skipped. *)
Lemma GetAppliedAlertmanagerConfigurations_skips_witness :
  ∃ out,
    (MultiOrgAlertmanager.GetAppliedAlertmanagerConfigurations (H := library) 1 10
       (start refusing)).1 = Ok out ∧
    ghuc_ID <$> out = [9; 7] ∧
    ghuc_LastApplied <$> out = [Some 1700000900; Some 1700000000].
Proof.
  assert (Hconfigs : GetAppliedConfigurations 1 10 (world (start refusing))
                     = Ok [record 9 "stored" 1700000900; record 8 "garbled" 1700000800;
                           record 7 "older" 1700000000]) by reflexivity.
  destruct (GetAppliedAlertmanagerConfigurations_skips (W := World) (H := library)
              (ConfigurationHistory0 := configurationHistory) 1 10
              (start refusing)
              [record 9 "stored" 1700000900; record 8 "garbled" 1700000800;
               record 7 "older" 1700000000] Hconfigs) as (Hrun & _ & _).
  eexists. split; [exact Hrun|]. split; vm_compute; reflexivity.
Defined.

(** Organisation 2 has no configuration to read; record 7 is activated
    for it all the same, and the error of the read is in the log. *)
Lemma ActivateHistoricalConfiguration_outcome_witness :
  let run := MultiOrgAlertmanager.ActivateHistoricalConfiguration (H := library) 2 7
               (start refusing) in
  run.1 = None ∧
  CallSaveAndApplyConfig (posted ["B"; "C"; "D"] []) true ∈ calls_since (start refusing) run.2 ∧
  LogError "Failed to clean permissions for receivers" (Some ErrNoAlertmanagerConfiguration)
    ∈ calls_since (start refusing) run.2 ∧
  Forall unrelated (calls_since (start refusing) run.2).
Proof.
  destruct (ActivateHistoricalConfiguration_outcome (W := World) (H := library)
              (Alertmanagers0 := alertmanagers) (ConfigurationHistory0 := configurationHistory)
              2 7 (start refusing)) as (_ & _ & Hunrelated & Hgoes).
  assert (Hget : GetLatestAlertmanagerConfiguration 2 (world (start refusing))
                 = Err ErrNoAlertmanagerConfiguration) by reflexivity.
  assert (Hhist : GetHistoricalConfiguration 2 7 (world (start refusing))
                  = Ok (record 7 "older" 1700000000)) by reflexivity.
  assert (Hload : Load (External := library)
                    (ac_AlertmanagerConfiguration (record 7 "older" 1700000000))
                  = Ok (posted ["B"; "C"; "D"] [])) by reflexivity.
  assert (Happly : am_SaveAndApplyConfig (Alertmanagers := alertmanagers) tt
                     (posted ["B"; "C"; "D"] []) (world (start refusing))
                   = (None, refusing)) by reflexivity.
  destruct (Hgoes ErrNoAlertmanagerConfiguration (record 7 "older" 1700000000)
              (posted ["B"; "C"; "D"] []) tt None refusing Hget Hhist Hload
              (or_introl eq_refl) Happly) as (Hhanded & _ & Hnil & _).
  destruct (Hnil eq_refl) as (Hres & Hlogged).
  split; [exact Hres|]. split; [exact Hhanded|]. split; [exact Hlogged|].
  exact (Hunrelated ErrNoAlertmanagerConfiguration Hget).
Defined.

(** Activating record 7, the older configuration with B, C and D, over
    the stored A, B and C: one deletion, for A, and one install, for D. *)
Lemma ActivateHistoricalConfiguration_reconciles_witness :
  let run := MultiOrgAlertmanager.ActivateHistoricalConfiguration (H := library) 1 7
               (start refusing) in
  run.1 = None ∧
  deletions (calls_since (start refusing) run.2) ≡ₚ [(1, "A")] ∧
  default_installs (calls_since (start refusing) run.2) ≡ₚ [(1, "D")].
Proof.
  assert (Hhist : GetHistoricalConfiguration 1 7 (world (start refusing))
                  = Ok (record 7 "older" 1700000000)) by reflexivity.
  assert (Hload : Load (External := library)
                    (ac_AlertmanagerConfiguration (record 7 "older" 1700000000))
                  = Ok (posted ["B"; "C"; "D"] [])) by reflexivity.
  assert (Hget : GetLatestAlertmanagerConfiguration 1 (world (start refusing)) = Ok previous)
    by reflexivity.
  assert (Hprev : notifier.extractReceiverNames (H := library)
                    (ac_AlertmanagerConfiguration previous)
                  = Ok (list_to_set ["A"; "B"; "C"])) by (vm_compute; reflexivity).
  assert (Hnew : notifier.extractReceiverNames (H := library)
                   (ac_AlertmanagerConfiguration (record 7 "older" 1700000000))
                 = Ok (list_to_set ["B"; "C"; "D"])) by (vm_compute; reflexivity).
  destruct (ActivateHistoricalConfiguration_reconciles (W := World) (H := library)
              (Alertmanagers0 := alertmanagers) 1 7
              (start refusing) (record 7 "older" 1700000000) previous
              (posted ["B"; "C"; "D"] []) tt refusing
              (list_to_set ["A"; "B"; "C"]) (list_to_set ["B"; "C"; "D"])
              Hhist Hload) as (Hnil & _ & Hdel & Hdef).
  - left. reflexivity.
  - exact Hget.
  - reflexivity.
  - exact Hprev.
  - exact Hnew.
  - exact (conj Hnil (conj Hdel Hdef)).
Defined.

End MoreExamples.

(** ** Examples on the modelled stores: more of the policy service *)

Module example_routes.
Import store_model example_policy.

(** The routes of a revision, by name; a name is created once. *)
#[export] Instance managedRoutes : revision.ManagedRoutes (gmap string Route) :=
  {| revision.CreateManagedRoute := λ name subtree rev,
       match rev !! name with
       | Some _ => (Err (ErrOpaque "a route of that name exists"), rev)
       | None => (Ok (managed name subtree), <[name := subtree]> rev)
       end;
     revision.GetManagedRoutes := λ rev, (λ kv, managed kv.1 kv.2) <$> map_to_list rev;
     revision.Sort := λ routes, routes;
     revision.Sort_Permutation := λ routes, reflexivity _;
     revision.AsAMRoute := legacy_storage.mr_Route |}.

(** Organisation 1 with the provenance "file" for its tree "team-a". *)
Definition provisioned : St store_model.World :=
  {| world := {| store_model.revisions_of := {[ 1 := trees ]};
                 store_model.provenances_of := {[ (1, "route") := {[ "team-a" := "file" ]} ]} |};
     uid_draws := 0;
     calls := [] |}.

End example_routes.

Section MorePolicyExamples.
Import store_model example_policy example_routes.

(** Organisation 1 has no tree "nowhere". *)
Lemma route_not_found_witness :
  provisioning.GetManagedRoute 1 "nowhere" start
    = (Err (ErrRouteNotFound "route %q not found" ["nowhere"]), log (CallConfigStoreGet 1) start) ∧
  provisioning.DeleteManagedRoute 1 "nowhere" "api" "" start
    = (Some (ErrRouteNotFound "" []), log (CallConfigStoreGet 1) start) ∧
  provisioning.UpdateManagedRoute 1 "nowhere" team_route "api" "" start
    = (Err (Errorf "failed to get existing named route %q: %w" ["nowhere"]),
       log (CallConfigStoreGet 1) start).
Proof.
  assert (Hget : provisioning.Get 1 (world start) = Ok trees) by reflexivity.
  assert (Hnone : legacy_storage.GetManagedRoute (provisioning.default_name "nowhere") trees
                  = None) by reflexivity.
  assert (Hvalid : provisioning.Route_Validate team_route = None) by reflexivity.
  exact (route_not_found (W := World) (Rev := gmap string Route)
           1 "nowhere" team_route "api" "" start trees Hget Hnone Hvalid).
Defined.

Lemma xact_atomic : atomic (W := World).
Proof.
  intros body s. unfold provisioning.InTransaction, xact.
  by destruct (body s) as [[err|] s'].
Qed.

(** Creating a tree under a name that is taken, and deleting a tree
    that is not there, fail and leave the stores as they were. *)
Lemma failed_write_leaves_the_world_witness :
  world (NotificationPolicyService.CreateManagedRoute 1 "team-a" custom_route "api" start).2
    = world start ∧
  world (provisioning.DeleteManagedRoute 1 "nowhere" "api" "" start).2 = world start.
Proof.
  split.
  - destruct (failed_write_leaves_the_world (W := World) (Rev := gmap string Route)
                1 "team-a" custom_route "api" "" start xact_atomic) as (_ & _ & Hcreated).
    apply (Hcreated (ErrOpaque "a route of that name exists")). reflexivity.
  - destruct (failed_write_leaves_the_world (W := World) (Rev := gmap string Route)
                1 "nowhere" custom_route "api" "" start xact_atomic) as (Hdeleted & _ & _).
    apply Hdeleted. discriminate.
Defined.

(** The tree "team-a" has the provenance "file"; an update that gives
    the provenance "api" returns the route with "file". *)
Lemma UpdateManagedRoute_guards_witness :
  ∃ updated,
    (provisioning.UpdateManagedRoute 1 "team-a" custom_route "api" "v7" provisioned).1
      = Ok updated ∧
    legacy_storage.mr_Provenance updated = "file" ∧
    legacy_storage.mr_Route updated = custom_route.
Proof.
  assert (Hrun : provisioning.UpdateManagedRoute 1 "team-a" custom_route "api" "v7" provisioned
                 = (Ok (legacy_storage.mr_set_Provenance "file" (managed "team-a" custom_route)),
                    (provisioning.UpdateManagedRoute 1 "team-a" custom_route "api" "v7"
                       provisioned).2))
    by (vm_compute; reflexivity).
  destruct (UpdateManagedRoute_guards (W := World) (Rev := gmap string Route)
              1 "team-a" custom_route "api" "v7" provisioned _ _ Hrun)
    as (_ & revision & existing & storedProvenance & made & revision' & _ & _ & _ & _ & _
        & _ & _ & Hupdated).
  eexists. split; [rewrite Hrun; reflexivity|]. split; reflexivity.
Defined.

(** Deleting the tree without a name sets the user-defined tree to the
    default route; the revision still has it. *)
Lemma DeleteManagedRoute_guards_witness :
  ∃ made revision',
    legacy_storage.UpdateNamedRoute legacy_storage.UserDefinedRoutingTreeName default_route trees
      = (Ok made, revision') ∧
    legacy_storage.GetMergedAlertmanagerConfig revision' = None.
Proof.
  assert (Hrun : provisioning.DeleteManagedRoute 1 "" "api" "" start
                 = (None, (provisioning.DeleteManagedRoute 1 "" "api" "" start).2))
    by (vm_compute; reflexivity).
  destruct (DeleteManagedRoute_guards (W := World) (Rev := gmap string Route)
              1 "" "api" "" start _ Hrun)
    as (revision & existing & storedProvenance & revision' & Hget & _ & _ & _ & _ & Hmerged
        & Hreset & _).
  destruct (Hreset eq_refl) as (defaultCfg & Route & made & Hcfg & Hroute & Hmade).
  injection Hget as <-. injection Hcfg as <-. injection Hroute as <-.
  by exists made, revision'.
Defined.

(** The two trees of organisation 1, "team-a" with the provenance
    "file" and the user-defined one with none. *)
Lemma GetManagedRoutes_provenances_witness :
  ∃ managedRoutes,
    (NotificationPolicyService.GetManagedRoutes 1 provisioned).1 = Ok managedRoutes ∧
    managedRoutes
      ≡ₚ [legacy_storage.mr_set_Provenance "" (managed "user-defined" custom_route);
          legacy_storage.mr_set_Provenance "file" (managed "team-a" team_route)].
Proof.
  assert (Hget : provisioning.Get 1 (world provisioned) = Ok trees) by reflexivity.
  assert (Hprovs : GetProvenances 1
                     (ResourceType (legacy_storage.ManagedRoute_Provisionable
                                      revision.ManagedRoute_zero))
                     (world provisioned)
                   = Ok {[ "team-a" := "file" ]}) by reflexivity.
  destruct (GetManagedRoutes_provenances (W := World) (Rev := gmap string Route)
              1 provisioned trees {[ "team-a" := "file" ]} Hget Hprovs)
    as (_ & managedRoutes & Hrun & Hperm).
  exists managedRoutes. split; [exact Hrun|].
  rewrite Hperm.
  assert (Heq : (λ mr,
                   legacy_storage.mr_set_Provenance
                     (default ProvenanceNone
                        (({[ "team-a" := "file" ]} : gmap string Provenance)
                           !! ResourceID (legacy_storage.ManagedRoute_Provisionable mr))) mr)
                  <$> revision.GetManagedRoutes trees
                = [legacy_storage.mr_set_Provenance "" (managed "user-defined" custom_route);
                   legacy_storage.mr_set_Provenance "file" (managed "team-a" team_route)]).
  { vm_compute. reflexivity. }
  rewrite Heq. reflexivity.
Defined.

End MorePolicyExamples.

Section ReadExamples.
Import example.

(** Reading the stored configuration of organisation 1, with the receivers
    A, B and C and nothing in the provenance store. *)
Lemma GetAlertmanagerConfiguration_returns_witness :
  ∃ out,
    (notifier.GetAlertmanagerConfiguration (H := external letters) 1 false
       (start refusing)).1 = Ok out ∧
    guc_ExtraConfigs out = [{| Identifier := "mimir"; ec_Spec := "old" |}] ∧
    guc_TemplateFileProvenances out = ∅ ∧
    Forall2 (λ recv receiver,
               gar_Name receiver = par_Name recv ∧
               Forall2 (λ pr contactPoint,
                          ∃ gr, gettable_of (world (start refusing)) pr gr ∧
                                contactPoint = with_stored_provenance ∅ gr)
                       (par_GrafanaManagedReceivers recv)
                       (gar_GrafanaManagedReceivers receiver))
            ((λ n, receiver n [contact "" n]) <$> ["A"; "B"; "C"])
            (gaac_Receivers (guc_AlertmanagerConfig out)).
Proof.
  assert (Hget : GetLatestAlertmanagerConfiguration 1 (world (start refusing))
                 = Ok {| ac_ID := 1; ac_AlertmanagerConfiguration := "stored";
                         ac_OrgID := 1; ac_LastApplied := 0 |}) by reflexivity.
  assert (Hload : Load (External := external letters) "stored"
                  = Ok (posted ["A"; "B"; "C"] [])) by reflexivity.
  assert (Hdecrypted : DecryptExtraConfigs (posted ["A"; "B"; "C"] []) (world (start refusing))
                       = Ok (posted ["A"; "B"; "C"] [])) by reflexivity.
  assert (Hencrypted : EncryptReceiverConfigSettings (External := external letters)
                         (paac_Receivers (puc_AlertmanagerConfig (posted ["A"; "B"; "C"] [])))
                         (λ payload, Encrypt payload (world (start refusing)))
                       = Ok ((λ n, receiver n [contact "" n]) <$> ["A"; "B"; "C"]))
    by reflexivity.
  destruct (GetAlertmanagerConfiguration_returns (W := World) (H := external letters)
              (ConfigurationStore0 := configurationStore)
              (ProvisioningStore0 := provisioningStore) (Crypto0 := crypto)
              (Alertmanagers0 := alertmanagers) 1 (start refusing) _ _ _ _ ∅ ∅ ∅
              Hget Hload Hdecrypted Hencrypted)
    as (out & Hrun & _ & Hextra & Htmpl & _ & Hshape).
  - intros recv pr k _ _ _. by exists "secret".
  - intros route _. by exists "api".
  - reflexivity.
  - reflexivity.
  - reflexivity.
  - exists out. split; [exact Hrun|]. split; [exact Hextra|]. split; [exact Htmpl|].
    exact Hshape.
Defined.

End ReadExamples.
